(* ===== verification/_CoqProject ===== *)
-Q . S2P
Prelude.v
Types.v
Account.v
Borsh.v
JsonText.v
Utf8.v
Json.v
Env.v
Collections.v
Storage.v
Contract.v
Layout.v
Runtime.v
Wrapper.v
Registry.v
Abi.v
Deployment.v
Host.v
