(* ===== verification/Prelude.v ===== *)
(** * A verification development for near-mint-nft

    The program is one NEAR smart contract, [src/src/lib.rs] (82 lines of
    Rust on near-sdk 4).  It keeps a registry of non-fungible tokens:

    - [struct Contract] (lines 6-12): the persistent state -- the account
      [owner_id] given at initialisation, the map [tokens_by_id]
      (an [UnorderedMap<String, Token>]) and the collection metadata
      [metadata] (a [LazyOption<NFTContractMetadata>]);
    - [enum StorageKey] (lines 14-18): the storage prefixes of the two
      collections;
    - [struct Token], [TokenMetadata], [NFTContractMetadata]
      (lines 20-41): the stored values, Borsh-encoded in storage and
      JSON-encoded at the call boundary;
    - the methods of [impl Contract] (lines 43-83), exported by
      [#[near_bindgen]]: the initialiser [new] (45-58), [mint_nft]
      (60-72) and the views [nft_token] (75-77) and [nft_metadata] (80-82).

    How the parts interact: the host ([near_sdk::env]) runs one call at a
    time on a method name and input bytes; the generated wrapper of a
    method checks the attached deposit, parses the JSON arguments
    (serde_json, with the derived [Deserialize] of the argument struct;
    an [AccountId] is validated there), reads the state (or, for [new],
    checks that none exists), runs the method, writes the state back and
    returns the JSON of the result; a panic anywhere discards the
    call's state changes (the log lines before it stay in the receipt).  [mint_nft] asks the host for the caller
    ([predecessor_account_id]), compares it with the literal
    "gelezako.testnet", inserts into the map and logs one line; the map
    and the metadata cell store Borsh bytes under their prefixes.

    ** Files, and how they correspond to the code

    - [Prelude] (this file): Rust's [Result] as [result] with [let!]; a
      state-and-panic monad [ST] ([let*], [;;]) for methods that mutate
      [self] and may panic; the hint databases [nft] (resolve) and
      [nft_rw] (rewrite rules that run monadic code); the tactics
      [case_string_eqb] and [length_lia].
    - [Types]: lines 14-41 as records and an inductive; a string's bytes;
      [into_storage_key] is the one-byte Borsh prefix
      [derive(BorshStorageKey)] gives.
    - [Account] ([Module Account]): near-sdk's [is_valid_account_id], the
      check every [AccountId] decoded from outside data passes, and the
      regular expression its comment says it implements.
    - [Borsh] ([Module Borsh]): the byte encoding the derives give the
      stored values: [ser_string]/[de_string] (u32 little-endian length,
      bytes, [String::from_utf8] as [utf8_valid]), [ser_option]/[de_option]
      (tag 0 or 1), [de_account_id] (a string, then validated), one
      encoder and decoder per struct in field order, and [try_from_slice].
    - [JsonText] ([Module JsonText]): serde_json's compact writer and its
      reader on a byte slice: strings with escapes and surrogate pairs,
      [ignore_value] for skipped values, the steps of [MapAccess] and
      [SeqAccess], [from_slice].
    - [Utf8] ([Module Utf8]): [Borsh.utf8_valid] (the byte table of
      [core::str::from_utf8]) against [JsonText.encode_utf8]
      ([char::encode_utf8], shifts and masks): the check accepts exactly
      the encodings of sequences of Unicode scalar values.
    - [Json] ([Module Json]): the derived [Serialize]/[Deserialize] of
      the three structs and of the argument structs of [new], [mint_nft]
      and [nft_token]: generated [visit_map] and [visit_seq] over a
      record of the visitor's locals.
    - [Env]: the host as the methods see it: [VMContext] (predecessor,
      attached deposit), [VMState] ([self] and the log), [Panic],
      [log_str] (line 71), [assert_eq] (line 63).  A method's panic
      carries the log lines emitted before it ([Aborted]): NEAR drops
      the state changes of a failed call and keeps those lines.
    - [Collections]: the type classes [UnorderedMapOps] (new, get,
      insert, prefix) and [UnorderedMapLaws] that state what the contract
      relies on from [UnorderedMap]; the setoid [umap_equiv] with
      [Proper] instances; the implementation [GUnorderedMap] on stdpp's
      [gmap]; [LazyOption].
    - [Storage] ([Module Storage]): the storage near-sdk's collections
      keep in the account, as a [gmap] from keys to bytes with
      [storage_read] and [storage_write]: [UnorderedMap] as its index
      (key -> u64 position, under [prefix ++ b"i"]) and its keys and
      values [Vector]s (under [prefix ++ b"k"] and [prefix ++ b"v"]),
      with [get_raw], [insert_raw], [get] and [insert] as near-sdk writes
      them, panics included; [LazyOption] as one cell.  The invariant
      [um_inv] relates the layout to a [gmap]; [frame] and [agree_under]
      say which keys an operation touches or a representation reads.
    - [Contract] ([Module NftContract]): [Contract], [new], [mint_nft]
      (in [ST]), [nft_token], [nft_metadata], over any [M] implementing
      the interface; the theorems use only the laws.
    - [Layout] ([Module Layout]): the four methods on the account
      storage, [tokens_by_id] at [StorageKey::TokensById = [0]] and
      [metadata] at [StorageKey::Metadata = [1]], on a [World] ([self],
      storage, log), and the relation [contract_repr] to the contract of
      [NftContract] on [GUnorderedMap].
    - [Runtime] ([Module Runtime]): [execute], one call with decoded
      arguments through its wrapper ([rejects_deposit], [state_read] for
      [PanicOnDefault], [revert]); [run], a sequence of calls; [step]
      and [reachable], the deployed account as a state machine.  A panic
      of the wrapper ([revert]) comes before any log line; a panic of
      the method keeps the state and the lines it logged.
    - [Wrapper] ([Module Wrapper]): the same wrappers on the account's
      storage, which then holds everything: [struct Contract]
      Borsh-encoded under [b"STATE"] ([ser_contract], with the derived
      encodings of the collection headers from [Storage]),
      [state_exists], [state_read] (with [PanicOnDefault]),
      [state_write] after [new] and [mint_nft], a panic reverting every
      write ([execute], [run]); [account_repr] relates a [Runtime]
      state to a storage.
    - [Registry] ([Module Registry]): the abstract registry of the
      specification ([spec_step]: initialise, mint, get-token,
      get-collection-metadata, its error taxonomy, a mint policy) and
      the abstraction relation [refines].
    - [Abi] ([Module Abi]): [execute_input], the exported function on
      the method name and the input bytes: deposit check, [from_slice]
      of the arguments ([decode_call]), [Runtime.execute], JSON of the
      return value ([encode_return]).
    - [Deployment] ([Module Deployment]): the deployed account as the
      host drives it, one exported call after another on the committed
      state ([run_inputs]), the states those calls reach
      ([reachable_bytes]), and the type invariant of the stored
      [AccountId]s ([typed]).
    - [Host] ([Module Host]): the exported functions on input bytes run
      on the account storage ([execute_input]: deposit check,
      [Abi.decode_call], [Wrapper.execute]) and a sequence of them
      ([run_inputs]).

    ** What the theorems show

    - Contract (C1, C2, C13, C23): [mint_nft] on both branches -- the
      authorised caller stores exactly its token, changes nothing else
      and logs one line; anyone else gets the [assert_eq!] panic before
      anything is logged; a second mint of an id overwrites; mints of
      distinct ids commute.
    - Runtime (C3, C4, C6, C7, C9-C11, C14, C15): by induction on
      [reachable], every reachable state has the metadata cell set with
      spec "nft-1.0.0", only tokens owned by "gelezako.testnet", and the
      collections at their prefixes; a panicking call commits nothing
      and, although the host keeps the lines a method logs before a
      panic, carries no log line, every panic of the code coming before
      its only [env::log_str]; [nft_metadata] never reaches its [unwrap]
      panic; [new] cannot run twice; owner and metadata never change;
      deposits are refused; the views write nothing; calls before [new]
      panic; the specification's end-to-end scenario is checked by
      evaluation.
    - Registry (C5, C12): the runtime refines the abstract registry
      with the minter pinned to "gelezako.testnet", call by call and for
      every sequence of calls.
    - Borsh and UTF-8 (C17, C20, C26): the stored values round-trip
      through their bytes; a stored [String] decodes exactly when its
      bytes are the [char::encode_utf8] encoding of a sequence of
      Unicode scalar values ([Utf8]: [core::str::from_utf8]'s table
      and core's encoder agree); a token with an invalid owner account
      is refused; the metadata round trip, injectivity, bad option tags
      and trailing bytes are lemmas of the file.
    - Storage (C18, C19, C21, C22, C32, C34, C36): near-sdk's
      [UnorderedMap] on storage refines [gmap] -- [get] returns the
      lookup and writes nothing, [insert] returns the previous value,
      leaves a layout representing the updated map and writes only
      under the map's prefix; the methods on storage ([Layout]) do what
      [NftContract] does, and a mint leaves the metadata cell alone; one
      exported call on input bytes run on the account storage has the
      outcome [Abi.execute_input] has (same log, same returned bytes or
      panic, related states), and every sequence of such calls from the
      freshly deployed account leaves storage representing the contract
      value (the token map's stored length counting the tokens), with
      no assumption but NEAR's argument limit; [STATE] reads back what
      was written; undecodable [STATE] makes every call panic and commit
      nothing; once initialised, no call changes the bytes of the
      metadata cell.  Every theorem about [Runtime] and [Deployment] thus
      holds of the storage the contract really keeps.
    - Account names (C25): the single-pass check decides exactly the
      regular expression of its comment, within 2 to 64 bytes.
    - JSON (C27-C30): the JSON written for a token or for the
      collection metadata reads back as the same value; the arguments
      of [mint_nft] without [metadata], or with [token_id] twice, are
      refused ([Json.mint_nft_input_array_form] shows the array form is
      accepted).
    - Calls on bytes (C31, C33, C35, C37): a call sent as the JSON a
      client writes has exactly the outcome of the decoded call; [new]
      refuses an owner that is not a valid account name; the argument
      parser never runs out of fuel ([Abi.execute_input_bad_input] and
      the end-to-end scenario on bytes are lemmas of the file).  C37
      composes the two refinements: an operation of the registry sent
      as bytes refines [spec_step], its result observed as the JSON of
      the specification's answer.
    - The deployed account (C8, C16, C24): every state the exported
      functions can produce is reachable in [Runtime] and holds values
      of their Rust types -- valid [AccountId]s, [String]s of valid UTF-8
      within [isize::MAX] bytes -- because the derived readers keep the
      checks of each field ([Json.deserialize_struct_keeps]); so every
      value storage holds (the owner in the contract state, the metadata
      cell, every key and token of the map) reads back from its Borsh
      bytes; and minting stays possible: from every state, [new] if
      needed and then [mint_nft] by "gelezako.testnet", sent as JSON,
      store the token.

    ** Bounds, fuel and termination

    Every definition but the JSON reader is structural ([Fixpoint] on
    lists or [nat]).  The reader's loops that skip escapes, elements or
    fields take fuel; [from_slice] gives [2 * length input + 2] units,
    since a nested array or object costs one unit for the value and one
    for its element loop, and [Abi.decode_call_no_out_of_fuel] shows
    that no input exhausts it.  A call's input is at most 4 MiB
    ([Deployment.MAX_ARGUMENTS_LENGTH], the NEAR runtime's limit), far
    below the [2^31] bytes a stored [String] may have.  Integers are [Z]: the deposit is a u128
    compared with 0 only; a string length is a u32, written by [ser_u32]
    with [Z.land]/[Z.shiftr], and [ser_string] fails ([LengthOverflow])
    past [2^32 - 1]; the Borsh round trips assume the bound Rust itself
    gives on wasm32 ([isize::MAX = 2^31 - 1] bytes), under which encoding
    never fails.  Storage indices and vector lengths are u64: [push_raw]
    writes [(len + 1) mod 2^64] (a build with overflow checks would
    panic instead; the repository fixes no build profile, and the bound
    below keeps the addition from overflowing either way), and [insert]
    is proved under
    [size m + 1 < 2^64], which holds of every map a call can build (each
    mint adds at most one key); a map key is Borsh-encoded, so its length
    is below [2^32].  [Host.deployed_storage_refines] bounds the number
    of calls by [2^64], which bounds the number of tokens.  JSON code
    points are decoded and re-encoded with
    [Z.shiftl], [Z.shiftr], [Z.land] and [Z.lor] as serde_json does.

    ** Not modelled

    Numbers in JSON are only scanned (no method takes one); serde_json's
    nesting limit of 128 is never reached by the contract's argument
    structs (depth 2) and not modelled; the WebAssembly ABI and gas; the
    operations of near-sdk's [UnorderedMap] the code never calls
    ([remove], iteration, [clear]); and storage staking, which the
    code does not check.  [Wrapper]'s simulation assumes arguments that
    are Rust values ([Wrapper.call_ok]); [Host] discharges it from the
    JSON readers. *)

From stdpp Require Import base gmap strings list.
From Stdlib Require Import ZArith Lia.

Declare Scope nft_scope.
Delimit Scope nft_scope with nft.

(** ** Results of fallible code *)

(** Rust's [Result<T, E>]. *)
Inductive result (A E : Type) : Type :=
| Ok (a : A)
| Err (e : E).
Arguments Ok {A E} a.
Arguments Err {A E} e.

Definition result_of_option {A E} (o : option A) (e : E) : result A E :=
  match o with Some a => Ok a | None => Err e end.

(** Rust's [?] on a [Result]: continue with the value or return the error. *)
Definition result_bind {A B E} (r : result A E) (f : A -> result B E) : result B E :=
  match r with Ok a => f a | Err e => Err e end.

Notation "'let!' x ':=' c 'in' k" := (result_bind c (fun x => k))
  (at level 10, x pattern, c at level 100, k at level 200) : nft_scope.

(** ** A state monad with panics

    [ST S E A] is a computation on a state [S] that either returns a
    value of [A] with the new state or panics with an [E]; a panic
    carries no state, so the caller cannot observe a partial update. *)

Definition ST (S E A : Type) : Type := S -> result (A * S) E.

Definition st_ret {S E A} (a : A) : ST S E A := fun s => Ok (a, s).

Definition st_bind {S E A B} (c : ST S E A) (k : A -> ST S E B) : ST S E B :=
  fun s => match c s with
           | Ok (a, s1) => k a s1
           | Err e => Err e
           end.

Definition st_get {S E} : ST S E S := fun s => Ok (s, s).

Definition st_put {S E} (s : S) : ST S E unit := fun _ => Ok (tt, s).

Definition st_modify {S E} (f : S -> S) : ST S E unit := fun s => Ok (tt, f s).

Definition st_panic {S E A} (e : E) : ST S E A := fun _ => Err e.

(** Rust's [assert!]: panic with [e] unless [b] holds. *)
Definition st_assert {S E} (b : bool) (e : E) : ST S E unit :=
  if b then st_ret tt else st_panic e.

Notation "'let*' x ':=' c 'in' k" := (st_bind c (fun x => k))
  (at level 10, x name, c at level 100, k at level 200) : nft_scope.
Notation "c ;; k" := (st_bind c (fun _ => k)) : nft_scope.

Open Scope nft_scope.

(** ** Rewriting rules for the monad *)

Lemma st_bind_ret_l {S E A B} (a : A) (k : A -> ST S E B) (s : S) :
  st_bind (st_ret a) k s = k a s.
Proof. reflexivity. Qed.

Lemma st_bind_panic {S E A B} (e : E) (k : A -> ST S E B) (s : S) :
  st_bind (st_panic e) k s = Err e.
Proof. reflexivity. Qed.

(** [assert!] on a condition already decided. *)
Lemma st_assert_true {S E} (e : E) : @st_assert S E true e = st_ret tt.
Proof. reflexivity. Qed.

Lemma st_assert_false {S E} (e : E) : @st_assert S E false e = st_panic e.
Proof. reflexivity. Qed.

Lemma Ok_inj {A E} (a b : A) : @Ok A E a = Ok b -> a = b.
Proof. congruence. Qed.

(** ** Automation *)

(** [nft] collects the lemmas [auto] uses to close invariant goals;
    [nft_rw] the equations [autorewrite] uses to run monadic code and
    map operations forward. *)
Create HintDb nft discriminated.
Create Rewrite HintDb nft_rw.

#[export] Hint Rewrite @st_bind_ret_l @st_bind_panic @st_assert_true @st_assert_false
  : nft_rw.

(** Arithmetic on the lengths of concatenated lists. *)
Ltac length_lia :=
  repeat progress (rewrite ?length_app in *; cbn [length] in *); lia.

(** Case on the first string comparison [String.eqb a b] of the goal,
    with [a = b] or [a <> b] as hypothesis [H]. *)
Ltac case_string_eqb H :=
  match goal with
  | |- context [ String.eqb ?a ?b ] => destruct (String.eqb_spec a b) as [H|H]
  end.
