(* ===== verification/Types.v ===== *)
(** * The contract's data (src/src/lib.rs, lines 14-41)

    The stored values as records, the storage-key enum as an inductive
    with its Borsh byte prefix, and decidable equality for each, so that
    [decide] and [simplify_eq] do the case analysis in the later files. *)

From stdpp Require Import base strings list.
From Stdlib Require Import ZArith Lia.
From S2P Require Import Prelude.

(** [near_sdk::AccountId]: an account name, compared as a string. *)
Abbreviation AccountId := string.

(** [str::as_bytes]: a string as its bytes, each a [Z] in [0, 2^8);
    and back, as [String::from_utf8] does once the bytes are checked. *)
Definition bytes_of_string (s : string) : list Z :=
  map (fun a => Z.of_nat (Ascii.nat_of_ascii a)) (String.list_ascii_of_string s).

Definition string_of_bytes (bs : list Z) : string :=
  String.string_of_list_ascii (map (fun b => Ascii.ascii_of_nat (Z.to_nat b)) bs).

(** [struct TokenMetadata] (lines 27-33): every field optional. *)
Record TokenMetadata := mkTokenMetadata {
  title : option string;
  description : option string;
  media : option string;
}.

(** [struct Token] (lines 20-25). *)
Record Token := mkToken {
  owner_id : AccountId;
  metadata : TokenMetadata;
}.

(** [struct NFTContractMetadata] (lines 35-41). *)
Record NFTContractMetadata := mkNFTContractMetadata {
  spec : string;
  name : string;
  symbol : string;
}.

(** [enum StorageKey] (lines 14-18). *)
Inductive StorageKey :=
| TokensById
| Metadata.

(** [#[derive(BorshStorageKey)]] turns a key into its Borsh encoding:
    the variant index as one byte (u8), here 0 and 1. *)
Definition into_storage_key (k : StorageKey) : list Z :=
  match k with
  | TokensById => [0%Z]
  | Metadata => [1%Z]
  end.

#[export] Instance TokenMetadata_eq_dec : EqDecision TokenMetadata.
Proof. solve_decision. Defined.

#[export] Instance Token_eq_dec : EqDecision Token.
Proof. solve_decision. Defined.

#[export] Instance NFTContractMetadata_eq_dec : EqDecision NFTContractMetadata.
Proof. solve_decision. Defined.

#[export] Instance StorageKey_eq_dec : EqDecision StorageKey.
Proof. solve_decision. Defined.

Lemma length_bytes_of_string s : length (bytes_of_string s) = String.length s.
Proof. induction s; simpl; auto. Qed.

Lemma string_of_bytes_of_string s : string_of_bytes (bytes_of_string s) = s.
Proof.
  induction s as [|a s IH]; [done|]. unfold string_of_bytes in *. simpl.
  rewrite Nat2Z.id, Ascii.ascii_nat_embedding. by f_equal.
Qed.

(** Bytes in [0, 2^8) survive the trip through a string. *)
Lemma bytes_of_string_of_bytes bs :
  Forall (fun b => (0 <= b < 256)%Z) bs -> bytes_of_string (string_of_bytes bs) = bs.
Proof.
  induction 1 as [|b bs Hb _ IH]; [done|]. unfold bytes_of_string, string_of_bytes in *.
  cbn [map String.string_of_list_ascii String.list_ascii_of_string].
  rewrite Ascii.nat_ascii_embedding by lia. rewrite Z2Nat.id by lia. by f_equal.
Qed.

Lemma length_string_of_bytes bs : String.length (string_of_bytes bs) = length bs.
Proof. induction bs; simpl; auto. Qed.
