(* ===== verification/Account.v ===== *)
(** * Account names: [near_sdk::AccountId] (lines 3, 9, 23 and 46)

    [owner_id] of [Contract] (line 9) and of [Token] (line 23), and the
    argument [owner_id] of [new] (line 46), are [AccountId]s.  near-sdk
    checks an account name whenever it builds one from outside data --
    when it decodes one from JSON (the arguments of [new]) and from
    Borsh (a stored [Token]) -- with [is_valid_account_id]: 2 to 64
    bytes, each a lowercase letter, a digit or one of the separators
    [-], [_], [.], with no separator first, last, or next to another.

    The routine is a single pass with one flag, [last_char_is_separator];
    its comment gives the regular expression it replaces,
    [^(([a-z\d]+[-_])*[a-z\d]+\.)*([a-z\d]+[-_])*[a-z\d]+$].  The
    theorem of this file is that the pass decides exactly that
    language (within the length bounds). *)

From stdpp Require Import base strings list.
From Stdlib Require Import ZArith Lia.
From S2P Require Import Prelude Types.

Module Account.

Local Open Scope Z_scope.

Definition MIN_ACCOUNT_ID_LEN : Z := 2.
Definition MAX_ACCOUNT_ID_LEN : Z := 64.

(** [b'a'..=b'z' | b'0'..=b'9']. *)
Definition is_alnum (c : Z) : bool :=
  ((97 <=? c) && (c <=? 122)) || ((48 <=? c) && (c <=? 57)).

(** [b'-' | b'_' | b'.']. *)
Definition is_separator (c : Z) : bool := (c =? 45) || (c =? 95) || (c =? 46).

(** The loop of [is_valid_account_id]; [last] is
    [last_char_is_separator], [true] before the first byte.  Any other
    byte, or a separator after a separator, returns [false]; at the end
    the name is valid when its last byte is not a separator. *)
Fixpoint scan (last : bool) (bs : list Z) : bool :=
  match bs with
  | [] => negb last
  | c :: rest =>
      if is_alnum c then scan false rest
      else if is_separator c then (if last then false else scan true rest)
      else false
  end.

(** [is_valid_account_id(account_id: &[u8]) -> bool]. *)
Definition is_valid_account_id (bs : list Z) : bool :=
  (MIN_ACCOUNT_ID_LEN <=? Z.of_nat (length bs)) &&
  (Z.of_nat (length bs) <=? MAX_ACCOUNT_ID_LEN) && scan true bs.

(** [AccountId::validate(&str)]: the check on the bytes of the name. *)
Definition valid_account_id (s : AccountId) : bool :=
  is_valid_account_id (bytes_of_string s).

(** ** The regular expression of the comment *)

(** [[a-z\d]+]. *)
Definition alnum_run (w : list Z) : Prop :=
  w <> [] /\ Forall (fun c => is_alnum c = true) w.

(** [[-_]]. *)
Definition is_dash (c : Z) : bool := (c =? 45) || (c =? 95).

(** [([a-z\d]+[-_])*[a-z\d]+]. *)
Inductive segment : list Z -> Prop :=
| segment_run w : alnum_run w -> segment w
| segment_dash w c s : alnum_run w -> is_dash c = true -> segment s -> segment (w ++ c :: s).

(** [(segment\.)*segment]. *)
Inductive account_regex : list Z -> Prop :=
| regex_segment s : segment s -> account_regex s
| regex_dot s t : segment s -> account_regex t -> account_regex (s ++ 46 :: t).

(** The same language as runs of [[a-z\d]+] joined by single
    separators of any of the three kinds. *)
Inductive runs : list Z -> Prop :=
| runs_one w : alnum_run w -> runs w
| runs_sep w c rest : alnum_run w -> is_separator c = true -> runs rest -> runs (w ++ c :: rest).

(** ** The pass decides the regular expression *)

Lemma alnum_not_separator c : is_alnum c = true -> is_separator c = false.
Proof. unfold is_alnum, is_separator. intros H. repeat case_bool_decide; lia. Qed.

Lemma separator_not_alnum c : is_separator c = true -> is_alnum c = false.
Proof.
  intros H. destruct (is_alnum c) eqn:E; [|done].
  by rewrite (alnum_not_separator c E) in H.
Qed.

Lemma dash_separator c : is_dash c = true -> is_separator c = true.
Proof. unfold is_dash, is_separator. intros ->. done. Qed.

(** After a letter or digit, a run of letters and digits changes nothing. *)
Lemma scan_alnum_app w r :
  Forall (fun c => is_alnum c = true) w -> scan false (w ++ r) = scan false r.
Proof. induction 1 as [|c w Hc _ IH]; [done|]. simpl. by rewrite Hc. Qed.

Lemma scan_run_app w r : alnum_run w -> forall b, scan b (w ++ r) = scan false r.
Proof.
  intros [Hne Hall] b. destruct w as [|c w]; [done|]. inversion Hall; subst.
  simpl. rewrite H1. by apply scan_alnum_app.
Qed.

Lemma runs_scan bs : runs bs -> scan true bs = true.
Proof.
  induction 1 as [w Hw|w c rest Hw Hc _ IH].
  - rewrite <- (app_nil_r w), scan_run_app by done. done.
  - rewrite scan_run_app by done. simpl.
    by rewrite (separator_not_alnum c Hc), Hc.
Qed.

Lemma alnum_run_snoc w c : alnum_run w -> is_alnum c = true -> alnum_run (w ++ [c]).
Proof.
  intros [_ Hall] Hc. split; [by destruct w|].
  apply Forall_app; auto.
Qed.

Lemma scan_runs bs :
  (scan true bs = true -> runs bs) /\
  (scan false bs = true -> forall w, alnum_run w -> runs (w ++ bs)).
Proof.
  induction bs as [|c r [IH1 IH2]]; simpl.
  - split; [done|]. intros _ w Hw. rewrite app_nil_r. by apply runs_one.
  - destruct (is_alnum c) eqn:Ha; [|destruct (is_separator c) eqn:Hs].
    + split.
      * intros H. apply (IH2 H [c]). split; [done|]. by constructor.
      * intros H w Hw. replace (w ++ c :: r) with ((w ++ [c]) ++ r)
          by by rewrite <- app_assoc.
        by apply IH2, alnum_run_snoc.
    + split; [done|]. intros H w Hw. apply runs_sep; auto.
    + done.
Qed.

Lemma segment_runs s : segment s -> runs s.
Proof.
  induction 1; [by apply runs_one|]. apply runs_sep; auto. by apply dash_separator.
Qed.

Lemma segment_dot_runs s t : segment s -> runs t -> runs (s ++ 46 :: t).
Proof.
  induction 1 as [w Hw|w c s Hw Hc _ IH]; intros Ht.
  - by apply runs_sep.
  - rewrite <- app_assoc. simpl. apply runs_sep; auto. by apply dash_separator.
Qed.

Lemma regex_runs bs : account_regex bs -> runs bs.
Proof.
  induction 1; [by apply segment_runs|]. by apply segment_dot_runs.
Qed.

(** A dash-joined run in front of a valid name keeps it valid. *)
Lemma regex_dash w c t :
  alnum_run w -> is_dash c = true -> account_regex t -> account_regex (w ++ c :: t).
Proof.
  intros Hw Hc Ht. destruct Ht as [s Hs|s t Hs Ht].
  - apply regex_segment. by apply segment_dash.
  - replace (w ++ c :: s ++ 46 :: t) with ((w ++ c :: s) ++ 46 :: t)
      by by rewrite <- app_assoc.
    apply regex_dot; [by apply segment_dash | done].
Qed.

Lemma separator_cases c : is_separator c = true -> is_dash c = true \/ c = 46.
Proof. unfold is_separator, is_dash. intros H. repeat case_bool_decide; auto; lia. Qed.

Lemma runs_regex bs : runs bs -> account_regex bs.
Proof.
  induction 1 as [w Hw|w c rest Hw Hc _ IH].
  - by apply regex_segment, segment_run.
  - destruct (separator_cases c Hc) as [Hd| ->].
    + by apply regex_dash.
    + apply regex_dot; [by apply segment_run | done].
Qed.

Lemma length_bounds_spec (bs : list Z) :
  (MIN_ACCOUNT_ID_LEN <=? Z.of_nat (length bs)) && (Z.of_nat (length bs) <=? MAX_ACCOUNT_ID_LEN)
  = true <-> (2 <= length bs <= 64)%nat.
Proof.
  unfold MIN_ACCOUNT_ID_LEN, MAX_ACCOUNT_ID_LEN.
  rewrite andb_true_iff, !Z.leb_le. lia.
Qed.

(** C25. [is_valid_account_id] decides the regular expression its
    comment states: a byte string passes exactly when it has 2 to 64
    bytes and matches [^(([a-z\d]+[-_])*[a-z\d]+\.)*([a-z\d]+[-_])*[a-z\d]+$]. *)
Theorem is_valid_account_id_regex bs :
  is_valid_account_id bs = true <-> (2 <= length bs <= 64)%nat /\ account_regex bs.
Proof.
  unfold is_valid_account_id. rewrite andb_true_iff, length_bounds_spec.
  split; intros [Hlen H]; split; auto.
  - by apply runs_regex, scan_runs.
  - by apply runs_scan, regex_runs.
Qed.

End Account.
