(* ===== verification/Borsh.v ===== *)
(** * Borsh encoding of the stored values (lines 14-41)

    [#[derive(BorshSerialize, BorshDeserialize)]] on [Token] (line 20),
    [TokenMetadata] (line 27) and [NFTContractMetadata] (line 35) gives
    the bytes the collections write to storage: the fields in
    declaration order, a [String] as its byte length in u32 little
    endian followed by its bytes, an [Option] as the tag byte 0 or 1
    followed by the value.  Decoding checks what borsh checks: enough
    input, a tag of 0 or 1, well-formed UTF-8, and (in [try_from_slice])
    no bytes left over.  Encoding fails only when a length does not fit
    in a u32 ([ErrorKind::InvalidInput]).

    A byte is a [Z] in [0, 2^8); a Rust [String] is a Rocq [string]
    read as its sequence of bytes, which Rust keeps valid UTF-8. *)

From stdpp Require Import base strings list.
From Stdlib Require Import ZArith Lia.
From S2P Require Import Prelude Types Account.

Module Borsh.

Local Open Scope Z_scope.

Inductive BorshError :=
| UnexpectedEof
| InvalidOptionTag (tag : Z)
| InvalidUtf8
| NotAllBytesRead
| LengthOverflow
| InvalidAccountId.

(** ** Integers *)

(** [k] bytes of [n], least significant first. *)
Fixpoint le_bytes (k : nat) (n : Z) : list Z :=
  match k with
  | O => []
  | S k' => Z.land n 255 :: le_bytes k' (Z.shiftr n 8)
  end.

(** The number [bs] encodes, least significant byte first. *)
Fixpoint le_value (bs : list Z) : Z :=
  match bs with
  | [] => 0
  | b :: rest => Z.lor b (Z.shiftl (le_value rest) 8)
  end.

(** [u32::to_le_bytes]. *)
Definition ser_u32 (n : Z) : list Z := le_bytes 4 n.

Arguments ser_u32 : simpl never.

Definition Parser (A : Type) : Type := list Z -> result (A * list Z) BorshError.

(** [u8::deserialize]. *)
Definition de_u8 : Parser Z := fun input =>
  match input with
  | b :: rest => Ok (b, rest)
  | [] => Err UnexpectedEof
  end.

(** [u32::deserialize]: four bytes, little endian. *)
Definition de_u32 : Parser Z := fun input =>
  match input with
  | b0 :: b1 :: b2 :: b3 :: rest => Ok (le_value [b0; b1; b2; b3], rest)
  | _ => Err UnexpectedEof
  end.

(** ** Strings *)

Definition in_range (lo hi b : Z) : bool := (lo <=? b) && (b <=? hi).

(** A continuation byte [10xxxxxx]. *)
Definition cont (b : Z) : bool := in_range 0x80 0xBF b.

(** Well-formed UTF-8 (Unicode table 3-7, as [core::str::from_utf8]
    checks it): no overlong forms, no surrogates, nothing above
    U+10FFFF. *)
Fixpoint utf8_valid (bs : list Z) : bool :=
  match bs with
  | [] => true
  | b0 :: rest =>
    if in_range 0 0x7F b0 then utf8_valid rest else
    match rest with
    | [] => false
    | b1 :: rest1 =>
      if in_range 0xC2 0xDF b0 then cont b1 && utf8_valid rest1 else
      match rest1 with
      | [] => false
      | b2 :: rest2 =>
        if Z.eqb b0 0xE0 then in_range 0xA0 0xBF b1 && cont b2 && utf8_valid rest2
        else if in_range 0xE1 0xEC b0 || in_range 0xEE 0xEF b0
        then cont b1 && cont b2 && utf8_valid rest2
        else if Z.eqb b0 0xED then in_range 0x80 0x9F b1 && cont b2 && utf8_valid rest2
        else
        match rest2 with
        | [] => false
        | b3 :: rest3 =>
          if Z.eqb b0 0xF0 then in_range 0x90 0xBF b1 && cont b2 && cont b3 && utf8_valid rest3
          else if in_range 0xF1 0xF3 b0 then cont b1 && cont b2 && cont b3 && utf8_valid rest3
          else if Z.eqb b0 0xF4 then in_range 0x80 0x8F b1 && cont b2 && cont b3 && utf8_valid rest3
          else false
        end
      end
    end
  end.

(** [String::serialize] (through [str] and [[u8]]): the length as a
    u32, [InvalidInput] when it does not fit, then the bytes. *)
Definition ser_string (s : string) : result (list Z) BorshError :=
  let bs := bytes_of_string s in
  if Z.of_nat (length bs) <? 2 ^ 32
  then Ok (ser_u32 (Z.of_nat (length bs)) ++ bs)
  else Err LengthOverflow.

(** The next [n] bytes of the input. *)
Definition take_bytes (n : nat) : Parser (list Z) := fun input =>
  if (n <=? length input)%nat then Ok (take n input, drop n input) else Err UnexpectedEof.

(** [String::deserialize]: the length, that many bytes, then
    [String::from_utf8]. *)
Definition de_string : Parser string := fun input =>
  let! (len, rest) := de_u32 input in
  let! (bs, rest') := take_bytes (Z.to_nat len) rest in
  if utf8_valid bs then Ok (string_of_bytes bs, rest') else Err InvalidUtf8.

(** ** Options and the stored structs *)

Definition ser_option {A} (ser : A -> result (list Z) BorshError) (o : option A)
  : result (list Z) BorshError :=
  match o with
  | None => Ok [0]
  | Some a => let! bs := ser a in Ok (1 :: bs)
  end.

Definition de_option {A} (de : Parser A) : Parser (option A) := fun input =>
  let! (tag, rest) := de_u8 input in
  if tag =? 0 then Ok (None, rest)
  else if tag =? 1 then let! (a, rest') := de rest in Ok (Some a, rest')
  else Err (InvalidOptionTag tag).

Definition ser_token_metadata (m : TokenMetadata) : result (list Z) BorshError :=
  let! t := ser_option ser_string (title m) in
  let! d := ser_option ser_string (description m) in
  let! md := ser_option ser_string (media m) in
  Ok (t ++ d ++ md).

Definition de_token_metadata : Parser TokenMetadata := fun input =>
  let! (t, r1) := de_option de_string input in
  let! (d, r2) := de_option de_string r1 in
  let! (md, r3) := de_option de_string r2 in
  Ok (mkTokenMetadata t d md, r3).

Definition ser_token (t : Token) : result (list Z) BorshError :=
  let! o := ser_string (owner_id t) in
  let! m := ser_token_metadata (metadata t) in
  Ok (o ++ m).

(** [AccountId::deserialize]: a [String], then [AccountId::validate];
    an invalid name is an [ErrorKind::InvalidData] error. *)
Definition de_account_id : Parser AccountId := fun input =>
  let! (s, rest) := de_string input in
  if Account.valid_account_id s then Ok (s, rest) else Err InvalidAccountId.

Definition de_token : Parser Token := fun input =>
  let! (o, r1) := de_account_id input in
  let! (m, r2) := de_token_metadata r1 in
  Ok (mkToken o m, r2).

Definition ser_nft_contract_metadata (m : NFTContractMetadata) : result (list Z) BorshError :=
  let! sp := ser_string (spec m) in
  let! n := ser_string (name m) in
  let! sy := ser_string (symbol m) in
  Ok (sp ++ n ++ sy).

Definition de_nft_contract_metadata : Parser NFTContractMetadata := fun input =>
  let! (sp, r1) := de_string input in
  let! (n, r2) := de_string r1 in
  let! (sy, r3) := de_string r2 in
  Ok (mkNFTContractMetadata sp n sy, r3).

(** [BorshDeserialize::try_from_slice]: decode, then refuse leftovers. *)
Definition try_from_slice {A} (de : Parser A) (input : list Z) : result A BorshError :=
  let! (a, rest) := de input in
  match rest with [] => Ok a | _ :: _ => Err NotAllBytesRead end.

(** ** The values Rust can hold

    A [String] is valid UTF-8 and, on the wasm32 target the contract is
    compiled for, at most [isize::MAX = 2^31 - 1] bytes long. *)

Definition rust_string (s : string) : bool :=
  utf8_valid (bytes_of_string s) && (Z.of_nat (String.length s) <? 2 ^ 31).

Definition option_all {A} (f : A -> bool) (o : option A) : bool :=
  match o with None => true | Some a => f a end.

Definition rust_token_metadata (m : TokenMetadata) : bool :=
  option_all rust_string (title m) && option_all rust_string (description m) &&
  option_all rust_string (media m).

(** An [AccountId] is a [String] that passed [AccountId::validate]. *)
Definition rust_account_id (s : AccountId) : bool :=
  rust_string s && Account.valid_account_id s.

Definition rust_token (t : Token) : bool :=
  rust_account_id (owner_id t) && rust_token_metadata (metadata t).

Definition rust_nft_contract_metadata (m : NFTContractMetadata) : bool :=
  rust_string (spec m) && rust_string (name m) && rust_string (symbol m).

(** Well-formed UTF-8 consists of bytes. *)
Lemma utf8_valid_bytes bs : utf8_valid bs = true -> Forall (fun b => (0 <= b < 256)%Z) bs.
Proof.
  intros Hv. remember (length bs) as n eqn:En. revert bs En Hv.
  induction n as [n IH] using lt_wf_ind. intros [|b0 rest] -> Hv; [constructor|].
  revert Hv. cbn [utf8_valid]. unfold cont, in_range.
  repeat (case_match; simplify_eq/=); intros Hu; rewrite ?andb_true_iff, ?Z.leb_le, ?Z.eqb_eq in *;
    destruct_and?; subst; repeat constructor; try lia; (eapply IH; [|reflexivity|done]); simpl; lia.
Qed.

(** A string read from well-formed UTF-8 of fewer than [2^31] bytes is
    a Rust [String]. *)
Lemma rust_string_of_bytes bs :
  utf8_valid bs = true -> (Z.of_nat (length bs) < 2 ^ 31)%Z -> rust_string (string_of_bytes bs) = true.
Proof.
  intros Hv Hl. unfold rust_string.
  rewrite bytes_of_string_of_bytes by (by apply utf8_valid_bytes).
  rewrite Hv, length_string_of_bytes. simpl. by apply Z.ltb_lt.
Qed.

(** ** Integers *)

Lemma land_255 n : Z.land n 255 = n mod 256.
Proof. change 255 with (Z.ones 8). rewrite Z.land_ones; [reflexivity | lia]. Qed.

Lemma mod_mul_r a b c : 0 < b -> 0 < c -> a mod (b * c) = a mod b + b * ((a / b) mod c).
Proof. intros. rewrite !Z.mod_eq by lia. rewrite Z.div_div by lia. ring. Qed.

(** A byte and a value shifted past it share no bit: [lor] adds. *)
Lemma lor_byte_shiftl b v : 0 <= b < 256 -> Z.lor b (Z.shiftl v 8) = b + v * 256.
Proof.
  intros Hb.
  assert (Hl : Z.land b (Z.shiftl v 8) = 0).
  2:{ pose proof (Z.add_lor_land b (Z.shiftl v 8)) as H. rewrite Hl in H.
      rewrite Z.shiftl_mul_pow2 in * by lia. change (2 ^ 8) with 256 in *. lia. }
  apply Z.bits_inj'. intros i Hi. rewrite Z.land_spec, Z.bits_0.
  destruct (Z.lt_ge_cases i 8).
  - rewrite Z.shiftl_spec_low by lia. apply Bool.andb_false_r.
  - rewrite <- (Z.mod_small b (2 ^ 8)) by (change (2 ^ 8) with 256; lia).
    rewrite Z.mod_pow2_bits_high by lia. reflexivity.
Qed.

(** Decoding [k] little-endian bytes gives the number modulo [2^(8k)]. *)
Lemma le_value_bytes k n : le_value (le_bytes k n) = n mod 2 ^ (8 * Z.of_nat k).
Proof.
  revert n; induction k as [|k IH]; intros n; cbn [le_bytes le_value].
  - rewrite Z.mul_0_r, Z.pow_0_r, Z.mod_1_r. reflexivity.
  - rewrite IH, land_255, lor_byte_shiftl by (pose proof (Z.mod_pos_bound n 256); lia).
    rewrite Z.shiftr_div_pow2 by lia. change (2 ^ 8) with 256.
    replace (8 * Z.of_nat (S k)) with (8 + 8 * Z.of_nat k) by lia.
    rewrite Z.pow_add_r by lia. change (2 ^ 8) with 256.
    rewrite (mod_mul_r n 256) by (try lia; apply Z.pow_pos_nonneg; lia). ring.
Qed.

Lemma length_le_bytes k n : length (le_bytes k n) = k.
Proof. revert n; induction k; intros; simpl; auto. Qed.

Lemma de_u32_app bs rest :
  length bs = 4%nat -> de_u32 (bs ++ rest) = Ok (le_value bs, rest).
Proof. destruct bs as [|b0 [|b1 [|b2 [|b3 [|]]]]]; simpl; intros; done. Qed.

Lemma de_u32_ser_u32 n rest :
  0 <= n < 2 ^ 32 -> de_u32 (ser_u32 n ++ rest) = Ok (n, rest).
Proof.
  intros Hn. unfold ser_u32. rewrite de_u32_app by apply length_le_bytes.
  rewrite le_value_bytes, Z.mod_small; [done | simpl; lia].
Qed.

(** ** Strings *)

Lemma take_bytes_app bs rest : take_bytes (length bs) (bs ++ rest) = Ok (bs, rest).
Proof.
  unfold take_bytes. rewrite length_app.
  destruct (Nat.leb_spec (length bs) (length bs + length rest)); [|lia].
  by rewrite take_app_length, drop_app_length.
Qed.

(** [ser] followed by anything is decoded by [de] into the value and
    that remainder, for the values satisfying [P]. *)
Definition roundtrips {A} (ser : A -> result (list Z) BorshError) (de : Parser A)
           (P : A -> bool) : Prop :=
  forall a bs rest, P a = true -> ser a = Ok bs -> de (bs ++ rest) = Ok (a, rest).

(** [ser] succeeds on the values satisfying [P]. *)
Definition total {A} (ser : A -> result (list Z) BorshError) (P : A -> bool) : Prop :=
  forall a, P a = true -> exists bs, ser a = Ok bs.

Lemma string_roundtrips : roundtrips ser_string de_string rust_string.
Proof.
  intros s bs rest [Hutf _]%andb_prop. unfold ser_string.
  destruct (Z.ltb_spec (Z.of_nat (length (bytes_of_string s))) (2 ^ 32)); [|done].
  intros <-%Ok_inj. unfold de_string. rewrite <- app_assoc, de_u32_ser_u32 by lia.
  simpl. rewrite Nat2Z.id, take_bytes_app. simpl. rewrite Hutf.
  by rewrite string_of_bytes_of_string.
Qed.

Lemma string_total : total ser_string rust_string.
Proof.
  intros s [_ Hlen]%andb_prop. apply Z.ltb_lt in Hlen. unfold ser_string.
  rewrite length_bytes_of_string.
  destruct (Z.ltb_spec (Z.of_nat (String.length s)) (2 ^ 32)); [by eexists | lia].
Qed.

Lemma account_id_roundtrips : roundtrips ser_string de_account_id rust_account_id.
Proof.
  intros s bs rest [Hs Hv]%andb_prop E. unfold de_account_id.
  rewrite (string_roundtrips s bs rest Hs E). simpl. by rewrite Hv.
Qed.

Lemma account_id_total : total ser_string rust_account_id.
Proof. intros s [Hs _]%andb_prop. by apply string_total. Qed.

Lemma option_roundtrips {A} (ser : A -> result (list Z) BorshError) de P :
  roundtrips ser de P -> roundtrips (ser_option ser) (de_option de) (option_all P).
Proof.
  intros Hrt [a|] bs rest HP; simpl.
  - destruct (ser a) as [bs'|] eqn:E; [|done]. intros <-%Ok_inj.
    unfold de_option. simpl. by rewrite (Hrt a bs' rest HP E).
  - by intros <-%Ok_inj.
Qed.

Lemma option_total {A} (ser : A -> result (list Z) BorshError) P :
  total ser P -> total (ser_option ser) (option_all P).
Proof.
  intros Htot [a|] HP; simpl; [|by eexists].
  destruct (Htot a HP) as [bs ->]. by eexists.
Qed.

(** Decode the next field with its round-trip lemma. *)
Ltac borsh_field Hrt :=
  match goal with
  | |- context [ result_bind (_ (?bs ++ ?rest)) _ ] =>
      match goal with
      | E : _ ?a = Ok bs |- _ => rewrite (Hrt a bs rest ltac:(assumption) E); simpl
      end
  end.

Lemma token_metadata_roundtrips :
  roundtrips ser_token_metadata de_token_metadata rust_token_metadata.
Proof.
  pose proof (option_roundtrips _ _ _ string_roundtrips) as Hopt.
  intros [t d md] bs rest HP. simpl in HP. apply andb_prop in HP as [[Ht Hd]%andb_prop Hm].
  unfold ser_token_metadata. simpl.
  destruct (ser_option ser_string t) as [bt|] eqn:Et; [simpl|done].
  destruct (ser_option ser_string d) as [bd|] eqn:Ed; [simpl|done].
  destruct (ser_option ser_string md) as [bm|] eqn:Em; [simpl|done].
  intros <-%Ok_inj. unfold de_token_metadata. rewrite <- !app_assoc.
  do 3 borsh_field Hopt. done.
Qed.

Lemma token_metadata_total : total ser_token_metadata rust_token_metadata.
Proof.
  pose proof (option_total _ _ string_total) as Htot.
  intros [t d md] HP. simpl in HP. apply andb_prop in HP as [[Ht Hd]%andb_prop Hm].
  destruct (Htot t Ht) as [bt Et], (Htot d Hd) as [bd Ed], (Htot md Hm) as [bm Em].
  unfold ser_token_metadata. simpl. rewrite Et, Ed, Em. by eexists.
Qed.

Lemma token_roundtrips : roundtrips ser_token de_token rust_token.
Proof.
  intros [o m] bs rest HP. simpl in HP. apply andb_prop in HP as [Ho Hm].
  unfold ser_token. simpl.
  destruct (ser_string o) as [bo|] eqn:Eo; [simpl|done].
  destruct (ser_token_metadata m) as [bm|] eqn:Em; [simpl|done].
  intros <-%Ok_inj. unfold de_token. rewrite <- !app_assoc.
  borsh_field account_id_roundtrips. borsh_field token_metadata_roundtrips. done.
Qed.

Lemma token_total : total ser_token rust_token.
Proof.
  intros [o m] HP. simpl in HP. apply andb_prop in HP as [Ho Hm].
  destruct (account_id_total o Ho) as [bo Eo], (token_metadata_total m Hm) as [bm Em].
  unfold ser_token. simpl. rewrite Eo, Em. by eexists.
Qed.

Lemma nft_contract_metadata_roundtrips :
  roundtrips ser_nft_contract_metadata de_nft_contract_metadata rust_nft_contract_metadata.
Proof.
  intros [sp n sy] bs rest HP. simpl in HP. apply andb_prop in HP as [[Hsp Hn]%andb_prop Hsy].
  unfold ser_nft_contract_metadata. simpl.
  destruct (ser_string sp) as [b1|] eqn:E1; [simpl|done].
  destruct (ser_string n) as [b2|] eqn:E2; [simpl|done].
  destruct (ser_string sy) as [b3|] eqn:E3; [simpl|done].
  intros <-%Ok_inj. unfold de_nft_contract_metadata. rewrite <- !app_assoc.
  do 3 borsh_field string_roundtrips. done.
Qed.

Lemma nft_contract_metadata_total : total ser_nft_contract_metadata rust_nft_contract_metadata.
Proof.
  intros [sp n sy] HP. simpl in HP. apply andb_prop in HP as [[Hsp Hn]%andb_prop Hsy].
  destruct (string_total sp Hsp) as [b1 E1], (string_total n Hn) as [b2 E2],
    (string_total sy Hsy) as [b3 E3].
  unfold ser_nft_contract_metadata. simpl. rewrite E1, E2, E3. by eexists.
Qed.

(** [try_from_slice] after a successful encoding gives the value back. *)
Lemma try_from_slice_roundtrips {A} ser (de : Parser A) P a :
  roundtrips ser de P -> total ser P -> P a = true ->
  exists bs, ser a = Ok bs /\ try_from_slice de bs = Ok a.
Proof.
  intros Hrt Htot HP. destruct (Htot a HP) as [bs E]. exists bs. split; [done|].
  unfold try_from_slice. rewrite <- (app_nil_r bs), (Hrt a bs [] HP E). done.
Qed.

(** C17. A [Token] Rust can hold (valid UTF-8 strings of at most
    [isize::MAX] bytes on wasm32) always serializes, and
    [try_from_slice] of its bytes gives the same token back. *)
Theorem token_borsh_roundtrip t :
  rust_token t = true ->
  exists bs, ser_token t = Ok bs /\ try_from_slice de_token bs = Ok t.
Proof. apply try_from_slice_roundtrips; [apply token_roundtrips | apply token_total]. Qed.

(** The same for the collection metadata written by [new] and read
    by [nft_metadata]. *)
Theorem nft_contract_metadata_borsh_roundtrip m :
  rust_nft_contract_metadata m = true ->
  exists bs, ser_nft_contract_metadata m = Ok bs /\
             try_from_slice de_nft_contract_metadata bs = Ok m.
Proof.
  apply try_from_slice_roundtrips;
    [apply nft_contract_metadata_roundtrips | apply nft_contract_metadata_total].
Qed.

(** Distinct tokens are stored as distinct bytes. *)
Theorem ser_token_injective t1 t2 bs :
  rust_token t1 = true -> rust_token t2 = true ->
  ser_token t1 = Ok bs -> ser_token t2 = Ok bs -> t1 = t2.
Proof.
  intros H1 H2 E1 E2.
  pose proof (token_roundtrips t1 bs [] H1 E1) as D1.
  pose proof (token_roundtrips t2 bs [] H2 E2) as D2.
  rewrite D1 in D2. congruence.
Qed.

(** An [Option] tag other than 0 and 1 is refused. *)
Theorem de_option_invalid_tag {A} (de : Parser A) tag rest :
  tag <> 0 -> tag <> 1 -> de_option de (tag :: rest) = Err (InvalidOptionTag tag).
Proof.
  intros H0 H1. unfold de_option. simpl.
  rewrite (proj2 (Z.eqb_neq tag 0) H0), (proj2 (Z.eqb_neq tag 1) H1). done.
Qed.

(** [try_from_slice] refuses a stored token followed by extra bytes. *)
Theorem try_from_slice_rejects_trailing t bs b extra :
  rust_token t = true -> ser_token t = Ok bs ->
  try_from_slice de_token (bs ++ b :: extra) = Err NotAllBytesRead.
Proof.
  intros Ht E. unfold try_from_slice. by rewrite (token_roundtrips t bs (b :: extra) Ht E).
Qed.

(** C26. A stored token whose owner is not a valid account name is
    unreadable: decoding stops at the owner with [InvalidAccountId],
    whatever follows it. *)
Theorem de_token_rejects_invalid_owner o bs rest :
  rust_string o = true -> Account.valid_account_id o = false -> ser_string o = Ok bs ->
  de_token (bs ++ rest) = Err InvalidAccountId.
Proof.
  intros Hs Hv E. unfold de_token, de_account_id.
  rewrite (string_roundtrips o bs rest Hs E). simpl. by rewrite Hv.
Qed.

(** ** Witnesses *)

Definition demo_token : Token :=
  mkToken "gelezako.testnet" (mkTokenMetadata (Some "A"%string) None None).

Definition demo_token_bytes : list Z :=
  [16; 0; 0; 0; 103; 101; 108; 101; 122; 97; 107; 111; 46; 116; 101; 115; 116; 110;
   101; 116; 1; 1; 0; 0; 0; 65; 0; 0].

Lemma token_borsh_roundtrip_witness :
  exists bs, ser_token demo_token = Ok bs /\ try_from_slice de_token bs = Ok demo_token.
Proof. apply (token_borsh_roundtrip demo_token). vm_compute. reflexivity. Defined.

Lemma nft_contract_metadata_borsh_roundtrip_witness :
  exists bs, ser_nft_contract_metadata (mkNFTContractMetadata "nft-1.0.0" "Demo" "DEMO") = Ok bs /\
    try_from_slice de_nft_contract_metadata bs = Ok (mkNFTContractMetadata "nft-1.0.0" "Demo" "DEMO").
Proof. apply nft_contract_metadata_borsh_roundtrip. vm_compute. reflexivity. Defined.

Lemma ser_token_injective_witness : demo_token = demo_token.
Proof.
  apply (ser_token_injective demo_token demo_token demo_token_bytes);
    vm_compute; reflexivity.
Defined.

Lemma de_option_invalid_tag_witness :
  de_option de_string (2 :: []) = Err (InvalidOptionTag 2).
Proof. apply de_option_invalid_tag; lia. Defined.

Lemma try_from_slice_rejects_trailing_witness :
  try_from_slice de_token (demo_token_bytes ++ [0] ++ []) = Err NotAllBytesRead.
Proof.
  apply (try_from_slice_rejects_trailing demo_token demo_token_bytes 0 []);
    vm_compute; reflexivity.
Defined.

Lemma de_token_rejects_invalid_owner_witness :
  de_token ((ser_u32 5 ++ bytes_of_string "Alice") ++ [0; 0; 0]) = Err InvalidAccountId.
Proof.
  apply (de_token_rejects_invalid_owner "Alice"); vm_compute; reflexivity.
Defined.

End Borsh.
