(* ===== verification/JsonText.v ===== *)
(** * serde_json as the contract uses it (lines 20-41 and 43)

    The byte-level reader and writer of serde_json that the derived
    [Serialize]/[Deserialize] of [Token], [TokenMetadata],
    [NFTContractMetadata] and of the argument structs of
    [#[near_bindgen]] call (those derived parts are in [Json]):

    - writing ([serde_json::to_vec], the compact formatter): a string is
      quoted with the escapes of serde_json's [ESCAPE] table (a
      backslash before the quote and the backslash; [\b], [\t], [\n],
      [\f], [\r]; and [\u00xx] in lowercase hex for the other control
      bytes); [None] is [null]; a struct is an object of key, colon and
      value separated by commas, a sequence an array;
    - reading (a [Deserializer<SliceRead>]): [parse_whitespace];
      [parse_str], which decodes escapes, joins surrogate pairs,
      refuses control bytes and checks UTF-8 ([validate = true]);
      [ignore_value], which checks the syntax of a value it skips and
      nothing else (strings are not decoded); the steps of [MapAccess]
      and [SeqAccess] that the derived visitors call; and
      [from_slice], which refuses anything but whitespace after the
      value.

    The loops that do not consume the input structurally take a fuel
    argument.  [from_slice] gives [fuel_for] the input: two units per
    byte and two more, because a nested array or object costs one unit
    for the value and one for its element loop.  The lemmas of the last
    section show that this is always enough: no parser returns
    [OutOfFuel] within that fuel, and each consumes input on success. *)

From stdpp Require Import base strings list.
From Stdlib Require Import ZArith Lia.
From S2P Require Import Prelude Types Borsh.

Module JsonText.

Local Open Scope Z_scope.

(** serde_json's [ErrorCode]s the reader can raise, the [serde::de::Error]s
    of the derived visitors, and [OutOfFuel] for the model's fuel. *)
Inductive JsonError :=
| EofWhileParsingList
| EofWhileParsingObject
| EofWhileParsingString
| EofWhileParsingValue
| ExpectedColon
| ExpectedListCommaOrEnd
| ExpectedObjectCommaOrEnd
| ExpectedSomeIdent
| ExpectedSomeValue
| InvalidEscape
| InvalidNumber
| InvalidUnicodeCodePoint
| ControlCharacterWhileParsingString
| KeyMustBeAString
| LoneLeadingSurrogateInHexEscape
| TrailingComma
| TrailingCharacters
| UnexpectedEndOfHexEscape
| InvalidType
| InvalidLength (len : nat)
| MissingField (field : string)
| DuplicateField (field : string)
| InvalidAccountId
| OutOfFuel.

Definition Parser (A : Type) : Type := list Z -> result (A * list Z) JsonError.

(** ** Writing *)

(** [HEX_DIGITS = b"0123456789abcdef"]. *)
Definition hex_digit (d : Z) : Z := if d <? 10 then 48 + d else 87 + d.

(** One byte of a string as [format_escaped_str_contents] writes it. *)
Definition escape_byte (b : Z) : list Z :=
  if b =? 34 then [92; 34]                      (* the quote *)
  else if b =? 92 then [92; 92]                 (* the backslash *)
  else if b =? 8 then [92; 98]                  (* \b *)
  else if b =? 9 then [92; 116]                 (* \t *)
  else if b =? 10 then [92; 110]                (* \n *)
  else if b =? 12 then [92; 102]                (* \f *)
  else if b =? 13 then [92; 114]                (* \r *)
  else if b <? 32 then [92; 117; 48; 48; hex_digit (Z.shiftr b 4); hex_digit (Z.land b 15)]
  else [b].

(** [format_escaped_str]: a string in quotes. *)
Definition ser_str (s : string) : list Z :=
  34 :: flat_map escape_byte (bytes_of_string s) ++ [34].

(** [null], and [Option<T>]: [null] or the value. *)
Definition ser_null : list Z := [110; 117; 108; 108].

Definition ser_option {A} (ser : A -> list Z) (o : option A) : list Z :=
  match o with None => ser_null | Some a => ser a end.

(** [serialize_struct] with the compact formatter: [{], the fields as
    key, colon and value separated by commas, then [}]. *)
Fixpoint ser_fields (first : bool) (fields : list (string * list Z)) : list Z :=
  match fields with
  | [] => []
  | (k, v) :: rest =>
      (if first then [] else [44]) ++ ser_str k ++ 58 :: v ++ ser_fields false rest
  end.

Definition ser_struct (fields : list (string * list Z)) : list Z :=
  123 :: ser_fields true fields ++ [125].

(** A sequence: [\[], the elements separated by commas, [\]]. *)
Fixpoint ser_elems (first : bool) (items : list (list Z)) : list Z :=
  match items with
  | [] => []
  | v :: rest => (if first then [] else [44]) ++ v ++ ser_elems false rest
  end.

Definition ser_seq (items : list (list Z)) : list Z := 91 :: ser_elems true items ++ [93].

(** ** Reading: lexical level *)

Definition is_ws (b : Z) : bool := (b =? 32) || (b =? 10) || (b =? 9) || (b =? 13).

Definition is_digit (b : Z) : bool := (48 <=? b) && (b <=? 57).

(** [parse_whitespace]: skip spaces, newlines, tabs and carriage returns. *)
Fixpoint parse_whitespace (input : list Z) : list Z :=
  match input with
  | b :: rest => if is_ws b then parse_whitespace rest else input
  | [] => []
  end.

(** [parse_ident]: the rest of [null], [true] or [false]. *)
Fixpoint parse_ident (expected input : list Z) : result (list Z) JsonError :=
  match expected with
  | [] => Ok input
  | e :: es =>
      match input with
      | [] => Err EofWhileParsingValue
      | b :: rest => if b =? e then parse_ident es rest else Err ExpectedSomeIdent
      end
  end.

(** [decode_hex_val]. *)
Definition decode_hex_val (b : Z) : option Z :=
  if is_digit b then Some (b - 48)
  else if (97 <=? b) && (b <=? 102) then Some (b - 87)
  else if (65 <=? b) && (b <=? 70) then Some (b - 55)
  else None.

(** [SliceRead::decode_hex_escape]: four hex digits; end of input is
    checked first. *)
Definition decode_hex_escape : Parser Z := fun input =>
  match input with
  | a :: b :: c :: d :: rest =>
      match decode_hex_val a, decode_hex_val b, decode_hex_val c, decode_hex_val d with
      | Some va, Some vb, Some vc, Some vd =>
          Ok (Z.shiftl (Z.shiftl (Z.shiftl va 4 + vb) 4 + vc) 4 + vd, rest)
      | _, _, _, _ => Err InvalidEscape
      end
  | _ => Err EofWhileParsingString
  end.

(** [char::encode_utf8] of a code point. *)
Definition encode_utf8 (n : Z) : list Z :=
  let cont k := Z.lor (Z.land (Z.shiftr n k) 0x3F) 0x80 in
  if n <? 0x80 then [n]
  else if n <? 0x800 then [Z.lor (Z.land (Z.shiftr n 6) 0x1F) 0xC0; cont 0]
  else if n <? 0x10000 then [Z.lor (Z.land (Z.shiftr n 12) 0x0F) 0xE0; cont 6; cont 0]
  else [Z.lor (Z.land (Z.shiftr n 18) 0x07) 0xF0; cont 12; cont 6; cont 0].

Definition in_surrogates (lo hi n : Z) : bool := (lo <=? n) && (n <=? hi).

(** [parse_escape] with [validate = true], after the backslash: the bytes
    the escape stands for.  A [\u] escape of a leading surrogate must be
    followed by one of a trailing surrogate; a trailing one alone is
    refused. *)
Definition parse_escape : Parser (list Z) := fun input =>
  match input with
  | [] => Err EofWhileParsingString
  | ch :: rest =>
      if ch =? 34 then Ok ([34], rest)
      else if ch =? 92 then Ok ([92], rest)
      else if ch =? 47 then Ok ([47], rest)
      else if ch =? 98 then Ok ([8], rest)
      else if ch =? 102 then Ok ([12], rest)
      else if ch =? 110 then Ok ([10], rest)
      else if ch =? 114 then Ok ([13], rest)
      else if ch =? 116 then Ok ([9], rest)
      else if ch =? 117 then
        let! (n1, r1) := decode_hex_escape rest in
        if in_surrogates 0xDC00 0xDFFF n1 then Err LoneLeadingSurrogateInHexEscape
        else if negb (in_surrogates 0xD800 0xDBFF n1) then Ok (encode_utf8 n1, r1)
        else
          match r1 with
          | [] => Err EofWhileParsingString
          | b1 :: r2 =>
              if negb (b1 =? 92) then Err UnexpectedEndOfHexEscape else
              match r2 with
              | [] => Err EofWhileParsingString
              | b2 :: r3 =>
                  if negb (b2 =? 117) then Err UnexpectedEndOfHexEscape else
                  let! (n2, r4) := decode_hex_escape r3 in
                  if negb (in_surrogates 0xDC00 0xDFFF n2)
                  then Err LoneLeadingSurrogateInHexEscape
                  else Ok (encode_utf8 (Z.lor (Z.shiftl (n1 - 0xD800) 10) (n2 - 0xDC00) + 0x10000), r4)
              end
          end
      else Err InvalidEscape
  end.

(** The loop of [parse_str_bytes] after the opening quote: bytes up to
    the closing quote, escapes decoded, control bytes refused. *)
Fixpoint parse_str_loop (fuel : nat) (acc input : list Z) : result (list Z * list Z) JsonError :=
  match fuel with
  | O => Err OutOfFuel
  | S fuel' =>
      match input with
      | [] => Err EofWhileParsingString
      | b :: rest =>
          if b =? 34 then Ok (acc, rest)
          else if b =? 92 then
            let! (esc, r) := parse_escape rest in parse_str_loop fuel' (acc ++ esc) r
          else if b <? 32 then Err ControlCharacterWhileParsingString
          else parse_str_loop fuel' (acc ++ [b]) rest
      end
  end.

(** [SliceRead::parse_str]: the loop, then [str::from_utf8] on the result. *)
Definition parse_str (fuel : nat) : Parser (list Z) := fun input =>
  let! (bs, rest) := parse_str_loop fuel [] input in
  if Borsh.utf8_valid bs then Ok (bs, rest) else Err InvalidUnicodeCodePoint.

(** [ignore_escape]: the escape is checked for form only. *)
Definition ignore_escape (input : list Z) : result (list Z) JsonError :=
  match input with
  | [] => Err EofWhileParsingString
  | ch :: rest =>
      if (ch =? 34) || (ch =? 92) || (ch =? 47) || (ch =? 98) || (ch =? 102) ||
         (ch =? 110) || (ch =? 114) || (ch =? 116) then Ok rest
      else if ch =? 117 then let! (_, r) := decode_hex_escape rest in Ok r
      else Err InvalidEscape
  end.

(** [SliceRead::ignore_str]: skip a string without decoding it. *)
Fixpoint ignore_str (fuel : nat) (input : list Z) : result (list Z) JsonError :=
  match fuel with
  | O => Err OutOfFuel
  | S fuel' =>
      match input with
      | [] => Err EofWhileParsingString
      | b :: rest =>
          if b =? 34 then Ok rest
          else if b =? 92 then let! r := ignore_escape rest in ignore_str fuel' r
          else if b <? 32 then Err ControlCharacterWhileParsingString
          else ignore_str fuel' rest
      end
  end.

Fixpoint skip_digits (input : list Z) : list Z :=
  match input with
  | b :: rest => if is_digit b then skip_digits rest else input
  | [] => []
  end.

(** [ignore_exponent], after the [e] or [E]. *)
Definition ignore_exponent (input : list Z) : result (list Z) JsonError :=
  let r := match input with
           | b :: rest => if (b =? 43) || (b =? 45) then rest else input
           | [] => []
           end in
  match r with
  | b :: rest => if is_digit b then Ok (skip_digits rest) else Err InvalidNumber
  | [] => Err InvalidNumber
  end.

(** [ignore_decimal], after the [.]. *)
Definition ignore_decimal (input : list Z) : result (list Z) JsonError :=
  match input with
  | b :: rest =>
      if is_digit b then
        match skip_digits rest with
        | e :: r => if (e =? 101) || (e =? 69) then ignore_exponent r else Ok (e :: r)
        | [] => Ok []
        end
      else Err InvalidNumber
  | [] => Err InvalidNumber
  end.

(** [ignore_integer]: one [0] or a digit run not starting with [0],
    then a fraction or an exponent. *)
Definition ignore_integer (input : list Z) : result (list Z) JsonError :=
  match input with
  | [] => Err InvalidNumber
  | b :: rest =>
      let! r1 :=
        if b =? 48 then
          match rest with
          | c :: _ => if is_digit c then Err InvalidNumber else Ok rest
          | [] => Ok rest
          end
        else if (49 <=? b) && (b <=? 57) then Ok (skip_digits rest)
        else Err InvalidNumber in
      match r1 with
      | c :: r2 =>
          if c =? 46 then ignore_decimal r2
          else if (c =? 101) || (c =? 69) then ignore_exponent r2
          else Ok r1
      | [] => Ok []
      end
  end.

(** [Deserializer::ignore_value]: skip one JSON value checking its
    syntax only.  serde_json walks nested arrays and objects with an
    explicit stack of open brackets; the three functions below accept
    the same input by recursion: a value, the rest of an array after
    its [\[] ([first]: no element yet), the rest of an object after
    its [{]. *)
Fixpoint ignore_value (fuel : nat) (input : list Z) : result (list Z) JsonError :=
  match fuel with
  | O => Err OutOfFuel
  | S fuel' =>
      match parse_whitespace input with
      | [] => Err EofWhileParsingValue
      | b :: rest =>
          if b =? 110 then parse_ident [117; 108; 108] rest
          else if b =? 116 then parse_ident [114; 117; 101] rest
          else if b =? 102 then parse_ident [97; 108; 115; 101] rest
          else if b =? 45 then ignore_integer rest
          else if is_digit b then ignore_integer (b :: rest)
          else if b =? 34 then ignore_str fuel' rest
          else if b =? 91 then ignore_seq fuel' true rest
          else if b =? 123 then ignore_map fuel' true rest
          else Err ExpectedSomeValue
      end
  end
with ignore_seq (fuel : nat) (first : bool) (input : list Z) : result (list Z) JsonError :=
  match fuel with
  | O => Err OutOfFuel
  | S fuel' =>
      match parse_whitespace input with
      | [] => Err EofWhileParsingList
      | b :: rest =>
          if b =? 93 then Ok rest
          else if first then
            let! r := ignore_value fuel' (b :: rest) in ignore_seq fuel' false r
          else if b =? 44 then
            let! r := ignore_value fuel' rest in ignore_seq fuel' false r
          else Err ExpectedListCommaOrEnd
      end
  end
with ignore_map (fuel : nat) (first : bool) (input : list Z) : result (list Z) JsonError :=
  match fuel with
  | O => Err OutOfFuel
  | S fuel' =>
      let entry (r0 : list Z) : result (list Z) JsonError :=
        match parse_whitespace r0 with
        | [] => Err EofWhileParsingObject
        | q :: r1 =>
            if negb (q =? 34) then Err KeyMustBeAString else
            let! r2 := ignore_str fuel' r1 in
            match parse_whitespace r2 with
            | [] => Err EofWhileParsingObject
            | c :: r3 =>
                if negb (c =? 58) then Err ExpectedColon else
                let! r4 := ignore_value fuel' r3 in ignore_map fuel' false r4
            end
        end in
      match parse_whitespace input with
      | [] => Err EofWhileParsingObject
      | b :: rest =>
          if b =? 125 then Ok rest
          else if first then entry (b :: rest)
          else if b =? 44 then entry rest
          else Err ExpectedObjectCommaOrEnd
      end
  end.

(** ** Reading: strings and options, [MapAccess] and [SeqAccess] *)

(** [deserialize_str]/[deserialize_string]: a string, read strictly. *)
Definition deserialize_string (fuel : nat) : Parser string := fun input =>
  match parse_whitespace input with
  | [] => Err EofWhileParsingValue
  | b :: rest =>
      if b =? 34 then let! (bs, r) := parse_str fuel rest in Ok (string_of_bytes bs, r)
      else Err InvalidType
  end.

(** [deserialize_option]: [null], or the value. *)
Definition deserialize_option {A} (de : nat -> Parser A) (fuel : nat) : Parser (option A) :=
  fun input =>
  match parse_whitespace input with
  | b :: rest =>
      if b =? 110 then let! r := parse_ident [117; 108; 108] rest in Ok (None, r)
      else let! (a, r) := de fuel input in Ok (Some a, r)
  | [] => let! (a, r) := de fuel input in Ok (Some a, r)
  end.

(** [MapAccess::next_key_seed] with the derived field visitor: [None] at
    the closing brace (left for [end_map]), else the key's bytes. *)
Definition next_key (fuel : nat) (first : bool) : Parser (option (list Z)) := fun input =>
  match parse_whitespace input with
  | [] => Err EofWhileParsingObject
  | b :: rest =>
      if b =? 125 then Ok (None, b :: rest)
      else
        let! peek :=
          if (b =? 44) && negb first then Ok (parse_whitespace rest)
          else if first then Ok (b :: rest)
          else Err ExpectedObjectCommaOrEnd in
        match peek with
        | [] => Err EofWhileParsingValue
        | q :: r =>
            if q =? 34 then let! (k, r') := parse_str fuel r in Ok (Some k, r')
            else if q =? 125 then Err TrailingComma
            else Err KeyMustBeAString
        end
  end.

(** [parse_object_colon]. *)
Definition parse_object_colon (input : list Z) : result (list Z) JsonError :=
  match parse_whitespace input with
  | [] => Err EofWhileParsingObject
  | b :: rest => if b =? 58 then Ok rest else Err ExpectedColon
  end.

(** [SeqAccess::next_element_seed] up to the element: [None] at the
    closing bracket, else the input where the element starts. *)
Definition next_element (first : bool) (input : list Z) : result (option (list Z)) JsonError :=
  match parse_whitespace input with
  | [] => Err EofWhileParsingList
  | b :: rest =>
      if b =? 93 then Ok None
      else
        let! peek :=
          if (b =? 44) && negb first then Ok (parse_whitespace rest)
          else if first then Ok (b :: rest)
          else Err ExpectedListCommaOrEnd in
        match peek with
        | [] => Err EofWhileParsingValue
        | q :: r => if q =? 93 then Err TrailingComma else Ok (Some (q :: r))
        end
  end.

(** [end_map] and [end_seq]: the closing bracket. *)
Definition end_map (input : list Z) : result (list Z) JsonError :=
  match parse_whitespace input with
  | [] => Err EofWhileParsingObject
  | b :: rest =>
      if b =? 125 then Ok rest
      else if b =? 44 then Err TrailingComma
      else Err TrailingCharacters
  end.

Definition end_seq (input : list Z) : result (list Z) JsonError :=
  match parse_whitespace input with
  | [] => Err EofWhileParsingList
  | b :: rest =>
      if b =? 93 then Ok rest
      else if b =? 44 then
        match parse_whitespace rest with
        | c :: _ => if c =? 93 then Err TrailingComma else Err TrailingCharacters
        | [] => Err TrailingCharacters
        end
      else Err TrailingCharacters
  end.

(** The fuel [from_slice] gives: a nested array or object may take two
    units per byte (one for the value, one for its element loop). *)
Definition fuel_for (input : list Z) : nat := S (S (2 * length input)).

(** [serde_json::from_slice]: the value, then only whitespace. *)
Definition from_slice {A} (de : nat -> Parser A) (input : list Z) : result A JsonError :=
  let! (a, rest) := de (fuel_for input) input in
  match parse_whitespace rest with
  | [] => Ok a
  | _ :: _ => Err TrailingCharacters
  end.

(** What a parser returned on [input]: not [OutOfFuel], and on success
    a rest related by [R] (shorter, or not longer) to the input. *)
Definition progresses {A} (R : nat -> nat -> Prop) (input : list Z)
  (r : result (A * list Z) JsonError) : Prop :=
  match r with
  | Ok (_, rest) => R (length rest) (length input)
  | Err e => e <> OutOfFuel
  end.

(** The same for the scanners that return only the rest. *)
Definition skips (input : list Z) (r : result (list Z) JsonError) : Prop :=
  match r with
  | Ok rest => (length rest < length input)%nat
  | Err e => e <> OutOfFuel
  end.

(** ** Writing, then reading, gives the value back *)

(** A string Rust can hold: valid UTF-8. *)
Definition json_string (s : string) : bool := Borsh.utf8_valid (bytes_of_string s).

Definition is_byte (b : Z) : Prop := 0 <= b < 256.

Lemma bytes_of_string_bytes s : Forall is_byte (bytes_of_string s).
Proof.
  induction s as [|a s IH]; constructor; [|done].
  pose proof (Ascii.nat_ascii_bounded a). unfold is_byte. lia.
Qed.

(** One escaped byte is read back as that byte. *)
Lemma parse_str_loop_escape_byte b fuel acc r :
  is_byte b -> parse_str_loop (S fuel) acc (escape_byte b ++ r) = parse_str_loop fuel (acc ++ [b]) r.
Proof.
  intros Hb. destruct (Z.ltb_spec b 32) as [Hlt|Hge].
  - assert (exists n, b = Z.of_nat n /\ (n < 32)%nat) as (n & -> & Hn)
      by (exists (Z.to_nat b); unfold is_byte in Hb; lia).
    do 32 (destruct n as [|n]; [reflexivity|]). lia.
  - unfold escape_byte.
    destruct (Z.eqb_spec b 34) as [->|H34]; [reflexivity|].
    destruct (Z.eqb_spec b 92) as [->|H92]; [reflexivity|].
    rewrite !(proj2 (Z.eqb_neq _ _)) by lia. rewrite (proj2 (Z.ltb_ge _ _)) by lia.
    simpl. rewrite (proj2 (Z.eqb_neq _ _) H34), (proj2 (Z.eqb_neq _ _) H92).
    by rewrite (proj2 (Z.ltb_ge _ _) Hge).
Qed.

Lemma parse_str_loop_escaped bs fuel acc r :
  Forall is_byte bs -> (length bs < fuel)%nat ->
  parse_str_loop fuel acc (flat_map escape_byte bs ++ 34 :: r) = Ok (acc ++ bs, r).
Proof.
  intros Hbs; revert fuel acc.
  induction Hbs as [|b bs Hb Hbs IH]; intros fuel acc Hf;
    (destruct fuel as [|fuel]; [simpl in Hf; lia|]).
  - simpl. by rewrite app_nil_r.
  - simpl flat_map. rewrite <- app_assoc, parse_str_loop_escape_byte by done.
    rewrite IH by (simpl in Hf; lia). by rewrite <- app_assoc.
Qed.

Lemma length_escaped bs : (length bs <= length (flat_map escape_byte bs))%nat.
Proof.
  induction bs as [|b bs IH]; simpl; [lia|]. rewrite length_app.
  assert (1 <= length (escape_byte b))%nat; [|lia].
  unfold escape_byte. repeat case_match; simpl; lia.
Qed.

Lemma parse_str_printed s fuel r :
  json_string s = true -> (length (bytes_of_string s) < fuel)%nat ->
  parse_str fuel (flat_map escape_byte (bytes_of_string s) ++ 34 :: r) = Ok (bytes_of_string s, r).
Proof.
  intros Hs Hf. unfold parse_str.
  rewrite parse_str_loop_escaped by auto using bytes_of_string_bytes. simpl.
  unfold json_string in Hs. by rewrite ?Hs.
Qed.

Lemma length_ser_str s : (length (bytes_of_string s) < length (ser_str s))%nat.
Proof.
  unfold ser_str. simpl. rewrite length_app. pose proof (length_escaped (bytes_of_string s)).
  simpl. lia.
Qed.

Lemma deserialize_string_printed s fuel r :
  json_string s = true -> (length (ser_str s ++ r) < fuel)%nat ->
  deserialize_string fuel (ser_str s ++ r) = Ok (s, r).
Proof.
  intros Hs Hf. pose proof (length_ser_str s). rewrite length_app in Hf.
  unfold deserialize_string. unfold ser_str at 1. simpl.
  rewrite <- app_assoc. simpl. rewrite parse_str_printed by (auto; lia). simpl.
  by rewrite string_of_bytes_of_string.
Qed.

Lemma deserialize_option_some {A} (de : nat -> Parser A) fuel b rest input :
  parse_whitespace input = b :: rest -> b <> 110 ->
  deserialize_option de fuel input = let! (a, r) := de fuel input in Ok (Some a, r).
Proof.
  intros H Hb. unfold deserialize_option. rewrite H. by rewrite (proj2 (Z.eqb_neq _ _) Hb).
Qed.

Lemma parse_whitespace_ser_str s r : parse_whitespace (ser_str s ++ r) = ser_str s ++ r.
Proof. reflexivity. Qed.

Lemma deserialize_option_string_printed o fuel r :
  Borsh.option_all json_string o = true -> (length (ser_option ser_str o ++ r) < fuel)%nat ->
  deserialize_option deserialize_string fuel (ser_option ser_str o ++ r) = Ok (o, r).
Proof.
  destruct o as [s|]; simpl; intros Hs Hf; [|reflexivity].
  rewrite (deserialize_option_some _ _ 34 _ _ (parse_whitespace_ser_str s r)) by lia.
  by rewrite deserialize_string_printed.
Qed.

Lemma next_key_printed fuel first k r :
  json_string k = true -> (length (bytes_of_string k) < fuel)%nat ->
  next_key fuel first ((if first then [] else [44]) ++ ser_str k ++ r) =
  Ok (Some (bytes_of_string k), r).
Proof.
  intros Hk Hf. unfold next_key, ser_str.
  destruct first; simpl; rewrite <- ?app_assoc; simpl; by rewrite parse_str_printed.
Qed.

Lemma parse_object_colon_printed r : parse_object_colon (58 :: r) = Ok r.
Proof. reflexivity. Qed.

Lemma ser_fields_cons first k v kvs rest :
  ser_fields first ((k, v) :: kvs) ++ rest =
  (if first then [] else [44]) ++ ser_str k ++ 58 :: v ++ (ser_fields false kvs ++ rest).
Proof. cbn [ser_fields]. rewrite <- !app_assoc. cbn [app]. by rewrite <- !app_assoc. Qed.

Lemma ser_fields_step first k v rest :
  ser_fields first ((k, v) :: rest) =
  (if first then [] else [44]) ++ ser_str k ++ 58 :: v ++ ser_fields false rest.
Proof. reflexivity. Qed.

Lemma ser_fields_app first k v kvs more :
  ser_fields first ((k, v) :: kvs ++ more) =
  ser_fields first ((k, v) :: kvs) ++ ser_fields false more.
Proof.
  revert first k v. induction kvs as [|[k' v'] kvs IH]; intros first k v.
  - rewrite !(ser_fields_step first k v). cbn [app ser_fields].
    rewrite app_nil_r, <- !app_assoc. reflexivity.
  - cbn [app]. rewrite !(ser_fields_step first k v), (IH false k' v').
    rewrite <- !app_assoc, <- app_comm_cons, <- app_assoc. reflexivity.
Qed.

Lemma end_map_printed r : end_map (125 :: r) = Ok r.
Proof. reflexivity. Qed.

Lemma from_slice_printed {A} (de : nat -> Parser A) (bs : list Z) a :
  (forall fuel rest, (length (bs ++ rest) < fuel)%nat -> de fuel (bs ++ rest) = Ok (a, rest)) ->
  from_slice de bs = Ok a.
Proof.
  intros H. unfold from_slice, fuel_for. rewrite <- (app_nil_r bs). rewrite H by lia. reflexivity.
Qed.

Lemma end_seq_printed r : end_seq (93 :: r) = Ok r.
Proof. reflexivity. Qed.

(** ** The fuel is always enough *)

Lemma parse_whitespace_length input : (length (parse_whitespace input) <= length input)%nat.
Proof. induction input as [|b input IH]; simpl; [lia|]. case_match; simpl; lia. Qed.

Lemma skip_digits_length input : (length (skip_digits input) <= length input)%nat.
Proof. induction input as [|b input IH]; simpl; [lia|]. case_match; simpl; lia. Qed.

Lemma skips_weaken input input' r :
  skips input' r -> (length input' <= length input)%nat -> skips input r.
Proof. destruct r; simpl; lia || done. Qed.

Lemma progresses_weaken {A} input input' (r : result (A * list Z) JsonError) :
  progresses lt input' r -> (length input' <= length input)%nat -> progresses lt input r.
Proof. destruct r as [[]|]; simpl; lia || done. Qed.

Lemma parse_ident_skips es input : es <> [] -> skips input (parse_ident es input).
Proof.
  revert input. induction es as [|e es IH]; intros input Hne; [done|].
  destruct input as [|b input]; simpl; [done|]. case_match; [|done].
  destruct es as [|e' es]; simpl; [lia|].
  eapply skips_weaken; [apply IH; done | simpl; lia].
Qed.

Lemma ignore_exponent_skips input : skips input (ignore_exponent input).
Proof.
  unfold ignore_exponent. destruct input as [|b input]; simpl; [done|].
  destruct ((b =? 43) || (b =? 45)).
  - destruct input as [|c input]; simpl; [done|].
    destruct (is_digit c); simpl; [|done]. pose proof (skip_digits_length input). lia.
  - destruct (is_digit b); simpl; [|done]. pose proof (skip_digits_length input). lia.
Qed.

Lemma ignore_decimal_skips input : skips input (ignore_decimal input).
Proof.
  unfold ignore_decimal. destruct input as [|b input]; simpl; [done|].
  destruct (is_digit b); [|done]. pose proof (skip_digits_length input).
  destruct (skip_digits input) as [|e r] eqn:E; simpl; [lia|].
  case_match; [|simpl in *; lia].
  eapply skips_weaken; [apply ignore_exponent_skips | simpl in *; lia].
Qed.

Lemma ignore_integer_skips input : skips input (ignore_integer input).
Proof.
  destruct input as [|b rest]; [done|]. unfold ignore_integer.
  assert (Hk : forall r1, (length r1 <= length rest)%nat ->
    skips (b :: rest) (match r1 with
                       | c :: r2 => if c =? 46 then ignore_decimal r2
                                    else if (c =? 101) || (c =? 69) then ignore_exponent r2
                                    else Ok r1
                       | [] => Ok []
                       end)).
  { intros [|c r2] Hr; simpl; [lia|]. simpl in Hr.
    repeat case_match; try (simpl; lia);
      (eapply skips_weaken; [apply ignore_decimal_skips || apply ignore_exponent_skips|]);
      simpl; lia. }
  destruct (b =? 48).
  - destruct rest as [|c r]; cbn [result_bind]; [apply (Hk []); simpl; lia|].
    destruct (is_digit c); [done|]. cbn [result_bind]. apply (Hk (c :: r)). lia.
  - destruct (_ && _); cbn [result_bind]; [|done].
    apply (Hk (skip_digits rest)), skip_digits_length.
Qed.

Lemma decode_hex_escape_length input n rest :
  decode_hex_escape input = Ok (n, rest) -> (length rest < length input)%nat.
Proof.
  destruct input as [|a [|b [|c [|d input]]]]; simpl; try discriminate.
  repeat case_match; intros; simplify_eq; simpl; lia.
Qed.

Lemma decode_hex_escape_no_fuel input : decode_hex_escape input <> Err OutOfFuel.
Proof. destruct input as [|a [|b [|c [|d input]]]]; simpl; try discriminate. by repeat case_match. Qed.

Ltac hex_lengths :=
  repeat match goal with
         | H : decode_hex_escape _ = Ok (_, _) |- _ => apply decode_hex_escape_length in H
         | H : decode_hex_escape ?x = Err _ |- _ =>
             let E := fresh in pose proof (decode_hex_escape_no_fuel x) as E; rewrite H in E;
             clear H
         end.

Lemma parse_escape_progress input : progresses lt input (parse_escape input).
Proof.
  destruct input as [|ch rest]; [done|]. unfold parse_escape, result_bind.
  repeat case_match; simplify_eq/=; hex_lengths; simpl in *; try lia; try congruence.
Qed.

Lemma ignore_escape_skips input : skips input (ignore_escape input).
Proof.
  destruct input as [|ch rest]; [done|]. unfold ignore_escape, result_bind.
  repeat case_match; simplify_eq/=; hex_lengths; simpl in *; try lia; congruence.
Qed.

Lemma parse_str_loop_progress fuel acc input :
  (length input < fuel)%nat -> progresses lt input (parse_str_loop fuel acc input).
Proof.
  revert acc input. induction fuel as [|fuel IH]; intros acc input Hf; [lia|].
  destruct input as [|b rest]; simpl; [done|]. simpl in Hf.
  destruct (b =? 34); [simpl; lia|]. destruct (b =? 92).
  - pose proof (parse_escape_progress rest) as He.
    destruct (parse_escape rest) as [[esc r]|e]; simpl in *; [|done].
    eapply progresses_weaken; [apply IH | simpl]; lia.
  - destruct (b <? 32); [done|]. eapply progresses_weaken; [apply IH | simpl]; lia.
Qed.

Lemma parse_str_progress fuel input :
  (length input < fuel)%nat -> progresses lt input (parse_str fuel input).
Proof.
  intros Hf. pose proof (parse_str_loop_progress fuel [] input Hf) as H. unfold parse_str.
  destruct (parse_str_loop fuel [] input) as [[bs rest]|e]; simpl in *; [|done].
  by repeat case_match.
Qed.

Lemma ignore_str_skips fuel input :
  (length input < fuel)%nat -> skips input (ignore_str fuel input).
Proof.
  revert input. induction fuel as [|fuel IH]; intros input Hf; [lia|].
  destruct input as [|b rest]; simpl; [done|]. simpl in Hf.
  destruct (b =? 34); [simpl; lia|]. destruct (b =? 92).
  - pose proof (ignore_escape_skips rest) as He.
    destruct (ignore_escape rest) as [r|e]; simpl in *; [|done].
    eapply skips_weaken; [apply IH | simpl]; lia.
  - destruct (b <? 32); [done|]. eapply skips_weaken; [apply IH | simpl]; lia.
Qed.

Lemma parse_whitespace_head input b rest :
  parse_whitespace input = b :: rest -> is_ws b = false.
Proof.
  induction input as [|c input IH]; simpl; [done|].
  destruct (is_ws c) eqn:E; [done|]. by intros [= -> _].
Qed.

Lemma ignore_progress fuel :
  (forall input, (2 * length input + 1 <= fuel)%nat -> skips input (ignore_value fuel input)) /\
  (forall first input, (2 * length input + 2 <= fuel)%nat ->
     skips input (ignore_seq fuel first input)) /\
  (forall first input, (2 * length input + 2 <= fuel)%nat ->
     skips input (ignore_map fuel first input)).
Proof.
  induction fuel as [|fuel [IHv [IHs IHm]]]; [split_and!; intros; lia|].
  split_and!.
  - intros input Hf. cbn [ignore_value]. pose proof (parse_whitespace_length input) as Hw.
    destruct (parse_whitespace input) as [|b rest]; [done|]. simpl in Hw.
    repeat case_match; try done; (eapply skips_weaken;
      [first [by apply parse_ident_skips | apply ignore_integer_skips
             | apply ignore_str_skips; lia | apply IHs; lia | apply IHm; lia] | simpl; lia]).
  - intros first input Hf. cbn [ignore_seq]. pose proof (parse_whitespace_length input) as Hw.
    destruct (parse_whitespace input) as [|b rest]; [done|]. simpl in Hw.
    destruct (b =? 93); [simpl; lia|].
    destruct first; [|destruct (b =? 44); [|done]].
    + pose proof (IHv (b :: rest) ltac:(simpl; lia)) as Hv.
      destruct (ignore_value fuel (b :: rest)) as [r|e]; cbn [result_bind]; [|done].
      simpl in Hv. eapply skips_weaken; [apply IHs; lia | lia].
    + pose proof (IHv rest ltac:(lia)) as Hv.
      destruct (ignore_value fuel rest) as [r|e]; cbn [result_bind]; [|done].
      simpl in Hv. eapply skips_weaken; [apply IHs; lia | lia].
  - intros first input Hf. cbn [ignore_map]. pose proof (parse_whitespace_length input) as Hw.
    destruct (parse_whitespace input) as [|b rest]; [done|]. simpl in Hw.
    destruct (b =? 125); [simpl; lia|].
    destruct first; [|destruct (b =? 44); [|done]];
      [set (r0 := b :: rest) | set (r0 := rest)];
      (assert (Hr0 : (length r0 <= length input)%nat) by (subst r0; simpl; lia));
      clearbody r0.
    all: pose proof (parse_whitespace_length r0) as Hw0;
      destruct (parse_whitespace r0) as [|q r1]; [done|]; simpl in Hw0;
      destruct (negb (q =? 34)); [done|];
      pose proof (ignore_str_skips fuel r1 ltac:(lia)) as Hs;
      destruct (ignore_str fuel r1) as [r2|e]; cbn [result_bind]; [|done]; simpl in Hs;
      pose proof (parse_whitespace_length r2) as Hw2;
      destruct (parse_whitespace r2) as [|c r3]; [done|]; simpl in Hw2;
      destruct (negb (c =? 58)); [done|];
      pose proof (IHv r3 ltac:(lia)) as Hv;
      destruct (ignore_value fuel r3) as [r4|e]; cbn [result_bind]; [|done]; simpl in Hv;
      eapply skips_weaken; [apply IHm; lia | lia].
Qed.

Lemma progresses_map {A B} (g : A -> B) R input (r : result (A * list Z) JsonError) :
  progresses R input r -> progresses R input (let! (a, rest) := r in Ok (g a, rest)).
Proof. by destruct r as [[]|]. Qed.

Lemma progresses_le_weaken {A} input input' (r : result (A * list Z) JsonError) :
  progresses le input' r -> (length input' <= length input)%nat -> progresses le input r.
Proof. destruct r as [[]|]; simpl; lia || done. Qed.

Lemma deserialize_string_progress fuel input :
  (length input < fuel)%nat -> progresses lt input (deserialize_string fuel input).
Proof.
  intros Hf. unfold deserialize_string. pose proof (parse_whitespace_length input).
  destruct (parse_whitespace input) as [|b rest]; [done|]. simpl in *.
  destruct (b =? 34); [|done].
  pose proof (parse_str_progress fuel rest ltac:(lia)) as Hp.
  destruct (parse_str fuel rest) as [[bs r]|e]; simpl in *; [lia|done].
Qed.

(** ** What the string reader returns

    The bytes of a string are no more than the input they were read
    from: a raw byte is one byte, an escape [\\n] two bytes for one,
    [\\uXXXX] six for at most three, a surrogate pair twelve for four.
    With the UTF-8 check of [parse_str], a string read from fewer than
    [2^31] bytes is a Rust [String]. *)

Lemma decode_hex_escape_consumes input n rest :
  decode_hex_escape input = Ok (n, rest) -> length input = (4 + length rest)%nat.
Proof.
  destruct input as [|a [|b [|c [|d input]]]]; simpl; try discriminate.
  repeat case_match; intros; simplify_eq; done.
Qed.

Lemma encode_utf8_length n : (length (encode_utf8 n) <= 4)%nat.
Proof. unfold encode_utf8. repeat case_match; simpl; lia. Qed.

Lemma parse_escape_length input esc r :
  parse_escape input = Ok (esc, r) -> (length esc + length r <= length input)%nat.
Proof.
  destruct input as [|ch rest]; [done|]. intros H. cbn [parse_escape] in H.
  repeat (simplify_eq/=; first [case_match | match goal with
    | H : context [result_bind (decode_hex_escape ?x) _] |- _ =>
        destruct (decode_hex_escape x) as [[? ?]|?] eqn:?; cbn [result_bind] in H end]);
    simplify_eq/=; try lia;
    repeat match goal with E : decode_hex_escape _ = Ok _ |- _ =>
      apply decode_hex_escape_consumes in E end;
    match goal with |- context [encode_utf8 ?x] => pose proof (encode_utf8_length x) end;
    simpl in *; lia.
Qed.

Lemma parse_str_loop_length fuel acc input bs r :
  parse_str_loop fuel acc input = Ok (bs, r) -> (length bs + length r <= length acc + length input)%nat.
Proof.
  revert acc input. induction fuel as [|fuel IH]; intros acc input H; [done|].
  destruct input as [|b rest]; [done|]. cbn [parse_str_loop] in H.
  destruct (b =? 34); [simplify_eq/=; lia|].
  destruct (b =? 92).
  - destruct (parse_escape rest) as [[esc r1]|e] eqn:Ee; cbn [result_bind] in H; [|done].
    apply IH in H. apply parse_escape_length in Ee. length_lia.
  - destruct (b <? 32); [done|]. apply IH in H. length_lia.
Qed.

Lemma deserialize_string_rust fuel input s r :
  deserialize_string fuel input = Ok (s, r) -> (Z.of_nat (length input) < 2 ^ 31)%Z ->
  Borsh.rust_string s = true.
Proof.
  unfold deserialize_string. pose proof (parse_whitespace_length input).
  destruct (parse_whitespace input) as [|b rest]; [done|]. destruct (b =? 34); [|done].
  unfold parse_str. destruct (parse_str_loop fuel [] rest) as [[bs r1]|e] eqn:El;
    cbn [result_bind]; [|done].
  destruct (Borsh.utf8_valid bs) eqn:Ev; cbn [result_bind]; [|done].
  intros [= <- _] Hl. apply parse_str_loop_length in El. simpl in *.
  apply Borsh.rust_string_of_bytes; [done|lia].
Qed.

Lemma deserialize_option_string_rust fuel input o r :
  deserialize_option deserialize_string fuel input = Ok (o, r) ->
  (Z.of_nat (length input) < 2 ^ 31)%Z -> Borsh.option_all Borsh.rust_string o = true.
Proof.
  unfold deserialize_option.
  destruct (parse_whitespace input) as [|b rest]; [|destruct (b =? 110)];
    [| by destruct (parse_ident _ _); intros; simplify_eq/= |];
    destruct (deserialize_string fuel input) as [[v r1]|e] eqn:Ed; cbn [result_bind]; try done;
    intros [= <- _] Hl; by eapply deserialize_string_rust.
Qed.

Lemma deserialize_option_progress {A} (de : nat -> Parser A) fuel input :
  progresses lt input (de fuel input) -> progresses lt input (deserialize_option de fuel input).
Proof.
  intros Hde. unfold deserialize_option. pose proof (parse_whitespace_length input).
  destruct (parse_whitespace input) as [|b rest]; [by apply progresses_map|].
  destruct (b =? 110); [|by apply progresses_map].
  pose proof (parse_ident_skips [117; 108; 108] rest ltac:(done)) as Hi.
  destruct (parse_ident _ rest) as [r|e]; simpl in *; [lia|done].
Qed.

Lemma parse_object_colon_skips input : skips input (parse_object_colon input).
Proof.
  unfold parse_object_colon. pose proof (parse_whitespace_length input).
  destruct (parse_whitespace input) as [|b rest]; [done|]. simpl in *. case_match; simpl; [lia|done].
Qed.

Lemma next_key_progress fuel first input :
  (length input < fuel)%nat ->
  match next_key fuel first input with
  | Ok (None, r) => (length r <= length input)%nat
  | Ok (Some _, r) => (length r < length input)%nat
  | Err e => e <> OutOfFuel
  end.
Proof.
  intros Hf. unfold next_key. pose proof (parse_whitespace_length input) as Hw.
  destruct (parse_whitespace input) as [|b rest]; [done|]. simpl in Hw.
  destruct (b =? 125); [simpl; lia|].
  assert (Hp : forall peek, (length peek <= length input)%nat ->
    match (match peek with
           | [] => Err EofWhileParsingValue
           | q :: r => if q =? 34 then let! (k, r') := parse_str fuel r in Ok (Some k, r')
                       else if q =? 125 then Err TrailingComma else Err KeyMustBeAString
           end) with
    | Ok (None, r) => (length r <= length input)%nat
    | Ok (Some _, r) => (length r < length input)%nat
    | Err e => e <> OutOfFuel
    end).
  { intros [|q r] Hl; [done|]. simpl in Hl.
    destruct (q =? 34); [|destruct (q =? 125); simpl; discriminate].
    pose proof (parse_str_progress fuel r ltac:(lia)) as Hs.
    destruct (parse_str fuel r) as [[k r']|e]; simpl in *; [lia|done]. }
  destruct ((b =? 44) && negb first); cbn [result_bind].
  - apply Hp. pose proof (parse_whitespace_length rest). simpl. lia.
  - destruct first; cbn [result_bind]; [apply (Hp (b :: rest)); simpl; lia | done].
Qed.

Lemma next_element_progress first input :
  match next_element first input with
  | Ok (Some r) => (length r <= length input)%nat
  | Ok None => True
  | Err e => e <> OutOfFuel
  end.
Proof.
  unfold next_element. pose proof (parse_whitespace_length input) as Hw.
  destruct (parse_whitespace input) as [|b rest]; [done|]. simpl in Hw.
  destruct (b =? 93); [done|].
  assert (Hp : forall peek, (length peek <= length input)%nat ->
    match (match peek with
           | [] => Err EofWhileParsingValue
           | q :: r => if q =? 93 then Err TrailingComma else Ok (Some (q :: r))
           end) with
    | Ok (Some r) => (length r <= length input)%nat
    | Ok None => True
    | Err e => e <> OutOfFuel
    end).
  { intros [|q r] Hl; [done|]. simpl in Hl. destruct (q =? 93); simpl; [discriminate | lia]. }
  destruct ((b =? 44) && negb first); cbn [result_bind].
  - apply Hp. pose proof (parse_whitespace_length rest). simpl. lia.
  - destruct first; cbn [result_bind]; [apply (Hp (b :: rest)); simpl; lia | done].
Qed.

Lemma end_map_skips input : skips input (end_map input).
Proof.
  unfold end_map. pose proof (parse_whitespace_length input).
  destruct (parse_whitespace input) as [|b rest]; [done|]. simpl in *.
  repeat case_match; simpl; lia || done.
Qed.

Lemma end_seq_skips input : skips input (end_seq input).
Proof.
  unfold end_seq. pose proof (parse_whitespace_length input).
  destruct (parse_whitespace input) as [|b rest]; [done|]. simpl in *.
  repeat case_match; simpl; lia || done.
Qed.

(** A reader that makes progress never runs [from_slice] out of fuel. *)
Lemma from_slice_no_out_of_fuel {A} (de : nat -> Parser A) input :
  (forall fuel input, (2 * length input + 2 <= fuel)%nat -> progresses lt input (de fuel input)) ->
  from_slice de input <> Err OutOfFuel.
Proof.
  intros Hde. unfold from_slice, fuel_for. pose proof (Hde (S (S (2 * length input))) input ltac:(lia)) as H.
  destruct (de _ input) as [[a rest]|e]; simpl in *; [|congruence]. by case_match.
Qed.

End JsonText.
