(* ===== verification/Utf8.v ===== *)
(** * UTF-8: what [String::from_utf8] accepts

    [Borsh.utf8_valid] is the check of [core::str::from_utf8] that
    [String::deserialize] (through [String::from_utf8]) runs on the
    bytes of every stored string, written as the byte ranges of
    Unicode table 3-7.  [JsonText.encode_utf8] is [char::encode_utf8],
    written with the shifts and masks of core.  This file shows that
    the two agree: the byte strings the check accepts are exactly the
    encodings of sequences of Unicode scalar values (code points up to
    U+10FFFF other than the surrogates U+D800..U+DFFF), so a stored
    [String] decodes exactly when it is text. *)

From stdpp Require Import base strings list.
From Stdlib Require Import ZArith Lia.
From S2P Require Import Prelude Types Borsh JsonText.
Import Borsh.

Module Utf8.
Local Open Scope Z_scope.

(** A Unicode scalar value, the values of Rust's [char]. *)
Definition scalar (n : Z) : Prop := 0 <= n <= 0x10FFFF /\ ~ (0xD800 <= n <= 0xDFFF).

(** The bytes [char::encode_utf8] writes for a sequence of scalar
    values, one after the other. *)
Definition utf8_encoding (bs : list Z) : Prop :=
  exists cps, Forall scalar cps /\ bs = concat (map JsonText.encode_utf8 cps).

(** ** The masks of [encode_utf8] as arithmetic *)

(** [x | c << k] adds when [x] fits below bit [k]. *)
Lemma lor_low x c k :
  0 <= k -> 0 <= x < 2 ^ k -> Z.lor x (c * 2 ^ k) = x + c * 2 ^ k.
Proof.
  intros Hk Hx. rewrite <- Z.shiftl_mul_pow2 by done.
  assert (Z.land x (Z.shiftl c k) = 0) as H0.
  { apply Z.bits_inj'. intros i Hi. rewrite Z.land_spec, Z.bits_0, Z.shiftl_spec by done.
    destruct (Z.lt_ge_cases i k) as [Hlt|Hge].
    - rewrite (Z.testbit_neg_r c) by lia. apply andb_false_r.
    - rewrite <- (Z.mod_small x (2 ^ k)) by done. by rewrite Z.mod_pow2_bits_high by lia. }
  rewrite <- Z.lxor_lor by done. by rewrite Z.add_nocarry_lxor.
Qed.

(** Bits [k .. k+j) of [n]. *)
Lemma land_shiftr_ones n k j :
  0 <= k -> 0 <= j -> Z.land (Z.shiftr n k) (Z.ones j) = n / 2 ^ k mod 2 ^ j.
Proof. intros Hk Hj. by rewrite Z.land_ones, Z.shiftr_div_pow2 by done. Qed.

(** A marker byte [x | m] with [x] below the marker's lowest set bit. *)
Lemma marked n k j c :
  0 <= k -> 0 <= j -> Z.lor (Z.land (Z.shiftr n k) (Z.ones j)) (c * 2 ^ j) =
    n / 2 ^ k mod 2 ^ j + c * 2 ^ j.
Proof.
  intros Hk Hj. rewrite land_shiftr_ones by done. apply lor_low; [done|].
  apply Z.mod_pos_bound. lia.
Qed.

(** [encode_utf8] with its masks as base-64 digits. *)
Lemma encode_utf8_arith n :
  JsonText.encode_utf8 n =
    if n <? 0x80 then [n]
    else if n <? 0x800 then [n / 64 mod 32 + 0xC0; n mod 64 + 0x80]
    else if n <? 0x10000 then [n / 64 / 64 mod 16 + 0xE0; n / 64 mod 64 + 0x80; n mod 64 + 0x80]
    else [n / 64 / 64 / 64 mod 8 + 0xF0; n / 64 / 64 mod 64 + 0x80; n / 64 mod 64 + 0x80;
          n mod 64 + 0x80].
Proof.
  unfold JsonText.encode_utf8.
  change 0x3F with (Z.ones 6). change 0x1F with (Z.ones 5).
  change 0x0F with (Z.ones 4). change 0x07 with (Z.ones 3).
  change 0x80 with (2 * 2 ^ 6) at 2 3 4 5 6 7.
  change 0xC0 with (6 * 2 ^ 5). change 0xE0 with (14 * 2 ^ 4). change 0xF0 with (30 * 2 ^ 3).
  rewrite !marked by lia.
  change (2 ^ 0) with 1. change (2 ^ 12) with (64 * 64). change (2 ^ 18) with (64 * 64 * 64).
  rewrite !Z.div_1_r, <- !Z.div_div by lia. reflexivity.
Qed.

(** The digits of [x * k + y]. *)
Lemma digit_div x y k : 0 < k -> 0 <= y < k -> (x * k + y) / k = x.
Proof. intros Hk Hy. rewrite Z.div_add_l by lia. rewrite Z.div_small by done. lia. Qed.

Lemma digit_mod x y k : 0 < k -> 0 <= y < k -> (x * k + y) mod k = y.
Proof. intros Hk Hy. rewrite Z.add_comm, Z.mod_add by lia. by apply Z.mod_small. Qed.

(** [encode_utf8] on the base-64 digits of a code point: a marker
    byte, then the continuation bytes [10xxxxxx]. *)
Lemma encode_utf8_1 n : 0 <= n < 0x80 -> JsonText.encode_utf8 n = [n].
Proof. intros H. rewrite encode_utf8_arith. by rewrite (proj2 (Z.ltb_lt n 0x80)) by lia. Qed.

Lemma encode_utf8_2 a r :
  2 <= a < 32 -> 0 <= r < 64 -> JsonText.encode_utf8 (a * 64 + r) = [a + 0xC0; r + 0x80].
Proof.
  intros Ha Hr. rewrite encode_utf8_arith.
  rewrite (proj2 (Z.ltb_ge _ 0x80)), (proj2 (Z.ltb_lt _ 0x800)) by lia.
  rewrite digit_div, digit_mod, (Z.mod_small a) by lia. done.
Qed.

Lemma encode_utf8_3 a b c :
  0 <= a < 16 -> 0 <= b < 64 -> 0 <= c < 64 -> 0x800 <= (a * 64 + b) * 64 + c ->
  JsonText.encode_utf8 ((a * 64 + b) * 64 + c) = [a + 0xE0; b + 0x80; c + 0x80].
Proof.
  intros Ha Hb Hc Hn. rewrite encode_utf8_arith.
  rewrite (proj2 (Z.ltb_ge _ 0x80)), (proj2 (Z.ltb_ge _ 0x800)), (proj2 (Z.ltb_lt _ 0x10000)) by lia.
  rewrite !digit_div, !digit_mod, (Z.mod_small a) by lia. done.
Qed.

Lemma encode_utf8_4 a b c d :
  0 <= a < 8 -> 0 <= b < 64 -> 0 <= c < 64 -> 0 <= d < 64 ->
  0x10000 <= ((a * 64 + b) * 64 + c) * 64 + d ->
  JsonText.encode_utf8 (((a * 64 + b) * 64 + c) * 64 + d) =
    [a + 0xF0; b + 0x80; c + 0x80; d + 0x80].
Proof.
  intros Ha Hb Hc Hd Hn. rewrite encode_utf8_arith.
  rewrite (proj2 (Z.ltb_ge _ 0x80)), (proj2 (Z.ltb_ge _ 0x800)), (proj2 (Z.ltb_ge _ 0x10000)) by lia.
  rewrite !digit_div, !digit_mod, (Z.mod_small a) by lia. done.
Qed.

(** Every scalar value has one of the four digit forms. *)
Lemma scalar_digits n :
  scalar n ->
  (0 <= n < 0x80) \/
  (exists a r, n = a * 64 + r /\ 2 <= a < 32 /\ 0 <= r < 64) \/
  (exists a b c, n = (a * 64 + b) * 64 + c /\ 0 <= a < 16 /\ 0 <= b < 64 /\ 0 <= c < 64 /\
     0x800 <= n /\ ~ (a = 13 /\ 32 <= b)) \/
  (exists a b c d, n = ((a * 64 + b) * 64 + c) * 64 + d /\ 0 <= a < 8 /\ 0 <= b < 64 /\
     0 <= c < 64 /\ 0 <= d < 64 /\ 0x10000 <= n <= 0x10FFFF).
Proof.
  intros [Hr Hs].
  pose proof (Z.div_mod n 64 ltac:(lia)) as E1. pose proof (Z.mod_pos_bound n 64 ltac:(lia)) as B1.
  pose proof (Z.div_mod (n / 64) 64 ltac:(lia)) as E2. pose proof (Z.mod_pos_bound (n / 64) 64 ltac:(lia)) as B2.
  pose proof (Z.div_mod (n / 64 / 64) 64 ltac:(lia)) as E3. pose proof (Z.mod_pos_bound (n / 64 / 64) 64 ltac:(lia)) as B3.
  destruct (Z.ltb_spec n 0x80); [left; lia|right].
  destruct (Z.ltb_spec n 0x800); [left; exists (n / 64), (n mod 64); lia|right].
  destruct (Z.ltb_spec n 0x10000); [left|right].
  - exists (n / 64 / 64), (n / 64 mod 64), (n mod 64). lia.
  - exists (n / 64 / 64 / 64), (n / 64 / 64 mod 64), (n / 64 mod 64), (n mod 64). lia.
Qed.

(** ** Both directions *)

(** Evaluate the comparisons in the goal, outermost first: rewrite one
    to its value when [lia] fixes it, split on it otherwise. *)
Ltac decide_ranges :=
  repeat (match goal with
  | |- context [?a <=? ?b] =>
      first [rewrite (proj2 (Z.leb_le a b)) by lia | rewrite (proj2 (Z.leb_gt a b)) by lia
            | destruct (Z.leb_spec a b)]
  | |- context [?a =? ?b] =>
      first [rewrite (proj2 (Z.eqb_eq a b)) by lia | rewrite (proj2 (Z.eqb_neq a b)) by lia
            | destruct (Z.eqb_spec a b)]
  end; cbn [andb orb]).

(** The same in a hypothesis, opening the list matches it reaches. *)
Ltac decide_ranges_in H :=
  repeat (match type of H with
    | context [?a <=? ?b] => destruct (Z.leb_spec a b)
    | context [?a =? ?b] => destruct (Z.eqb_spec a b)
    | context [match ?l with [] => _ | _ :: _ => _ end] => destruct l
    end; cbn [andb orb] in H; try discriminate H; try lia).

(** The check accepts the encoding of a scalar value and goes on after it. *)
Lemma utf8_valid_encode n rest :
  scalar n -> utf8_valid (JsonText.encode_utf8 n ++ rest) = utf8_valid rest.
Proof.
  intros Hn.
  destruct (scalar_digits n Hn) as [H|[(a & r & -> & Ha & Hr)|[(a & b & c & -> & Ha & Hb & Hc & Hl & Hs)|
    (a & b & c & d & -> & Ha & Hb & Hc & Hd & Hl)]]].
  - rewrite encode_utf8_1 by done. cbn [app utf8_valid]. unfold in_range. decide_ranges; reflexivity.
  - rewrite encode_utf8_2 by done. cbn [app utf8_valid]. unfold cont, in_range. decide_ranges; reflexivity.
  - rewrite encode_utf8_3 by done. cbn [app utf8_valid]. unfold cont, in_range. decide_ranges; reflexivity.
  - rewrite encode_utf8_4 by lia. cbn [app utf8_valid]. unfold cont, in_range. decide_ranges; reflexivity.
Qed.

Lemma utf8_valid_encoding bs : utf8_encoding bs -> utf8_valid bs = true.
Proof.
  intros (cps & Hcps & ->). induction Hcps as [|n cps Hn _ IH]; [done|].
  cbn [map concat]. by rewrite utf8_valid_encode.
Qed.

(** The encoding of one scalar value, then more. *)
Lemma encoding_cons n bs : scalar n -> utf8_encoding bs -> utf8_encoding (JsonText.encode_utf8 n ++ bs).
Proof. intros Hn (cps & Hcps & ->). exists (n :: cps). split; [by constructor|done]. Qed.

Lemma encode_utf8_nonempty n : (1 <= length (JsonText.encode_utf8 n))%nat.
Proof. unfold JsonText.encode_utf8. repeat case_match; simpl; lia. Qed.

(** The characters the four rows of table 3-7 describe. *)
Lemma char_1 b0 : 0 <= b0 <= 0x7F -> exists n, scalar n /\ JsonText.encode_utf8 n = [b0].
Proof. intros H. exists b0. split; [split; lia | apply encode_utf8_1; lia]. Qed.

Lemma char_2 b0 b1 :
  0xC2 <= b0 <= 0xDF -> 0x80 <= b1 <= 0xBF ->
  exists n, scalar n /\ JsonText.encode_utf8 n = [b0; b1].
Proof.
  intros H0 H1. exists ((b0 - 0xC0) * 64 + (b1 - 0x80)).
  split; [split; lia|]. rewrite encode_utf8_2 by lia. f_equal; [|f_equal]; lia.
Qed.

Lemma char_3 b0 b1 b2 :
  0xE0 <= b0 <= 0xEF -> 0x80 <= b1 <= 0xBF -> 0x80 <= b2 <= 0xBF ->
  (b0 = 0xE0 -> 0xA0 <= b1) -> (b0 = 0xED -> b1 <= 0x9F) ->
  exists n, scalar n /\ JsonText.encode_utf8 n = [b0; b1; b2].
Proof.
  intros H0 H1 H2 He0 Hed. exists (((b0 - 0xE0) * 64 + (b1 - 0x80)) * 64 + (b2 - 0x80)).
  split; [split; lia|]. rewrite encode_utf8_3 by lia. repeat (f_equal; try lia).
Qed.

Lemma char_4 b0 b1 b2 b3 :
  0xF0 <= b0 <= 0xF4 -> 0x80 <= b1 <= 0xBF -> 0x80 <= b2 <= 0xBF -> 0x80 <= b3 <= 0xBF ->
  (b0 = 0xF0 -> 0x90 <= b1) -> (b0 = 0xF4 -> b1 <= 0x8F) ->
  exists n, scalar n /\ JsonText.encode_utf8 n = [b0; b1; b2; b3].
Proof.
  intros H0 H1 H2 H3 Hf0 Hf4.
  exists ((((b0 - 0xF0) * 64 + (b1 - 0x80)) * 64 + (b2 - 0x80)) * 64 + (b3 - 0x80)).
  split; [split; lia|]. rewrite encode_utf8_4 by lia. repeat (f_equal; try lia).
Qed.

(** One character at the front of bytes the check accepts. *)
Lemma utf8_valid_char b0 rest :
  utf8_valid (b0 :: rest) = true ->
  exists n rest', scalar n /\ b0 :: rest = JsonText.encode_utf8 n ++ rest' /\ utf8_valid rest' = true.
Proof.
  intros H. simpl in H. unfold cont, in_range in H. decide_ranges_in H;
  match goal with
  | |- exists _ _, _ /\ ?x0 :: ?x1 :: ?x2 :: ?x3 :: ?r = _ /\ _ =>
      destruct (char_4 x0 x1 x2 x3) as (cp & Hcp & He); [lia ..|]; exists cp, r
  | |- exists _ _, _ /\ ?x0 :: ?x1 :: ?x2 :: ?r = _ /\ _ =>
      destruct (char_3 x0 x1 x2) as (cp & Hcp & He); [lia ..|]; exists cp, r
  | |- exists _ _, _ /\ ?x0 :: ?x1 :: ?r = _ /\ _ =>
      destruct (char_2 x0 x1) as (cp & Hcp & He); [lia ..|]; exists cp, r
  | |- exists _ _, _ /\ ?x0 :: ?r = _ /\ _ =>
      destruct (char_1 x0) as (cp & Hcp & He); [lia ..|]; exists cp, r
  end; by rewrite He.
Qed.

Lemma utf8_valid_sound bs : utf8_valid bs = true -> utf8_encoding bs.
Proof.
  induction bs as [bs IH] using (induction_ltof1 _ (@length Z)). unfold ltof in IH.
  destruct bs as [|b0 rest]; [intros _; by exists []|].
  intros (n & rest' & Hn & E & Hv)%utf8_valid_char. rewrite E.
  apply encoding_cons; [done|]. apply IH; [|done].
  rewrite E, length_app. pose proof (encode_utf8_nonempty n). lia.
Qed.

(** [core::str::from_utf8]'s check accepts exactly the encodings of
    sequences of scalar values. *)
Lemma utf8_valid_iff bs : utf8_valid bs = true <-> utf8_encoding bs.
Proof. split; [apply utf8_valid_sound | apply utf8_valid_encoding]. Qed.

(** [String::deserialize] on a length prefix that is right: [from_utf8]
    decides. *)
Lemma de_string_prefixed bs rest :
  Z.of_nat (length bs) < 2 ^ 32 ->
  de_string (ser_u32 (Z.of_nat (length bs)) ++ bs ++ rest) =
    if utf8_valid bs then Ok (string_of_bytes bs, rest) else Err InvalidUtf8.
Proof.
  intros Hlen. unfold de_string. rewrite de_u32_ser_u32 by lia. cbn [result_bind].
  by rewrite Nat2Z.id, take_bytes_app.
Qed.

(** C20. A stored [String] -- a u32 length and that many bytes --
    decodes exactly when its bytes are text: [String::deserialize]
    returns the string of those bytes, and the bytes after them, iff
    the bytes are the UTF-8 encoding ([char::encode_utf8]) of a
    sequence of Unicode scalar values; it fails with [InvalidUtf8]
    iff they are not (an overlong form, a surrogate, a code point
    above U+10FFFF, a stray or missing continuation byte). *)
Theorem de_string_utf8 bs rest :
  Z.of_nat (length bs) < 2 ^ 32 ->
  (de_string (ser_u32 (Z.of_nat (length bs)) ++ bs ++ rest) = Ok (string_of_bytes bs, rest)
     <-> utf8_encoding bs) /\
  (de_string (ser_u32 (Z.of_nat (length bs)) ++ bs ++ rest) = Err InvalidUtf8
     <-> ~ utf8_encoding bs).
Proof.
  intros Hlen. rewrite de_string_prefixed, <- utf8_valid_iff by done.
  destruct (utf8_valid bs); split; split; done.
Qed.

(** The three bytes of "€" (U+20AC) behind their length. *)
Lemma de_string_utf8_witness :
  Z.of_nat (length [0xE2; 0x82; 0xAC]) < 2 ^ 32 /\
  ((de_string (ser_u32 3 ++ [0xE2; 0x82; 0xAC] ++ []) = Ok (string_of_bytes [0xE2; 0x82; 0xAC], [])
     <-> utf8_encoding [0xE2; 0x82; 0xAC]) /\
   (de_string (ser_u32 3 ++ [0xE2; 0x82; 0xAC] ++ []) = Err InvalidUtf8
     <-> ~ utf8_encoding [0xE2; 0x82; 0xAC])).
Proof. split; [simpl; lia | apply (de_string_utf8 [0xE2; 0x82; 0xAC] []); simpl; lia]. Defined.

End Utf8.
