(* ===== verification/Json.v ===== *)
(** * The derived JSON encoding of the contract's types (lines 20-41, 43)

    [#[derive(Serialize, Deserialize)]] on [Token] (line 20),
    [TokenMetadata] (line 27) and [NFTContractMetadata] (line 35), and
    the argument structs [#[near_bindgen]] (line 43) derives for [new],
    [mint_nft] and [nft_token], on top of [JsonText]:

    - [Serialize]: the fields in declaration order, with their names;
    - [Deserialize]: the generated [visit_map] (keys in any order, a
      repeated field refused with [duplicate_field], unknown fields
      skipped with [IgnoredAny], then [missing_field]: [None] for an
      [Option] field, an error otherwise) and [visit_seq] (an array of
      the fields in order, [invalid_length] when one is missing);
    - an [AccountId] ([owner_id]) is read as a string and then checked
      with [AccountId::validate].

    The locals [__field0], [__field1], ... of each generated visitor are
    a record of options ([TokenMetadataSlots], ...); a [Field] reads one
    of them.  The theorems: what is written reads back (for every
    struct and argument struct); a missing or repeated field is
    refused; the array form is accepted. *)

From stdpp Require Import base strings list.
From Stdlib Require Import ZArith Lia.
From S2P Require Import Prelude Types Account Borsh JsonText.
Import JsonText.

Module Json.

Local Open Scope Z_scope.

(** ** [Serialize]: the fields in declaration order *)

Definition ser_token_metadata (m : TokenMetadata) : list Z :=
  ser_struct [("title", ser_option ser_str (title m));
              ("description", ser_option ser_str (description m));
              ("media", ser_option ser_str (media m))].

Definition ser_token (t : Token) : list Z :=
  ser_struct [("owner_id", ser_str (owner_id t));
              ("metadata", ser_token_metadata (metadata t))].

Definition ser_nft_contract_metadata (m : NFTContractMetadata) : list Z :=
  ser_struct [("spec", ser_str (spec m)); ("name", ser_str (name m));
              ("symbol", ser_str (symbol m))].

(** [AccountId::deserialize]: a string, then [AccountId::validate]. *)
Definition deserialize_account_id (fuel : nat) : Parser AccountId := fun input =>
  let! (s, r) := deserialize_string fuel input in
  if Account.valid_account_id s then Ok (s, r) else Err InvalidAccountId.

(** ** [Deserialize]: the generated visitors *)

(** A field of a derived [Deserialize]: its name, whether its local
    [__fieldN] is already [Some], and [next_value::<T>()] stored there.
    [St] holds the locals of the generated [visit_map]. *)
Record Field (St : Type) := mkField {
  field_name : string;
  field_set : St -> bool;
  field_read : nat -> St -> Parser St;
}.
Arguments mkField {St} field_name field_set field_read.
Arguments field_name {St} f.
Arguments field_set {St} f s.
Arguments field_read {St} f fuel s _.

(** Byte-wise equality of two strings ([<str as PartialEq>::eq]). *)
Fixpoint bytes_eqb (a b : list Z) : bool :=
  match a, b with
  | [], [] => true
  | x :: a', y :: b' => (x =? y) && bytes_eqb a' b'
  | _, _ => false
  end.

(** The generated [__FieldVisitor::visit_str]: the field of that name,
    or [__ignore]. *)
Fixpoint find_field {St} (k : list Z) (fields : list (Field St)) : option (Field St) :=
  match fields with
  | [] => None
  | f :: fs => if bytes_eqb k (bytes_of_string (field_name f)) then Some f else find_field k fs
  end.

(** The generated [visit_map]: keys in any order, a repeated field is
    [duplicate_field], an unknown one's value is [IgnoredAny]. *)
Fixpoint visit_map {St} (fields : list (Field St)) (fuel : nat) (first : bool) (slots : St)
  : Parser St := fun input =>
  match fuel with
  | O => Err OutOfFuel
  | S fuel' =>
      let! (key, r1) := next_key fuel' first input in
      match key with
      | None => Ok (slots, r1)
      | Some k =>
          match find_field k fields with
          | Some f =>
              if field_set f slots then Err (DuplicateField (field_name f)) else
              let! r2 := parse_object_colon r1 in
              let! (slots', r3) := field_read f fuel' slots r2 in
              visit_map fields fuel' false slots' r3
          | None =>
              let! r2 := parse_object_colon r1 in
              let! r3 := ignore_value fuel' r2 in
              visit_map fields fuel' false slots r3
          end
      end
  end.

(** The generated [visit_seq]: the fields in declaration order; a
    missing element is [invalid_length]. *)
Fixpoint visit_seq {St} (fields : list (Field St)) (fuel : nat) (i : nat) (first : bool)
  (slots : St) : Parser St := fun input =>
  match fields with
  | [] => Ok (slots, input)
  | f :: fs =>
      let! present := next_element first input in
      match present with
      | None => Err (InvalidLength i)
      | Some r1 =>
          let! (slots', r2) := field_read f fuel slots r1 in
          visit_seq fs fuel (S i) false slots' r2
      end
  end.

(** [deserialize_struct]: an array goes to [visit_seq], an object to
    [visit_map]; [finish] is the end of the generated visitor, which
    applies [missing_field] to the locals still [None]. *)
Definition deserialize_struct {St T} (fields : list (Field St)) (empty : St)
  (finish : St -> result T JsonError) (fuel : nat) : Parser T := fun input =>
  match fuel with
  | O => Err OutOfFuel
  | S fuel' =>
      match parse_whitespace input with
      | [] => Err EofWhileParsingValue
      | b :: rest =>
          if b =? 91 then
            let! (slots, r1) := visit_seq fields fuel' 0 true empty rest in
            let! t := finish slots in
            let! r2 := end_seq r1 in Ok (t, r2)
          else if b =? 123 then
            let! (slots, r1) := visit_map fields fuel' true empty rest in
            let! t := finish slots in
            let! r2 := end_map r1 in Ok (t, r2)
          else Err InvalidType
      end
  end.

(** [missing_field] for an [Option] field: [None]; for any other field:
    the error. *)
Definition missing_option {A} (slot : option (option A)) : option A :=
  match slot with Some v => v | None => None end.

Definition required {A} (slot : option A) (field : string) : result A JsonError :=
  match slot with Some v => Ok v | None => Err (MissingField field) end.

Definition slot_set {A} (slot : option A) : bool :=
  match slot with Some _ => true | None => false end.

(** Every field's reader makes progress when given twice the input's
    length and two more units of fuel. *)
Definition reads_progress {St} (fields : list (Field St)) : Prop :=
  Forall (fun f => forall fuel s input,
    (2 * length input + 2 <= fuel)%nat -> progresses lt input (field_read f fuel s input)) fields.

(** Every field's reader keeps the predicate [P] of the locals when it
    reads from at most [n] bytes with that much fuel. *)
Definition reads_keep {St} (fields : list (Field St)) (P : St -> Prop) (n : nat) : Prop :=
  Forall (fun f => forall fuel s input s' r,
    (2 * length input + 2 <= fuel)%nat -> (length input <= n)%nat ->
    P s -> field_read f fuel s input = Ok (s', r) -> P s') fields.

(** ** The derived [Deserialize] of each struct

    Each record holds the locals [__field0], [__field1], ... of the
    generated visitor; each [Field] stores the value it reads in its own
    local. *)

Record TokenMetadataSlots := mkTokenMetadataSlots {
  tm_title : option (option string);
  tm_description : option (option string);
  tm_media : option (option string);
}.

Definition token_metadata_fields : list (Field TokenMetadataSlots) :=
  [mkField "title" (fun s => slot_set (tm_title s))
     (fun fuel s input =>
        let! (v, r) := deserialize_option deserialize_string fuel input in
        Ok (mkTokenMetadataSlots (Some v) (tm_description s) (tm_media s), r));
   mkField "description" (fun s => slot_set (tm_description s))
     (fun fuel s input =>
        let! (v, r) := deserialize_option deserialize_string fuel input in
        Ok (mkTokenMetadataSlots (tm_title s) (Some v) (tm_media s), r));
   mkField "media" (fun s => slot_set (tm_media s))
     (fun fuel s input =>
        let! (v, r) := deserialize_option deserialize_string fuel input in
        Ok (mkTokenMetadataSlots (tm_title s) (tm_description s) (Some v), r))].

Definition finish_token_metadata (s : TokenMetadataSlots) : result TokenMetadata JsonError :=
  Ok (mkTokenMetadata (missing_option (tm_title s)) (missing_option (tm_description s))
                      (missing_option (tm_media s))).

(** [TokenMetadata::deserialize] (line 27). *)
Definition deserialize_token_metadata : nat -> Parser TokenMetadata :=
  deserialize_struct token_metadata_fields (mkTokenMetadataSlots None None None)
                     finish_token_metadata.

Record TokenSlots := mkTokenSlots {
  tok_owner_id : option AccountId;
  tok_metadata : option TokenMetadata;
}.

Definition token_fields : list (Field TokenSlots) :=
  [mkField "owner_id" (fun s => slot_set (tok_owner_id s))
     (fun fuel s input =>
        let! (v, r) := deserialize_account_id fuel input in
        Ok (mkTokenSlots (Some v) (tok_metadata s), r));
   mkField "metadata" (fun s => slot_set (tok_metadata s))
     (fun fuel s input =>
        let! (v, r) := deserialize_token_metadata fuel input in
        Ok (mkTokenSlots (tok_owner_id s) (Some v), r))].

Definition finish_token (s : TokenSlots) : result Token JsonError :=
  let! o := required (tok_owner_id s) "owner_id" in
  let! m := required (tok_metadata s) "metadata" in
  Ok (mkToken o m).

(** [Token::deserialize] (line 20). *)
Definition deserialize_token : nat -> Parser Token :=
  deserialize_struct token_fields (mkTokenSlots None None) finish_token.

Record ContractMetadataSlots := mkContractMetadataSlots {
  cm_spec : option string;
  cm_name : option string;
  cm_symbol : option string;
}.

Definition nft_contract_metadata_fields : list (Field ContractMetadataSlots) :=
  [mkField "spec" (fun s => slot_set (cm_spec s))
     (fun fuel s input =>
        let! (v, r) := deserialize_string fuel input in
        Ok (mkContractMetadataSlots (Some v) (cm_name s) (cm_symbol s), r));
   mkField "name" (fun s => slot_set (cm_name s))
     (fun fuel s input =>
        let! (v, r) := deserialize_string fuel input in
        Ok (mkContractMetadataSlots (cm_spec s) (Some v) (cm_symbol s), r));
   mkField "symbol" (fun s => slot_set (cm_symbol s))
     (fun fuel s input =>
        let! (v, r) := deserialize_string fuel input in
        Ok (mkContractMetadataSlots (cm_spec s) (cm_name s) (Some v), r))].

Definition finish_nft_contract_metadata (s : ContractMetadataSlots)
  : result NFTContractMetadata JsonError :=
  let! sp := required (cm_spec s) "spec" in
  let! n := required (cm_name s) "name" in
  let! sy := required (cm_symbol s) "symbol" in
  Ok (mkNFTContractMetadata sp n sy).

(** [NFTContractMetadata::deserialize] (line 35). *)
Definition deserialize_nft_contract_metadata : nat -> Parser NFTContractMetadata :=
  deserialize_struct nft_contract_metadata_fields (mkContractMetadataSlots None None None)
                     finish_nft_contract_metadata.

(** ** The argument structs [#[near_bindgen]] derives

    For [new(owner_id: AccountId, name: String, symbol: String)] (line
    46), [mint_nft(token_id: String, metadata: TokenMetadata)] (line 60)
    and [nft_token(token_id: String)] (line 75), a struct [Input] with
    the arguments as fields, [#[derive(Deserialize)]]. *)

Record NewInputSlots := mkNewInputSlots {
  in_owner_id : option AccountId;
  in_name : option string;
  in_symbol : option string;
}.

Definition new_input_fields : list (Field NewInputSlots) :=
  [mkField "owner_id" (fun s => slot_set (in_owner_id s))
     (fun fuel s input =>
        let! (v, r) := deserialize_account_id fuel input in
        Ok (mkNewInputSlots (Some v) (in_name s) (in_symbol s), r));
   mkField "name" (fun s => slot_set (in_name s))
     (fun fuel s input =>
        let! (v, r) := deserialize_string fuel input in
        Ok (mkNewInputSlots (in_owner_id s) (Some v) (in_symbol s), r));
   mkField "symbol" (fun s => slot_set (in_symbol s))
     (fun fuel s input =>
        let! (v, r) := deserialize_string fuel input in
        Ok (mkNewInputSlots (in_owner_id s) (in_name s) (Some v), r))].

Definition finish_new_input (s : NewInputSlots) : result (AccountId * string * string) JsonError :=
  let! o := required (in_owner_id s) "owner_id" in
  let! n := required (in_name s) "name" in
  let! sy := required (in_symbol s) "symbol" in
  Ok (o, n, sy).

Definition deserialize_new_input : nat -> Parser (AccountId * string * string) :=
  deserialize_struct new_input_fields (mkNewInputSlots None None None) finish_new_input.

Record MintInputSlots := mkMintInputSlots {
  in_token_id : option string;
  in_metadata : option TokenMetadata;
}.

Definition mint_nft_input_fields : list (Field MintInputSlots) :=
  [mkField "token_id" (fun s => slot_set (in_token_id s))
     (fun fuel s input =>
        let! (v, r) := deserialize_string fuel input in
        Ok (mkMintInputSlots (Some v) (in_metadata s), r));
   mkField "metadata" (fun s => slot_set (in_metadata s))
     (fun fuel s input =>
        let! (v, r) := deserialize_token_metadata fuel input in
        Ok (mkMintInputSlots (in_token_id s) (Some v), r))].

Definition finish_mint_nft_input (s : MintInputSlots) : result (string * TokenMetadata) JsonError :=
  let! t := required (in_token_id s) "token_id" in
  let! m := required (in_metadata s) "metadata" in
  Ok (t, m).

Definition deserialize_mint_nft_input : nat -> Parser (string * TokenMetadata) :=
  deserialize_struct mint_nft_input_fields (mkMintInputSlots None None) finish_mint_nft_input.

Definition nft_token_input_fields : list (Field (option string)) :=
  [mkField "token_id" slot_set
     (fun fuel s input => let! (v, r) := deserialize_string fuel input in Ok (Some v, r))].

Definition finish_nft_token_input (s : option string) : result string JsonError :=
  required s "token_id".

Definition deserialize_nft_token_input : nat -> Parser string :=
  deserialize_struct nft_token_input_fields None finish_nft_token_input.

(** The Rust types of the values a visitor's locals hold: [String]s
    ([Borsh.rust_string]) and [AccountId]s ([Borsh.rust_account_id]). *)
Definition token_metadata_slots_rust (s : TokenMetadataSlots) : bool :=
  Borsh.option_all (Borsh.option_all Borsh.rust_string) (tm_title s) &&
  Borsh.option_all (Borsh.option_all Borsh.rust_string) (tm_description s) &&
  Borsh.option_all (Borsh.option_all Borsh.rust_string) (tm_media s).

Definition mint_input_slots_rust (s : MintInputSlots) : bool :=
  Borsh.option_all Borsh.rust_string (in_token_id s) &&
  Borsh.option_all Borsh.rust_token_metadata (in_metadata s).

Definition new_input_slots_rust (s : NewInputSlots) : bool :=
  Borsh.option_all Borsh.rust_account_id (in_owner_id s) &&
  Borsh.option_all Borsh.rust_string (in_name s) && Borsh.option_all Borsh.rust_string (in_symbol s).

(** The argument objects as near-api clients write them. *)
Definition ser_new_input (owner name symbol : string) : list Z :=
  ser_struct [("owner_id", ser_str owner); ("name", ser_str name); ("symbol", ser_str symbol)].

Definition ser_mint_nft_input (token_id : string) (md : TokenMetadata) : list Z :=
  ser_struct [("token_id", ser_str token_id); ("metadata", ser_token_metadata md)].

Definition ser_nft_token_input (token_id : string) : list Z :=
  ser_struct [("token_id", ser_str token_id)].

(** ** Reading back what was written *)

(** [fields] read the printed key-value pairs [kvs] from the locals
    [s] to the locals [s']: each key names a field not yet set, whose
    reader gives the printed value back. *)
Inductive reads_fields {St} (fields : list (Field St)) : St -> list (string * list Z) -> St -> Prop :=
| reads_nil s : reads_fields fields s [] s
| reads_cons s k v kvs f s1 s2 :
    Borsh.utf8_valid (bytes_of_string k) = true ->
    find_field (bytes_of_string k) fields = Some f ->
    field_set f s = false ->
    (forall fuel r, (length (v ++ r) < fuel)%nat -> field_read f fuel s (v ++ r) = Ok (s1, r)) ->
    reads_fields fields s1 kvs s2 ->
    reads_fields fields s ((k, v) :: kvs) s2.

(** [fields] read the printed elements [items] in order, from the locals
    [s] to the locals [s']; each element starts with a byte that is
    neither whitespace nor a closing bracket. *)
Inductive reads_elems {St} : list (Field St) -> St -> list (list Z) -> St -> Prop :=
| elems_nil s : reads_elems [] s [] s
| elems_cons f fs s v vs s1 s2 :
    (exists b v', v = b :: v' /\ is_ws b = false /\ b <> 93) ->
    (forall fuel r, (length (v ++ r) < fuel)%nat -> field_read f fuel s (v ++ r) = Ok (s1, r)) ->
    reads_elems fs s1 vs s2 ->
    reads_elems (f :: fs) s (v :: vs) s2.

(** The values serde_json writes and reads back: strings valid UTF-8,
    account names valid. *)
Definition json_token_metadata (m : TokenMetadata) : bool :=
  Borsh.option_all json_string (title m) && Borsh.option_all json_string (description m) &&
  Borsh.option_all json_string (media m).

Definition json_account_id (s : AccountId) : bool :=
  json_string s && Account.valid_account_id s.

Definition json_token (t : Token) : bool :=
  json_account_id (owner_id t) && json_token_metadata (metadata t).

Definition json_nft_contract_metadata (m : NFTContractMetadata) : bool :=
  json_string (spec m) && json_string (name m) && json_string (symbol m).

Lemma visit_map_reads {St} (fields : list (Field St)) s kvs s' :
  reads_fields fields s kvs s' ->
  forall fuel first rest, (length (ser_fields first kvs ++ 125%Z :: rest) < fuel)%nat ->
  visit_map fields fuel first s (ser_fields first kvs ++ 125 :: rest) = Ok (s', 125 :: rest).
Proof.
  induction 1 as [s|s k v kvs f s1 s2 Hk Hfind Hset Hread _ IH]; intros fuel first rest Hf;
    (destruct fuel as [|fuel]; [simpl in Hf; lia|]); [reflexivity|].
  rewrite ser_fields_cons in *. pose proof (length_ser_str k).
  rewrite !length_app in Hf. cbn [length] in Hf. rewrite ?length_app in Hf.
  cbn [visit_map]. rewrite next_key_printed by first [exact Hk | lia]. cbn [result_bind].
  rewrite Hfind, Hset, parse_object_colon_printed. cbn [result_bind].
  rewrite Hread by (rewrite !length_app; lia). cbn [result_bind].
  apply IH. rewrite length_app. cbn [length] in *. lia.
Qed.

(** After reading the fields [kvs], [visit_map] goes on with the rest,
    with some fuel still more than the rest's length. *)
Lemma visit_map_reads_app {St} (fields : list (Field St)) s kvs s' :
  reads_fields fields s kvs s' ->
  forall fuel first tail, (length (ser_fields first kvs ++ tail) < fuel)%nat -> kvs <> [] ->
  exists fuel', (length tail < fuel')%nat /\
    visit_map fields fuel first s (ser_fields first kvs ++ tail) =
    visit_map fields fuel' false s' tail.
Proof.
  induction 1 as [s|s k v kvs f s1 s2 Hk Hfind Hset Hread Hkvs IH];
    intros fuel first tail Hf Hne; [done|].
  destruct fuel as [|fuel]; [simpl in Hf; lia|].
  rewrite ser_fields_cons in *. pose proof (length_ser_str k).
  rewrite !length_app in Hf. cbn [length] in Hf. rewrite ?length_app in Hf.
  cbn [visit_map]. rewrite next_key_printed by first [exact Hk | lia]. cbn [result_bind].
  rewrite Hfind, Hset, parse_object_colon_printed. cbn [result_bind].
  rewrite Hread by (rewrite !length_app; lia). cbn [result_bind].
  destruct kvs as [|kv kvs'].
  - inversion Hkvs; subst. exists fuel. split; [simpl in Hf; lia | done].
  - apply IH; [rewrite length_app; lia | done].
Qed.

(** A field that is already set, met again, is [duplicate_field]. *)
Lemma visit_map_duplicate {St} (fields : list (Field St)) s k v more f rest fuel :
  Borsh.utf8_valid (bytes_of_string k) = true ->
  find_field (bytes_of_string k) fields = Some f -> field_set f s = true ->
  (length (ser_fields false ((k, v) :: more) ++ rest) < fuel)%nat ->
  visit_map fields fuel false s (ser_fields false ((k, v) :: more) ++ rest) =
  Err (DuplicateField (field_name f)).
Proof.
  intros Hk Hfind Hset Hf. destruct fuel as [|fuel]; [simpl in Hf; lia|].
  rewrite ser_fields_cons in *. pose proof (length_ser_str k).
  rewrite !length_app in Hf. cbn [length] in Hf.
  cbn [visit_map]. rewrite next_key_printed by first [exact Hk | lia]. cbn [result_bind].
  by rewrite Hfind, Hset.
Qed.

(** A field whose reader fails stops [visit_map] with that error. *)
Lemma visit_map_field_error {St} (fields : list (Field St)) s k v more f e fuel first rest :
  Borsh.utf8_valid (bytes_of_string k) = true ->
  find_field (bytes_of_string k) fields = Some f -> field_set f s = false ->
  (forall fuel', (length (v ++ ser_fields false more ++ rest) < fuel')%nat ->
     field_read f fuel' s (v ++ ser_fields false more ++ rest) = Err e) ->
  (length (ser_fields first ((k, v) :: more) ++ rest) < fuel)%nat ->
  visit_map fields fuel first s (ser_fields first ((k, v) :: more) ++ rest) = Err e.
Proof.
  intros Hk Hfind Hset Hread Hf. destruct fuel as [|fuel]; [simpl in Hf; lia|].
  rewrite ser_fields_cons in *. pose proof (length_ser_str k).
  rewrite !length_app in Hf. cbn [length] in Hf. rewrite ?length_app in Hf.
  cbn [visit_map]. rewrite next_key_printed by first [exact Hk | lia]. cbn [result_bind].
  rewrite Hfind, Hset, parse_object_colon_printed. cbn [result_bind].
  rewrite Hread by (rewrite !length_app; lia). reflexivity.
Qed.

(** A derived struct reading an object written from its fields ends
    with the generated [missing_field] checks on what it read. *)
Lemma deserialize_struct_object {St T} (fields : list (Field St)) empty
      (finish : St -> result T JsonError) kvs s' fuel rest :
  reads_fields fields empty kvs s' ->
  (length (ser_struct kvs ++ rest) < fuel)%nat ->
  deserialize_struct fields empty finish fuel (ser_struct kvs ++ rest) =
  let! t := finish s' in Ok (t, rest).
Proof.
  intros Hr Hf. destruct fuel as [|fuel]; [lia|].
  unfold deserialize_struct, ser_struct. rewrite <- app_comm_cons, <- app_assoc. simpl.
  rewrite (visit_map_reads fields empty kvs s' Hr).
  - simpl. by destruct (finish s').
  - unfold ser_struct in Hf. simpl in Hf. rewrite !length_app in *. simpl in *. lia.
Qed.

(** A derived struct reads back the object written from its fields. *)
Lemma deserialize_struct_printed {St T} (fields : list (Field St)) empty
      (finish : St -> result T JsonError) kvs s' t fuel rest :
  reads_fields fields empty kvs s' -> finish s' = Ok t ->
  (length (ser_struct kvs ++ rest) < fuel)%nat ->
  deserialize_struct fields empty finish fuel (ser_struct kvs ++ rest) = Ok (t, rest).
Proof.
  intros Hr Hfin Hf. rewrite (deserialize_struct_object _ _ _ _ _ _ _ Hr Hf). by rewrite Hfin.
Qed.

Lemma deserialize_account_id_printed s fuel r :
  json_account_id s = true -> (length (ser_str s ++ r) < fuel)%nat ->
  deserialize_account_id fuel (ser_str s ++ r) = Ok (s, r).
Proof.
  intros [Hs Hv]%andb_prop Hf. unfold deserialize_account_id.
  rewrite deserialize_string_printed by done. simpl. by rewrite ?Hv.
Qed.

(** One field of a derived struct: the key is found, was not set, and
    its reader gives the printed value back by [lem]. *)
Ltac read_field lem :=
  eapply reads_cons;
  [ reflexivity | reflexivity | reflexivity
  | let fuel := fresh "fuel" in let r := fresh "r" in let Hf := fresh "Hf" in
    intros fuel r Hf; cbn [field_read]; rewrite lem by first [assumption | done];
    reflexivity
  | ].

Lemma token_metadata_reads m :
  json_token_metadata m = true ->
  reads_fields token_metadata_fields (mkTokenMetadataSlots None None None)
    [("title", ser_option ser_str (title m));
     ("description", ser_option ser_str (description m));
     ("media", ser_option ser_str (media m))]
    (mkTokenMetadataSlots (Some (title m)) (Some (description m)) (Some (media m))).
Proof.
  destruct m as [t d md]; simpl. intros [[Ht Hd]%andb_prop Hm]%andb_prop.
  do 3 read_field deserialize_option_string_printed. apply reads_nil.
Qed.

Lemma token_metadata_printed m fuel rest :
  json_token_metadata m = true -> (length (ser_token_metadata m ++ rest) < fuel)%nat ->
  deserialize_token_metadata fuel (ser_token_metadata m ++ rest) = Ok (m, rest).
Proof.
  intros Hm. apply (deserialize_struct_printed _ _ _ _ _ _ _ _ (token_metadata_reads m Hm)).
  by destruct m.
Qed.

Lemma token_reads t :
  json_token t = true ->
  reads_fields token_fields (mkTokenSlots None None)
    [("owner_id", ser_str (owner_id t)); ("metadata", ser_token_metadata (metadata t))]
    (mkTokenSlots (Some (owner_id t)) (Some (metadata t))).
Proof.
  destruct t as [o m]; simpl. intros [Ho Hm]%andb_prop.
  read_field deserialize_account_id_printed. read_field token_metadata_printed.
  apply reads_nil.
Qed.

Lemma token_printed t fuel rest :
  json_token t = true -> (length (ser_token t ++ rest) < fuel)%nat ->
  deserialize_token fuel (ser_token t ++ rest) = Ok (t, rest).
Proof.
  intros Ht. apply (deserialize_struct_printed _ _ _ _ _ _ _ _ (token_reads t Ht)).
  by destruct t.
Qed.

Lemma nft_contract_metadata_reads m :
  json_nft_contract_metadata m = true ->
  reads_fields nft_contract_metadata_fields (mkContractMetadataSlots None None None)
    [("spec", ser_str (spec m)); ("name", ser_str (name m)); ("symbol", ser_str (symbol m))]
    (mkContractMetadataSlots (Some (spec m)) (Some (name m)) (Some (symbol m))).
Proof.
  destruct m as [sp n sy]; simpl. intros [[Hsp Hn]%andb_prop Hsy]%andb_prop.
  do 3 read_field deserialize_string_printed. apply reads_nil.
Qed.

Lemma nft_contract_metadata_printed m fuel rest :
  json_nft_contract_metadata m = true ->
  (length (ser_nft_contract_metadata m ++ rest) < fuel)%nat ->
  deserialize_nft_contract_metadata fuel (ser_nft_contract_metadata m ++ rest) = Ok (m, rest).
Proof.
  intros Hm.
  apply (deserialize_struct_printed _ _ _ _ _ _ _ _ (nft_contract_metadata_reads m Hm)).
  by destruct m.
Qed.

Lemma new_input_printed owner n sy fuel rest :
  json_account_id owner && json_string n && json_string sy = true ->
  (length (ser_new_input owner n sy ++ rest) < fuel)%nat ->
  deserialize_new_input fuel (ser_new_input owner n sy ++ rest) = Ok ((owner, n, sy), rest).
Proof.
  intros [[Ho Hn]%andb_prop Hsy]%andb_prop. apply deserialize_struct_printed with
    (s' := mkNewInputSlots (Some owner) (Some n) (Some sy)); [|done].
  read_field deserialize_account_id_printed.
  do 2 read_field deserialize_string_printed. apply reads_nil.
Qed.

Lemma mint_nft_input_printed token_id md fuel rest :
  json_string token_id && json_token_metadata md = true ->
  (length (ser_mint_nft_input token_id md ++ rest) < fuel)%nat ->
  deserialize_mint_nft_input fuel (ser_mint_nft_input token_id md ++ rest) =
  Ok ((token_id, md), rest).
Proof.
  intros [Ht Hm]%andb_prop. apply deserialize_struct_printed with
    (s' := mkMintInputSlots (Some token_id) (Some md)); [|done].
  read_field deserialize_string_printed. read_field token_metadata_printed.
  apply reads_nil.
Qed.

Lemma nft_token_input_printed token_id fuel rest :
  json_string token_id = true ->
  (length (ser_nft_token_input token_id ++ rest) < fuel)%nat ->
  deserialize_nft_token_input fuel (ser_nft_token_input token_id ++ rest) = Ok (token_id, rest).
Proof.
  intros Ht. apply deserialize_struct_printed with (s' := Some token_id); [|done].
  read_field deserialize_string_printed. apply reads_nil.
Qed.

(** C27. [Token]'s derived [Serialize] and [Deserialize] agree: the
    JSON [nft_token] returns for a token (valid UTF-8 strings, a valid
    account name) reads back as the same token. *)
Theorem token_json_roundtrip t :
  json_token t = true -> from_slice deserialize_token (ser_token t) = Ok t.
Proof. intros Ht. apply from_slice_printed. intros. by apply token_printed. Qed.

(** C28. The same for the collection metadata [nft_metadata] returns. *)
Theorem nft_contract_metadata_json_roundtrip m :
  json_nft_contract_metadata m = true ->
  from_slice deserialize_nft_contract_metadata (ser_nft_contract_metadata m) = Ok m.
Proof. intros Hm. apply from_slice_printed. intros. by apply nft_contract_metadata_printed. Qed.

(** C29. The arguments of [mint_nft] without [metadata] are refused
    with [missing field], whatever the token id. *)
Theorem mint_nft_input_missing_metadata token_id :
  json_string token_id = true ->
  from_slice deserialize_mint_nft_input (ser_struct [("token_id", ser_str token_id)]) =
  Err (MissingField "metadata").
Proof.
  intros Ht. unfold from_slice, fuel_for. rewrite <- (app_nil_r (ser_struct _)).
  unfold deserialize_mint_nft_input.
  rewrite deserialize_struct_object with
    (s' := mkMintInputSlots (Some token_id) None) by (try lia;
      read_field deserialize_string_printed; apply reads_nil).
  reflexivity.
Qed.

(** C30. A repeated [token_id] in the arguments of [mint_nft] is
    refused with [duplicate field], whatever the two values and the
    fields after them. *)
Theorem mint_nft_input_duplicate_token_id a b more :
  json_string a = true ->
  from_slice deserialize_mint_nft_input
    (ser_struct (("token_id", ser_str a) :: ("token_id", ser_str b) :: more)) =
  Err (DuplicateField "token_id").
Proof.
  intros Ha. unfold from_slice, fuel_for, deserialize_mint_nft_input, ser_struct.
  change (("token_id", ser_str a) :: ("token_id", ser_str b) :: more)
    with (("token_id", ser_str a) :: [] ++ ("token_id", ser_str b) :: more).
  rewrite ser_fields_app. remember (length _) as n eqn:En.
  unfold deserialize_struct. cbn -[ser_fields ser_str visit_map]. rewrite <- app_assoc.
  assert (Hr : reads_fields mint_nft_input_fields (mkMintInputSlots None None)
                 [("token_id", ser_str a)] (mkMintInputSlots (Some a) None))
    by (read_field deserialize_string_printed; apply reads_nil).
  destruct (visit_map_reads_app _ _ _ _ Hr (S (n + (n + 0))) true
              (ser_fields false (("token_id", ser_str b) :: more) ++ [125]))
    as (fuel' & Hf' & ->).
  { subst n. rewrite !length_app. cbn [length]. rewrite !length_app. cbn [length]. lia. }
  { done. }
  erewrite visit_map_duplicate; [| reflexivity | reflexivity | reflexivity | lia].
  reflexivity.
Qed.

Lemma deserialize_account_id_invalid s fuel r :
  json_string s = true -> Account.valid_account_id s = false ->
  (length (ser_str s ++ r) < fuel)%nat ->
  deserialize_account_id fuel (ser_str s ++ r) = Err InvalidAccountId.
Proof.
  intros Hs Hv Hf. unfold deserialize_account_id.
  rewrite deserialize_string_printed by done. simpl. by rewrite Hv.
Qed.

(** The arguments of [new] with an [owner_id] that is not a valid
    account name are refused. *)
Lemma new_input_invalid_owner owner n sy :
  json_string owner = true -> Account.valid_account_id owner = false ->
  from_slice deserialize_new_input (ser_new_input owner n sy) = Err InvalidAccountId.
Proof.
  intros Ho Hv. unfold from_slice, fuel_for, deserialize_new_input, ser_new_input, ser_struct.
  remember (length _) as len eqn:En.
  unfold deserialize_struct. cbn -[ser_fields ser_str visit_map].
  erewrite visit_map_field_error; [| reflexivity | reflexivity | reflexivity | |].
  - reflexivity.
  - intros fuel' Hf'. cbn [field_read]. by rewrite deserialize_account_id_invalid.
  - subst len. length_lia.
Qed.

Lemma visit_seq_reads {St} (fields : list (Field St)) s items s' :
  reads_elems fields s items s' ->
  forall fuel i first rest, (length (ser_elems first items ++ 93%Z :: rest) < fuel)%nat ->
  visit_seq fields fuel i first s (ser_elems first items ++ 93 :: rest) = Ok (s', 93 :: rest).
Proof.
  induction 1 as [s|f fs s v0 vs s1 s2 (b & v & -> & Hws & Hb) Hread _ IH];
    intros fuel i first rest Hf; [reflexivity|].
  assert (E : ser_elems first ((b :: v) :: vs) ++ 93 :: rest =
              (if first then [] else [44]) ++ b :: v ++ (ser_elems false vs ++ 93 :: rest))
    by (cbn [ser_elems]; rewrite <- ?app_assoc, <- ?app_comm_cons, <- ?app_assoc; reflexivity).
  rewrite E in *. cbn [visit_seq].
  assert (Hn : next_element first ((if first then [] else [44]) ++ b :: v ++
                 (ser_elems false vs ++ 93 :: rest)) =
               Ok (Some (b :: v ++ (ser_elems false vs ++ 93 :: rest)))).
  { assert (Hb' : (b =? 93) = false) by (apply Z.eqb_neq; done).
    unfold next_element. destruct first; do 3 (simpl; rewrite ?Hws, ?Hb', ?andb_false_r); reflexivity. }
  rewrite Hn. cbn [result_bind].
  pose proof (Hread fuel (ser_elems false vs ++ 93 :: rest)) as Hr. cbn [app] in Hr.
  rewrite Hr by length_lia. cbn [result_bind].
  apply IH. length_lia.
Qed.

(** A derived struct reads back the array of its fields in order. *)
Lemma deserialize_struct_array {St T} (fields : list (Field St)) empty
      (finish : St -> result T JsonError) items s' t fuel rest :
  reads_elems fields empty items s' -> finish s' = Ok t ->
  (length (ser_seq items ++ rest) < fuel)%nat ->
  deserialize_struct fields empty finish fuel (ser_seq items ++ rest) = Ok (t, rest).
Proof.
  intros Hr Hfin Hf. destruct fuel as [|fuel]; [lia|].
  unfold deserialize_struct, ser_seq. rewrite <- app_comm_cons, <- app_assoc. simpl.
  rewrite (visit_seq_reads fields empty items s' Hr); [|unfold ser_seq in Hf; length_lia].
  simpl. by rewrite Hfin.
Qed.

(** The arguments of [mint_nft] are also accepted as an array of
    the two values in declaration order, [\[token_id, metadata\]], as
    the derived [visit_seq] reads a struct. *)
Theorem mint_nft_input_array_form token_id md :
  json_string token_id && json_token_metadata md = true ->
  from_slice deserialize_mint_nft_input (ser_seq [ser_str token_id; ser_token_metadata md]) =
  Ok (token_id, md).
Proof.
  intros [Ht Hm]%andb_prop. apply from_slice_printed. intros fuel rest Hf.
  apply deserialize_struct_array with (s' := mkMintInputSlots (Some token_id) (Some md));
    [|done|done].
  apply elems_cons with (s1 := mkMintInputSlots (Some token_id) None).
  { by eexists 34, _. }
  { intros fuel' r Hf'. cbn [field_read]. by rewrite deserialize_string_printed. }
  apply elems_cons with (s1 := mkMintInputSlots (Some token_id) (Some md)).
  { by eexists 123, _. }
  { intros fuel' r Hf'. cbn [field_read]. by rewrite token_metadata_printed. }
  apply elems_nil.
Qed.

Lemma deserialize_account_id_progress fuel input :
  (length input < fuel)%nat -> progresses lt input (deserialize_account_id fuel input).
Proof.
  intros Hf. pose proof (deserialize_string_progress fuel input Hf) as H.
  unfold deserialize_account_id.
  destruct (deserialize_string fuel input) as [[v r]|e]; simpl in *; [|done].
  by repeat case_match.
Qed.

Lemma find_field_in {St} k (fields : list (Field St)) f :
  find_field k fields = Some f -> f ∈ fields.
Proof.
  induction fields as [|f' fields IH]; simpl; [done|].
  case_match; [intros [= ->]; by left | intros; right; auto].
Qed.

Section FieldProgress.
Context {St : Type} (fields : list (Field St)).
Hypothesis fields_progress : reads_progress fields.

Lemma visit_map_progress fuel first s input :
  (2 * length input + 2 <= fuel)%nat -> progresses le input (visit_map fields fuel first s input).
Proof.
  revert first s input. induction fuel as [|fuel IH]; intros first s input Hf; [lia|].
  cbn [visit_map]. pose proof (next_key_progress fuel first input ltac:(lia)) as Hk.
  destruct (next_key fuel first input) as [[[k|] r1]|e]; cbn [result_bind]; [|simpl; lia|done].
  pose proof (parse_object_colon_skips r1) as Hc.
  destruct (find_field k fields) as [f|] eqn:Ef.
  - destruct (field_set f s); [done|].
    destruct (parse_object_colon r1) as [r2|e]; cbn [result_bind]; [|done]. simpl in Hc.
    pose proof (proj1 (Forall_forall _ _) fields_progress f (find_field_in _ _ _ Ef)
                  fuel s r2 ltac:(lia)) as Hr.
    destruct (field_read f fuel s r2) as [[s' r3]|e]; cbn [result_bind]; [|done]. simpl in Hr.
    eapply progresses_le_weaken; [apply IH; lia | lia].
  - destruct (parse_object_colon r1) as [r2|e]; cbn [result_bind]; [|done]. simpl in Hc.
    pose proof (proj1 (ignore_progress fuel) r2 ltac:(lia)) as Hi.
    destruct (ignore_value fuel r2) as [r3|e]; cbn [result_bind]; [|done]. simpl in Hi.
    eapply progresses_le_weaken; [apply IH; lia | lia].
Qed.

Lemma visit_seq_progress fuel i first s input :
  (2 * length input + 2 <= fuel)%nat -> progresses le input (visit_seq fields fuel i first s input).
Proof.
  pose proof fields_progress as Hp. unfold reads_progress in Hp.
  revert i first s input. induction Hp as [|f fs Hf Hfs IH];
    intros i first s input Hfuel; simpl; [lia|].
  pose proof (next_element_progress first input) as He.
  destruct (next_element first input) as [[r1|]|e]; cbn [result_bind]; [|done|done].
  simpl in He. pose proof (Hf fuel s r1 ltac:(lia)) as Hr.
  destruct (field_read f fuel s r1) as [[s' r2]|e]; cbn [result_bind]; [|done]. simpl in Hr.
  eapply progresses_le_weaken; [apply IH; [exact Hfs | lia] | lia].
Qed.

Lemma deserialize_struct_progress {T} empty (finish : St -> result T JsonError) fuel input :
  (forall s, finish s <> Err OutOfFuel) ->
  (2 * length input + 2 <= fuel)%nat ->
  progresses lt input (deserialize_struct fields empty finish fuel input).
Proof.
  intros Hfin Hf. destruct fuel as [|fuel]; [lia|]. cbn [deserialize_struct].
  unfold deserialize_struct. pose proof (parse_whitespace_length input) as Hw.
  destruct (parse_whitespace input) as [|b rest]; [done|]. simpl in Hw.
  destruct (b =? 91); [|destruct (b =? 123); [|done]].
  - pose proof (visit_seq_progress fuel 0 true empty rest ltac:(lia)) as Hv.
    destruct (visit_seq fields fuel 0 true empty rest) as [[sl r1]|e]; cbn [result_bind]; [|done].
    simpl in Hv. pose proof (Hfin sl). destruct (finish sl) as [t|e]; cbn [result_bind];
      [|intros ->; contradiction].
    pose proof (end_seq_skips r1) as He.
    destruct (end_seq r1) as [r2|e]; simpl in *; [lia|done].
  - pose proof (visit_map_progress fuel true empty rest ltac:(lia)) as Hv.
    destruct (visit_map fields fuel true empty rest) as [[sl r1]|e]; cbn [result_bind]; [|done].
    simpl in Hv. pose proof (Hfin sl). destruct (finish sl) as [t|e]; cbn [result_bind];
      [|intros ->; contradiction].
    pose proof (end_map_skips r1) as He.
    destruct (end_map r1) as [r2|e]; simpl in *; [lia|done].
Qed.

End FieldProgress.

Lemma token_metadata_fields_progress : reads_progress token_metadata_fields.
Proof.
  repeat constructor; intros fuel' s input' Hf; cbn [field_read];
    apply progresses_map, deserialize_option_progress, deserialize_string_progress; lia.
Qed.

Lemma token_metadata_progress fuel input :
  (2 * length input + 2 <= fuel)%nat ->
  progresses lt input (deserialize_token_metadata fuel input).
Proof. apply deserialize_struct_progress; [apply token_metadata_fields_progress|done]. Qed.

Lemma mint_nft_input_fields_progress : reads_progress mint_nft_input_fields.
Proof.
  repeat constructor; intros fuel' s input' Hf; cbn [field_read]; apply progresses_map.
  - apply deserialize_string_progress; lia.
  - by apply token_metadata_progress.
Qed.

Lemma mint_nft_input_progress fuel input :
  (2 * length input + 2 <= fuel)%nat ->
  progresses lt input (deserialize_mint_nft_input fuel input).
Proof.
  apply deserialize_struct_progress; [apply mint_nft_input_fields_progress|].
  intros []; unfold finish_mint_nft_input, required; repeat case_match; discriminate.
Qed.

Lemma new_input_fields_progress : reads_progress new_input_fields.
Proof.
  repeat constructor; intros fuel' s input' Hf; cbn [field_read]; apply progresses_map.
  - apply deserialize_account_id_progress; lia.
  - apply deserialize_string_progress; lia.
  - apply deserialize_string_progress; lia.
Qed.

Lemma new_input_progress fuel input :
  (2 * length input + 2 <= fuel)%nat -> progresses lt input (deserialize_new_input fuel input).
Proof.
  apply deserialize_struct_progress; [apply new_input_fields_progress|].
  intros []; unfold finish_new_input, required; repeat case_match; discriminate.
Qed.

Lemma nft_token_input_fields_progress : reads_progress nft_token_input_fields.
Proof.
  repeat constructor; intros fuel' s input' Hf; cbn [field_read]; apply progresses_map.
  apply deserialize_string_progress; lia.
Qed.

Lemma nft_token_input_progress fuel input :
  (2 * length input + 2 <= fuel)%nat -> progresses lt input (deserialize_nft_token_input fuel input).
Proof.
  apply deserialize_struct_progress;
    [|intros []; unfold finish_nft_token_input, required; discriminate].
  repeat constructor; intros fuel' s input' Hf; cbn [field_read]; apply progresses_map.
  apply deserialize_string_progress; lia.
Qed.

(** ** What the readers guarantee of the values they return

    A derived visitor keeps every predicate of its locals that each
    field's reader keeps, for an input of at most [n] bytes read with
    the fuel [from_slice] gives: the fields only ever read parts of the
    input.  So the checks of the field types -- [AccountId]'s
    validation, [String]'s UTF-8 and its length -- hold of the struct
    the visitor returns. *)

Section FieldInvariant.
Context {St : Type} (fields : list (Field St)) (P : St -> Prop) (n : nat).
Hypothesis fields_progress : reads_progress fields.
Hypothesis fields_keep : reads_keep fields P n.

Lemma visit_map_keeps fuel first s input s' r :
  (2 * length input + 2 <= fuel)%nat -> (length input <= n)%nat ->
  P s -> visit_map fields fuel first s input = Ok (s', r) -> P s'.
Proof.
  revert first s input. induction fuel as [|fuel IH]; intros first s input Hf Hn Hs H; [done|].
  cbn [visit_map] in H. pose proof (next_key_progress fuel first input ltac:(lia)) as Hk.
  destruct (next_key fuel first input) as [[[k|] r1]|e]; cbn [result_bind] in H;
    [|by simplify_eq|done].
  simpl in Hk. pose proof (parse_object_colon_skips r1) as Hc.
  destruct (find_field k fields) as [f|] eqn:Ef.
  - destruct (field_set f s); [done|].
    destruct (parse_object_colon r1) as [r2|e]; cbn [result_bind] in H; [|done]. simpl in Hc.
    pose proof (proj1 (Forall_forall _ _) fields_progress f (find_field_in _ _ _ Ef)
                  fuel s r2 ltac:(lia)) as Hr.
    destruct (field_read f fuel s r2) as [[s1 r3]|e] eqn:Er; cbn [result_bind] in H; [|done].
    simpl in Hr. eapply IH; [| | | exact H]; [lia | lia |].
    refine (proj1 (Forall_forall _ _) fields_keep f (find_field_in _ _ _ Ef) _ _ _ _ _
              _ _ Hs Er); lia.
  - destruct (parse_object_colon r1) as [r2|e]; cbn [result_bind] in H; [|done]. simpl in Hc.
    pose proof (proj1 (ignore_progress fuel) r2 ltac:(lia)) as Hi.
    destruct (ignore_value fuel r2) as [r3|e]; cbn [result_bind] in H; [|done]. simpl in Hi.
    eapply IH; [| | exact Hs | exact H]; lia.
Qed.

Lemma visit_seq_keeps fuel i first s input s' r :
  (2 * length input + 2 <= fuel)%nat -> (length input <= n)%nat ->
  P s -> visit_seq fields fuel i first s input = Ok (s', r) -> P s'.
Proof.
  pose proof fields_progress as Hps. pose proof fields_keep as Hks.
  unfold reads_progress, reads_keep in *. clear fields_progress fields_keep.
  revert Hks i first s input.
  induction Hps as [|f fs Hp _ IH]; intros Hks i first s input Hf Hn Hs H; simpl in H;
    [by simplify_eq|].
  apply Forall_cons in Hks as [Hk Hks].
  pose proof (next_element_progress first input) as He.
  destruct (next_element first input) as [[r1|]|e]; cbn [result_bind] in H; [|done|done].
  simpl in He. pose proof (Hp fuel s r1 ltac:(lia)) as Hr.
  destruct (field_read f fuel s r1) as [[s1 r2]|e] eqn:Er; cbn [result_bind] in H; [|done].
  simpl in Hr. eapply IH; [exact Hks | | | | exact H]; [lia | lia |].
  refine (Hk _ _ _ _ _ _ _ Hs Er); lia.
Qed.

Lemma deserialize_struct_keeps {T} empty (finish : St -> result T JsonError) (Q : T -> Prop)
  fuel input t r :
  P empty -> (forall s t, P s -> finish s = Ok t -> Q t) ->
  (2 * length input + 2 <= fuel)%nat -> (length input <= n)%nat ->
  deserialize_struct fields empty finish fuel input = Ok (t, r) -> Q t.
Proof.
  intros He Hfin Hf Hn H. destruct fuel as [|fuel]; [done|]. cbn [deserialize_struct] in H.
  pose proof (parse_whitespace_length input) as Hw.
  destruct (parse_whitespace input) as [|b rest]; [done|]. simpl in Hw.
  destruct (b =? 91); [|destruct (b =? 123); [|done]].
  - destruct (visit_seq fields fuel 0 true empty rest) as [[s r1]|e] eqn:Ev;
      cbn [result_bind] in H; [|done].
    destruct (finish s) as [t'|e] eqn:Ef; cbn [result_bind] in H; [|done].
    destruct (end_seq r1); cbn [result_bind] in H; [|done]. simplify_eq.
    eapply Hfin; [eapply visit_seq_keeps; [| | exact He | exact Ev]; lia | exact Ef].
  - destruct (visit_map fields fuel true empty rest) as [[s r1]|e] eqn:Ev;
      cbn [result_bind] in H; [|done].
    destruct (finish s) as [t'|e] eqn:Ef; cbn [result_bind] in H; [|done].
    destruct (end_map r1); cbn [result_bind] in H; [|done]. simplify_eq.
    eapply Hfin; [eapply visit_map_keeps; [| | exact He | exact Ev]; lia | exact Ef].
Qed.

End FieldInvariant.

Lemma deserialize_account_id_valid fuel input a r :
  deserialize_account_id fuel input = Ok (a, r) -> Account.valid_account_id a = true.
Proof.
  unfold deserialize_account_id.
  destruct (deserialize_string fuel input) as [[s r1]|e]; cbn [result_bind]; [|done].
  destruct (Account.valid_account_id s) eqn:E; intros; by simplify_eq.
Qed.

Lemma deserialize_account_id_rust fuel input a r :
  deserialize_account_id fuel input = Ok (a, r) -> (Z.of_nat (length input) < 2 ^ 31)%Z ->
  Borsh.rust_account_id a = true.
Proof.
  intros H Hl. unfold Borsh.rust_account_id. rewrite (deserialize_account_id_valid _ _ _ _ H).
  unfold deserialize_account_id in H.
  destruct (deserialize_string fuel input) as [[s r1]|e] eqn:Es; cbn [result_bind] in H; [|done].
  destruct (Account.valid_account_id s); simplify_eq.
  by rewrite (deserialize_string_rust _ _ _ _ Es Hl).
Qed.

Lemma token_metadata_fields_rust n : (Z.of_nat n < 2 ^ 31)%Z ->
  reads_keep token_metadata_fields (fun s => token_metadata_slots_rust s = true) n.
Proof.
  intros Hl. repeat constructor; intros fuel s input s' r Hf Hn Hs; cbn [field_read];
    destruct (deserialize_option deserialize_string fuel input) as [[v r1]|e] eqn:E;
    cbn [result_bind]; intros; simplify_eq; unfold token_metadata_slots_rust in *; simpl;
    rewrite (deserialize_option_string_rust _ _ _ _ E) by lia; simpl in *;
    rewrite ?andb_true_iff in *; naive_solver.
Qed.

Lemma token_metadata_rust fuel input md r :
  (2 * length input + 2 <= fuel)%nat -> (Z.of_nat (length input) < 2 ^ 31)%Z ->
  deserialize_token_metadata fuel input = Ok (md, r) -> Borsh.rust_token_metadata md = true.
Proof.
  intros Hf Hl H. eapply (deserialize_struct_keeps _ _ (length input)
    token_metadata_fields_progress (token_metadata_fields_rust _ Hl) _ _
    (fun m => Borsh.rust_token_metadata m = true)); [..| exact H]; [reflexivity | | exact Hf | lia].
  intros [[t|] [d|] [m|]] md' Hs Hfin; unfold finish_token_metadata in Hfin; simplify_eq;
    unfold token_metadata_slots_rust in Hs; unfold Borsh.rust_token_metadata; simpl in *;
    rewrite ?andb_true_r in *; done.
Qed.

Lemma mint_nft_input_fields_rust n : (Z.of_nat n < 2 ^ 31)%Z ->
  reads_keep mint_nft_input_fields (fun s => mint_input_slots_rust s = true) n.
Proof.
  intros Hl. repeat constructor; intros fuel s input s' r Hf Hn Hs; cbn [field_read];
    unfold mint_input_slots_rust in *; apply andb_true_iff in Hs as [Hs1 Hs2].
  - destruct (deserialize_string fuel input) as [[v r1]|e] eqn:E; cbn [result_bind];
      intros; simplify_eq; simpl.
    by rewrite (deserialize_string_rust _ _ _ _ E) by lia.
  - destruct (deserialize_token_metadata fuel input) as [[v r1]|e] eqn:E; cbn [result_bind];
      intros; simplify_eq; simpl.
    by rewrite (token_metadata_rust _ _ _ _ Hf ltac:(lia) E), Hs1.
Qed.

Lemma mint_nft_input_rust fuel input token_id md r :
  (2 * length input + 2 <= fuel)%nat -> (Z.of_nat (length input) < 2 ^ 31)%Z ->
  deserialize_mint_nft_input fuel input = Ok ((token_id, md), r) ->
  Borsh.rust_string token_id = true /\ Borsh.rust_token_metadata md = true.
Proof.
  intros Hf Hl H.
  change ((fun '(i, m) => Borsh.rust_string i = true /\ Borsh.rust_token_metadata m = true)
            (token_id, md)).
  eapply (deserialize_struct_keeps _ _ (length input)
    mint_nft_input_fields_progress (mint_nft_input_fields_rust _ Hl));
    [..| exact H]; [reflexivity | | exact Hf | lia].
  intros [[i|] [m|]] t Hs; unfold finish_mint_nft_input, required; simpl; intros [= <-];
    unfold mint_input_slots_rust in Hs; simpl in Hs; by apply andb_true_iff in Hs.
Qed.

Lemma new_input_fields_rust n : (Z.of_nat n < 2 ^ 31)%Z ->
  reads_keep new_input_fields (fun s => new_input_slots_rust s = true) n.
Proof.
  intros Hl. repeat constructor; intros fuel s input s' r Hf Hn Hs; cbn [field_read];
    unfold new_input_slots_rust in *; rewrite ?andb_true_iff in Hs; destruct_and!.
  - destruct (deserialize_account_id fuel input) as [[v r1]|e] eqn:E; cbn [result_bind];
      intros; simplify_eq; simpl.
    rewrite (deserialize_account_id_rust _ _ _ _ E) by lia. by rewrite !andb_true_iff.
  - destruct (deserialize_string fuel input) as [[v r1]|e] eqn:E; cbn [result_bind];
      intros; simplify_eq; simpl.
    rewrite (deserialize_string_rust _ _ _ _ E) by lia. by rewrite !andb_true_iff.
  - destruct (deserialize_string fuel input) as [[v r1]|e] eqn:E; cbn [result_bind];
      intros; simplify_eq; simpl.
    rewrite (deserialize_string_rust _ _ _ _ E) by lia. by rewrite !andb_true_iff.
Qed.

Lemma nft_token_input_fields_rust n : (Z.of_nat n < 2 ^ 31)%Z ->
  reads_keep nft_token_input_fields (fun s => Borsh.option_all Borsh.rust_string s = true) n.
Proof.
  intros Hl. repeat constructor; intros fuel s input s' r Hf Hn Hs; cbn [field_read].
  destruct (deserialize_string fuel input) as [[v r1]|e] eqn:E; cbn [result_bind];
    intros; simplify_eq; simpl.
  by rewrite (deserialize_string_rust _ _ _ _ E) by lia.
Qed.

(** The argument of [nft_token] is a [String]. *)
Lemma nft_token_input_rust fuel input token_id r :
  (2 * length input + 2 <= fuel)%nat -> (Z.of_nat (length input) < 2 ^ 31)%Z ->
  deserialize_nft_token_input fuel input = Ok (token_id, r) -> Borsh.rust_string token_id = true.
Proof.
  intros Hf Hl H. change ((fun t => Borsh.rust_string t = true) token_id).
  eapply (deserialize_struct_keeps _ _ (length input)
    nft_token_input_fields_progress (nft_token_input_fields_rust _ Hl)); [..| exact H];
    [reflexivity | | exact Hf | lia].
  intros [i|] t Hs; unfold finish_nft_token_input, required; simpl; intros [= <-]; done.
Qed.

(** The arguments of [new] are an [AccountId] and two [String]s, as
    their Rust types require, whichever form (object or array) the
    input has. *)
Lemma new_input_rust fuel input o nm sy r :
  (2 * length input + 2 <= fuel)%nat -> (Z.of_nat (length input) < 2 ^ 31)%Z ->
  deserialize_new_input fuel input = Ok ((o, nm, sy), r) ->
  Borsh.rust_account_id o = true /\ Borsh.rust_string nm = true /\ Borsh.rust_string sy = true.
Proof.
  intros Hf Hl H.
  change ((fun '(o, nm, sy) => Borsh.rust_account_id o = true /\ Borsh.rust_string nm = true /\
                               Borsh.rust_string sy = true) (o, nm, sy)).
  eapply (deserialize_struct_keeps _ _ (length input)
    new_input_fields_progress (new_input_fields_rust _ Hl)); [..| exact H]; [reflexivity | | exact Hf | lia].
  intros [[o'|] [n'|] [sy'|]] t Hs; unfold finish_new_input, required; simpl; intros [= <-];
    unfold new_input_slots_rust in Hs; simpl in Hs; rewrite ?andb_true_iff in Hs; naive_solver.
Qed.

(** ** Witnesses *)

(** A title with a quote, a backslash, a tab and a two-byte character. *)
Definition demo_title : string :=
  String (Ascii.ascii_of_nat 34) ("\" ++ String (Ascii.ascii_of_nat 9) "é")%string.

Definition demo_json_token : Token :=
  mkToken "gelezako.testnet" (mkTokenMetadata (Some demo_title) None (Some "ipfs://x"%string)).

Lemma token_json_roundtrip_witness :
  from_slice deserialize_token (ser_token demo_json_token) = Ok demo_json_token.
Proof. apply token_json_roundtrip. vm_compute. reflexivity. Defined.

Lemma nft_contract_metadata_json_roundtrip_witness :
  from_slice deserialize_nft_contract_metadata
    (ser_nft_contract_metadata (mkNFTContractMetadata "nft-1.0.0" "Demo" demo_title)) =
  Ok (mkNFTContractMetadata "nft-1.0.0" "Demo" demo_title).
Proof. apply nft_contract_metadata_json_roundtrip. vm_compute. reflexivity. Defined.

Lemma mint_nft_input_missing_metadata_witness :
  from_slice deserialize_mint_nft_input (ser_struct [("token_id", ser_str "t1")]) =
  Err (MissingField "metadata").
Proof. apply mint_nft_input_missing_metadata. vm_compute. reflexivity. Defined.

Lemma mint_nft_input_duplicate_token_id_witness :
  from_slice deserialize_mint_nft_input
    (ser_struct [("token_id", ser_str "t1"); ("token_id", ser_str "t2")]) =
  Err (DuplicateField "token_id").
Proof. apply (mint_nft_input_duplicate_token_id "t1" "t2" []). vm_compute. reflexivity. Defined.

Lemma mint_nft_input_array_form_witness :
  from_slice deserialize_mint_nft_input
    (ser_seq [ser_str "t1"; ser_token_metadata (mkTokenMetadata (Some demo_title) None None)]) =
  Ok ("t1"%string, mkTokenMetadata (Some demo_title) None None).
Proof. apply mint_nft_input_array_form. vm_compute. reflexivity. Defined.

End Json.
