(* ===== verification/Env.v ===== *)
(** * The host environment as the contract sees it ([near_sdk::env])

    The call context ([predecessor_account_id], [attached_deposit]), the
    execution state a call threads (the contract's [self] and the log
    lines it has emitted), the panics a call can end with, and the two
    effects the contract code performs: [log_str] (line 71) and
    [assert_eq!] (line 63). *)

From stdpp Require Import base strings list.
From Stdlib Require Import ZArith.
From S2P Require Import Prelude Types.

(** The context of one function call: who called ([env::predecessor_account_id],
    line 61) and the deposit attached to the call in yoctoNEAR (a u128,
    read by the [#[near_bindgen]] wrappers). *)
Record VMContext := mkVMContext {
  predecessor_account_id : AccountId;
  attached_deposit : Z;
}.

(** The ways a call panics.  [AssertEqFailed msg left right] is
    [assert_eq!(left, right, msg)] failing (line 63); [UnwrapNone] is
    [Option::unwrap] on [None] (line 81); the last three are raised by
    the code [#[near_bindgen]] generates around the methods. *)
Inductive Panic :=
| AssertEqFailed (msg left right : string)
| UnwrapNone
| DepositNotAccepted (method : string)
| AlreadyInitialized
| NotInitialized.

#[export] Instance Panic_eq_dec : EqDecision Panic.
Proof. solve_decision. Defined.

(** What a method threads while it runs: the contract value [self] and
    the log lines emitted so far. *)
Record VMState (C : Type) := mkVMState {
  self : C;
  logs : list string;
}.
Arguments mkVMState {C} self logs.
Arguments self {C} v.
Arguments logs {C} v.

(** A method that panics ends with the panic and the log lines it
    emitted before it: the host drops the state changes of a failed
    call and keeps those lines in the call's outcome. *)
Abbreviation Aborted := (Panic * list string)%type.

(** [env::log_str]: append one line to the log. *)
Definition log_str {C} (msg : string) : ST (VMState C) Aborted unit :=
  st_modify (fun v => mkVMState (self v) (logs v ++ [msg])).

(** [assert_eq!(left, right, msg)] on strings: on failure the panic
    ends the method with the lines logged so far. *)
Definition assert_eq {C} (left right msg : string) : ST (VMState C) Aborted unit :=
  fun v => if String.eqb left right then Ok (tt, v) else Err (AssertEqFailed msg left right, logs v).

(** Update [self] through [f], returning what [f] returns. *)
Definition with_self {C A} (f : C -> C * A) : ST (VMState C) Aborted A :=
  fun v => let '(c', a) := f (self v) in Ok (a, mkVMState c' (logs v)).

Lemma log_str_run {C} (msg : string) (v : VMState C) :
  log_str msg v = Ok (tt, mkVMState (self v) (logs v ++ [msg])).
Proof. reflexivity. Qed.

#[export] Hint Rewrite @log_str_run : nft_rw.
