(* ===== verification/Collections.v ===== *)
(** * The persistent collections the contract uses

    [near_sdk::collections::UnorderedMap] (field [tokens_by_id], line 10;
    created at line 55, written at line 70, read at line 76) is modelled
    by the interface the contract relies on: a type class of operations
    [UnorderedMapOps] ([new], [get], [insert] and the storage prefix)
    and a class of laws [UnorderedMapLaws].  The contract's theorems are
    proved against the laws; [GUnorderedMap] implements them on stdpp's
    [gmap].  Two maps with the same lookups are observationally equal
    ([umap_equiv]): the operations respect it ([Proper] instances).

    [near_sdk::collections::LazyOption] (field [metadata], line 11;
    created at line 56, read at line 81) is a storage cell at a prefix
    holding an optional value. *)

From stdpp Require Import base gmap strings list.
From Stdlib Require Import ZArith.
From S2P Require Import Prelude.

(** ** The interface *)

Class UnorderedMapOps (K V M : Type) := {
  (** [UnorderedMap::new(prefix)] *)
  umap_new : list Z -> M;
  (** the storage prefix the map was created with *)
  umap_prefix : M -> list Z;
  (** [UnorderedMap::get(&key)] *)
  umap_get : M -> K -> option V;
  (** [UnorderedMap::insert(&key, &value)]: the new map and the value
      previously stored at [key] *)
  umap_insert : M -> K -> V -> M * option V;
}.

Class UnorderedMapLaws (K V M : Type) `{!EqDecision K} `{!UnorderedMapOps K V M} : Prop := {
  umap_get_new p k : umap_get (umap_new p) k = None;
  umap_get_insert_eq m k v : umap_get (umap_insert m k v).1 k = Some v;
  umap_get_insert_ne m k k' v : k <> k' -> umap_get (umap_insert m k v).1 k' = umap_get m k';
  umap_insert_old m k v : (umap_insert m k v).2 = umap_get m k;
  umap_prefix_new p : umap_prefix (umap_new p) = p;
  umap_prefix_insert m k v : umap_prefix (umap_insert m k v).1 = umap_prefix m;
}.

Section Laws.
Context {K V M : Type} `{!EqDecision K} `{!UnorderedMapOps K V M}
        `{!UnorderedMapLaws K V M}.

(** [insert] as an update of the lookup function. *)
Lemma umap_get_insert m k v k' :
  umap_get (umap_insert m k v).1 k' = if decide (k = k') then Some v else umap_get m k'.
Proof.
  case_decide as Hk; [subst; apply umap_get_insert_eq|].
  by apply umap_get_insert_ne.
Qed.

(** Observational equality: the same value at every key. *)
Definition umap_equiv (m1 m2 : M) : Prop :=
  forall k, umap_get m1 k = umap_get m2 k.

#[global] Instance umap_equiv_equivalence : Equivalence umap_equiv.
Proof.
  split; unfold umap_equiv; [done | by intros ?? H k | ].
  intros ??? H1 H2 k. by rewrite H1.
Qed.

#[global] Instance umap_get_proper : Proper (umap_equiv ==> eq ==> eq) umap_get.
Proof. intros m1 m2 Hm k ? <-. apply Hm. Qed.

#[global] Instance umap_insert_fst_proper :
  Proper (umap_equiv ==> eq ==> eq ==> umap_equiv) (fun m k v => (umap_insert m k v).1).
Proof.
  intros m1 m2 Hm k ? <- v ? <- k'. rewrite !umap_get_insert. by rewrite Hm.
Qed.

(** Inserting twice at one key keeps the second value only. *)
Lemma umap_insert_insert m k v1 v2 :
  umap_equiv (umap_insert (umap_insert m k v1).1 k v2).1 (umap_insert m k v2).1.
Proof. intros k'. rewrite !umap_get_insert. by case_decide. Qed.

(** Inserts at distinct keys commute. *)
Lemma umap_insert_commute m k1 k2 v1 v2 :
  k1 <> k2 ->
  umap_equiv (umap_insert (umap_insert m k1 v1).1 k2 v2).1
             (umap_insert (umap_insert m k2 v2).1 k1 v1).1.
Proof. intros Hne k'. rewrite !umap_get_insert. repeat case_decide; congruence. Qed.
End Laws.

(** ** The implementation on [gmap] *)

Record GUnorderedMap (K V : Type) `{Countable K} := mkGUnorderedMap {
  gum_prefix : list Z;
  gum_map : gmap K V;
}.
Arguments mkGUnorderedMap {K V _ _} gum_prefix gum_map.
Arguments gum_prefix {K V _ _} g.
Arguments gum_map {K V _ _} g.

#[export] Instance GUnorderedMap_ops {K V} `{Countable K} :
  UnorderedMapOps K V (GUnorderedMap K V) := {
  umap_new p := mkGUnorderedMap p ∅;
  umap_prefix m := gum_prefix m;
  umap_get m k := gum_map m !! k;
  umap_insert m k v := (mkGUnorderedMap (gum_prefix m) (<[k:=v]> (gum_map m)), gum_map m !! k);
}.

#[export] Instance GUnorderedMap_laws {K V} `{Countable K} :
  UnorderedMapLaws K V (GUnorderedMap K V).
Proof.
  split; intros; simpl;
    [apply lookup_empty | apply lookup_insert_eq | by apply lookup_insert_ne
    | done | done | done].
Qed.

(** ** [LazyOption] *)

Record LazyOption (V : Type) := mkLazyOption {
  lazy_prefix : list Z;
  lazy_value : option V;
}.
Arguments mkLazyOption {V} lazy_prefix lazy_value.
Arguments lazy_prefix {V} l.
Arguments lazy_value {V} l.

(** [LazyOption::new(prefix, value)]: writes [value] under [prefix]. *)
Definition lazy_new {V} (prefix : list Z) (value : option V) : LazyOption V :=
  mkLazyOption prefix value.

(** [LazyOption::get()]: reads the cell. *)
Definition lazy_get {V} (l : LazyOption V) : option V := lazy_value l.
