(* ===== verification/Storage.v ===== *)
(** * The collections on the account's storage (near-sdk [collections])

    The contract's two collections keep their data in the account's
    key-value storage ([env::storage_read], [env::storage_write]), each
    under the prefix its [StorageKey] gives (lines 55-56):
    - [collections::Vector] keeps its length [len] (a u64) and stores
      element [i] under [prefix ++ i.to_le_bytes()];
    - [collections::UnorderedMap::new(prefix)] creates a key index under
      [prefix ++ b"i"] (from the Borsh bytes of a key to the
      little-endian bytes of its index) and two vectors, the keys under
      [prefix ++ b"k"] and the values under [prefix ++ b"v"]; keys and
      values are stored as their Borsh bytes.
    [insert] (line 70) looks the key up in the index: a known key has
    its value replaced in place; a new key gets the next index, which
    is written to the index, and the key and value are pushed.  [get]
    (line 76) reads the index, then the value.  Every inconsistency
    panics with near-sdk's [ERR_INCONSISTENT_STATE].
    [collections::LazyOption] (line 56, 81) is one cell under its
    prefix: [new] with [Some] writes the Borsh bytes, [get] reads and
    decodes them.

    The theorems: the storage layout implements a finite map -- under
    the representation invariant [um_repr], [um_get] is the lookup and
    [um_insert] the insertion of a [gmap], and the invariant is kept,
    so no inconsistency panic is ever raised; and [um_insert] writes
    only keys under its own prefix, so the token map never touches the
    metadata cell or the contract state; a [LazyOption] cell reads back
    what [new] wrote; each representation reads only its own region
    ([um_repr_agree], [lo_repr_agree]). *)

From stdpp Require Import base gmap strings list.
From Stdlib Require Import ZArith Lia.
From S2P Require Import Prelude Types Account Borsh.
Import Borsh.

Module Storage.
Local Open Scope Z_scope.

(** ** The account storage and the host functions on it *)

(** The account's storage: keys and values are byte strings. *)
Abbreviation Store := (gmap (list Z) (list Z)).

(** The panics of near-sdk's collections. *)
Inductive CollectionsError :=
| InconsistentState        (* ERR_INCONSISTENT_STATE *)
| IndexOutOfBounds         (* ERR_INDEX_OUT_OF_BOUNDS *)
| KeySerialization         (* ERR_KEY_SERIALIZATION *)
| ValueSerialization       (* ERR_VALUE_SERIALIZATION *)
| ValueDeserialization     (* ERR_VALUE_DESERIALIZATION *)
| SliceLength.             (* copy_from_slice on a slice of another length *)

(** [env::storage_read]. *)
Definition storage_read (key : list Z) : ST Store CollectionsError (option (list Z)) :=
  fun s => Ok (s !! key, s).

(** [env::storage_write], followed by [env::storage_get_evicted]: the
    value the write replaced, if the key was present. *)
Definition storage_write (key value : list Z) : ST Store CollectionsError (option (list Z)) :=
  fun s => Ok (s !! key, <[key := value]> s).

(** ** [collections::Vector] *)

Record Vector := mkVector {
  vec_len : Z;            (* u64 *)
  vec_prefix : list Z;
}.

(** [u64::to_le_bytes]. *)
Definition u64_le_bytes (n : Z) : list Z := le_bytes 8 n.

Arguments u64_le_bytes : simpl never.

(** [Vector::new(prefix)]. *)
Definition vec_new (prefix : list Z) : Vector := mkVector 0 prefix.

(** [Vector::index_to_lookup_key]. *)
Definition index_to_lookup_key (v : Vector) (index : Z) : list Z :=
  vec_prefix v ++ u64_le_bytes index.

(** [Vector::get_raw]. *)
Definition vec_get_raw (v : Vector) (index : Z) : ST Store CollectionsError (option (list Z)) :=
  if vec_len v <=? index then st_ret None else
  let* raw := storage_read (index_to_lookup_key v index) in
  match raw with
  | Some bs => st_ret (Some bs)
  | None => st_panic InconsistentState
  end.

(** [Vector::push_raw]: [self.len += 1] on a u64. *)
Definition vec_push_raw (v : Vector) (raw : list Z) : ST Store CollectionsError Vector :=
  let lookup_key := index_to_lookup_key v (vec_len v) in
  let v' := mkVector ((vec_len v + 1) mod 2 ^ 64) (vec_prefix v) in
  let* _ := storage_write lookup_key raw in
  st_ret v'.

(** [Vector::replace_raw]: the element replaced. *)
Definition vec_replace_raw (v : Vector) (index : Z) (raw : list Z)
  : ST Store CollectionsError (list Z) :=
  if vec_len v <=? index then st_panic IndexOutOfBounds else
  let* evicted := storage_write (index_to_lookup_key v index) raw in
  match evicted with
  | Some old => st_ret old
  | None => st_panic InconsistentState
  end.

(** ** [collections::UnorderedMap] *)

Record UnorderedMap := mkUnorderedMap {
  um_key_index_prefix : list Z;
  um_keys : Vector;
  um_values : Vector;
}.

(** [UnorderedMap::new(prefix)]: the index under [prefix ++ b"i"], the
    keys under [prefix ++ b"k"], the values under [prefix ++ b"v"]. *)
Definition um_new (prefix : list Z) : UnorderedMap :=
  mkUnorderedMap (prefix ++ [105]) (vec_new (prefix ++ [107])) (vec_new (prefix ++ [118])).

(** [UnorderedMap::len]. *)
Definition um_len (um : UnorderedMap) : ST Store CollectionsError Z :=
  if Z.eqb (vec_len (um_keys um)) (vec_len (um_values um))
  then st_ret (vec_len (um_keys um)) else st_panic InconsistentState.

(** [serialize_index] and [deserialize_index]: eight little-endian bytes. *)
Definition serialize_index (index : Z) : list Z := u64_le_bytes index.

Definition deserialize_index (raw : list Z) : ST Store CollectionsError Z :=
  if Nat.eqb (length raw) 8 then st_ret (le_value raw) else st_panic SliceLength.

(** [UnorderedMap::raw_key_to_index_lookup]. *)
Definition raw_key_to_index_lookup (um : UnorderedMap) (key_raw : list Z) : list Z :=
  um_key_index_prefix um ++ key_raw.

(** [UnorderedMap::get_index_raw]. *)
Definition get_index_raw (um : UnorderedMap) (key_raw : list Z)
  : ST Store CollectionsError (option Z) :=
  let* raw := storage_read (raw_key_to_index_lookup um key_raw) in
  match raw with
  | Some raw_index => let* i := deserialize_index raw_index in st_ret (Some i)
  | None => st_ret None
  end.

(** [UnorderedMap::get_raw]. *)
Definition um_get_raw (um : UnorderedMap) (key_raw : list Z)
  : ST Store CollectionsError (option (list Z)) :=
  let* index := get_index_raw um key_raw in
  match index with
  | None => st_ret None
  | Some i =>
      let* value := vec_get_raw (um_values um) i in
      match value with
      | Some x => st_ret (Some x)
      | None => st_panic InconsistentState
      end
  end.

(** [UnorderedMap::insert_raw]: the new map header and the raw value
    replaced. *)
Definition um_insert_raw (um : UnorderedMap) (key_raw value_raw : list Z)
  : ST Store CollectionsError (UnorderedMap * option (list Z)) :=
  let index_lookup := raw_key_to_index_lookup um key_raw in
  let* found := storage_read index_lookup in
  match found with
  | Some index_raw =>
      let* index := deserialize_index index_raw in
      let* old := vec_replace_raw (um_values um) index value_raw in
      st_ret (um, Some old)
  | None =>
      let* next_index := um_len um in
      let* _ := storage_write index_lookup (serialize_index next_index) in
      let* keys := vec_push_raw (um_keys um) key_raw in
      let* values := vec_push_raw (um_values um) value_raw in
      st_ret (mkUnorderedMap (um_key_index_prefix um) keys values, None)
  end.

(** [serialize_key], [serialize_value], [deserialize_value] for the
    contract's [UnorderedMap<String, Token>]: Borsh, panicking on failure. *)
Definition serialize_key (k : string) : ST Store CollectionsError (list Z) :=
  match ser_string k with Ok bs => st_ret bs | Err _ => st_panic KeySerialization end.

Definition serialize_value (t : Token) : ST Store CollectionsError (list Z) :=
  match ser_token t with Ok bs => st_ret bs | Err _ => st_panic ValueSerialization end.

Definition deserialize_value (raw : list Z) : ST Store CollectionsError Token :=
  match try_from_slice de_token raw with
  | Ok t => st_ret t
  | Err _ => st_panic ValueDeserialization
  end.

(** [UnorderedMap::get]. *)
Definition um_get (um : UnorderedMap) (k : string) : ST Store CollectionsError (option Token) :=
  let* key_raw := serialize_key k in
  let* raw := um_get_raw um key_raw in
  match raw with
  | None => st_ret None
  | Some value_raw => let* t := deserialize_value value_raw in st_ret (Some t)
  end.

(** [UnorderedMap::insert]. *)
Definition um_insert (um : UnorderedMap) (k : string) (t : Token)
  : ST Store CollectionsError (UnorderedMap * option Token) :=
  let* key_raw := serialize_key k in
  let* value_raw := serialize_value t in
  let* r := um_insert_raw um key_raw value_raw in
  let '(um', old) := r in
  match old with
  | None => st_ret (um', None)
  | Some value_raw' => let* t' := deserialize_value value_raw' in st_ret (um', Some t')
  end.

(** ** [collections::LazyOption]: one storage cell *)

Record LazyOption := mkLazyOption { lo_storage_key : list Z }.

(** [LazyOption::set]: [storage_write] of the Borsh bytes; [true] when
    the cell held a value. *)
Definition lo_set {V} (ser : V -> result (list Z) BorshError) (lo : LazyOption) (v : V)
  : ST Store CollectionsError bool :=
  match ser v with
  | Ok raw => let* old := storage_write (lo_storage_key lo) raw in st_ret (bool_decide (is_Some old))
  | Err _ => st_panic ValueSerialization
  end.

(** [LazyOption::new(storage_key, value)]: [set] when [value] is [Some]. *)
Definition lo_new {V} (ser : V -> result (list Z) BorshError) (storage_key : list Z)
  (value : option V) : ST Store CollectionsError LazyOption :=
  let this := mkLazyOption storage_key in
  match value with
  | Some v => let* _ := lo_set ser this v in st_ret this
  | None => st_ret this
  end.

(** [LazyOption::get]: [storage_read], then Borsh, panicking on bad bytes. *)
Definition lo_get {V} (de : Parser V) (lo : LazyOption) : ST Store CollectionsError (option V) :=
  let* raw := storage_read (lo_storage_key lo) in
  match raw with
  | None => st_ret None
  | Some r =>
      match try_from_slice de r with
      | Ok v => st_ret (Some v)
      | Err _ => st_panic ValueDeserialization
      end
  end.

(** ** The headers' Borsh encoding ([derive(BorshSerialize, BorshDeserialize)])

    The headers are what [struct Contract] holds of its collections:
    [Vector { len: u64, prefix: Vec<u8> }], [UnorderedMap {
    key_index_prefix: Vec<u8>, keys: Vector, values: Vector }] and
    [LazyOption { storage_key: Vec<u8> }] (its [PhantomData] skipped). *)

(** [Vec<u8>::serialize]: the length as a u32, then the bytes. *)
Definition ser_bytes (bs : list Z) : result (list Z) BorshError :=
  if Z.of_nat (length bs) <? 2 ^ 32
  then Ok (ser_u32 (Z.of_nat (length bs)) ++ bs)
  else Err LengthOverflow.

(** [Vec<u8>::deserialize]: the length, then that many bytes. *)
Definition de_bytes : Parser (list Z) := fun input =>
  let! (len, rest) := de_u32 input in take_bytes (Z.to_nat len) rest.

(** [u64::deserialize]: eight bytes, little endian. *)
Definition de_u64 : Parser Z := fun input =>
  let! (bs, rest) := take_bytes 8 input in Ok (le_value bs, rest).

Definition ser_vector (v : Vector) : result (list Z) BorshError :=
  let! p := ser_bytes (vec_prefix v) in Ok (u64_le_bytes (vec_len v) ++ p).

Definition de_vector : Parser Vector := fun input =>
  let! (len, r) := de_u64 input in
  let! (p, r') := de_bytes r in Ok (mkVector len p, r').

Definition ser_unordered_map (um : UnorderedMap) : result (list Z) BorshError :=
  let! i := ser_bytes (um_key_index_prefix um) in
  let! k := ser_vector (um_keys um) in
  let! v := ser_vector (um_values um) in Ok (i ++ k ++ v).

Definition de_unordered_map : Parser UnorderedMap := fun input =>
  let! (i, r) := de_bytes input in
  let! (k, r') := de_vector r in
  let! (v, r'') := de_vector r' in Ok (mkUnorderedMap i k v, r'').

Definition ser_lazy_option (lo : LazyOption) : result (list Z) BorshError :=
  ser_bytes (lo_storage_key lo).

Definition de_lazy_option : Parser LazyOption := fun input =>
  let! (k, r) := de_bytes input in Ok (mkLazyOption k, r).

(** The headers the encodings carry: a u64 length and prefixes shorter
    than [2^32] bytes. *)
Definition short_bytes (bs : list Z) : bool := Z.of_nat (length bs) <? 2 ^ 32.

Definition rust_vector (v : Vector) : bool :=
  (0 <=? vec_len v) && (vec_len v <? 2 ^ 64) && short_bytes (vec_prefix v).

Definition rust_unordered_map (um : UnorderedMap) : bool :=
  short_bytes (um_key_index_prefix um) && rust_vector (um_keys um) && rust_vector (um_values um).

Definition rust_lazy_option (lo : LazyOption) : bool := short_bytes (lo_storage_key lo).

(** ** The representation invariant

    An [UnorderedMap] created at [prefix] represents the [gmap] [m] in
    the storage [s] when its keys, in index order, are [ks] and: the
    header has the three prefixes [new] gives; the keys are distinct and
    are exactly the keys of [m]; the [i]-th key [k] has its index [i]
    under [prefix ++ b"i" ++ borsh(k)], its Borsh bytes at position [i]
    of the keys vector and the Borsh bytes of [m !! k] at position [i]
    of the values vector; both vectors have [length ks < 2^64]
    elements; and the index holds nothing but these keys. *)

Definition um_header (prefix : list Z) (um : UnorderedMap) : Prop :=
  um_key_index_prefix um = prefix ++ [105] /\ vec_prefix (um_keys um) = prefix ++ [107] /\
  vec_prefix (um_values um) = prefix ++ [118].

Definition entry_stored (um : UnorderedMap) (s : Store) (i : nat) (k : string) (t : Token) : Prop :=
  exists kb vb, ser_string k = Ok kb /\ ser_token t = Ok vb /\ rust_token t = true /\
    s !! raw_key_to_index_lookup um kb = Some (serialize_index (Z.of_nat i)) /\
    s !! index_to_lookup_key (um_keys um) (Z.of_nat i) = Some kb /\
    s !! index_to_lookup_key (um_values um) (Z.of_nat i) = Some vb.

Record um_inv (prefix : list Z) (um : UnorderedMap) (s : Store) (m : gmap string Token)
  (ks : list string) : Prop := {
  inv_header : um_header prefix um;
  inv_nodup : NoDup ks;
  inv_dom k : k ∈ ks <-> is_Some (m !! k);
  inv_entries i k : ks !! i = Some k -> exists t, m !! k = Some t /\ entry_stored um s i k t;
  inv_keys_len : vec_len (um_keys um) = Z.of_nat (length ks);
  inv_values_len : vec_len (um_values um) = Z.of_nat (length ks);
  inv_bound : Z.of_nat (length ks) < 2 ^ 64;
  inv_index kb raw : s !! raw_key_to_index_lookup um kb = Some raw ->
    exists i k, ks !! i = Some k /\ ser_string k = Ok kb;
}.

Definition um_repr (prefix : list Z) (um : UnorderedMap) (s : Store) (m : gmap string Token) : Prop :=
  exists ks, um_inv prefix um s m ks.

(** [s'] differs from [s] only at keys under [prefix]. *)
Definition frame (prefix : list Z) (s s' : Store) : Prop :=
  forall key, ~ prefix `prefix_of` key -> s' !! key = s !! key.

(** [s'] agrees with [s] on every key under [prefix]. *)
Definition agree_under (prefix : list Z) (s s' : Store) : Prop :=
  forall key, prefix `prefix_of` key -> s' !! key = s !! key.

(** No key under [prefix] is set. *)
Definition region_empty (prefix : list Z) (s : Store) : Prop :=
  forall key, prefix `prefix_of` key -> s !! key = None.

(** An operation that, whatever it returns, writes only under [prefix]. *)
Definition writes_under {A} (prefix : list Z) (c : ST Store CollectionsError A) : Prop :=
  forall s a s', c s = Ok (a, s') -> frame prefix s s'.

(** ** Bytes *)

Lemma length_u64_le_bytes i : length (u64_le_bytes i) = 8%nat.
Proof. apply length_le_bytes. Qed.

Lemma le_value_u64_le_bytes i : 0 <= i < 2 ^ 64 -> le_value (u64_le_bytes i) = i.
Proof. intros Hi. unfold u64_le_bytes. rewrite le_value_bytes, Z.mod_small; [done | simpl; lia]. Qed.

Lemma u64_le_bytes_inj i j :
  0 <= i < 2 ^ 64 -> 0 <= j < 2 ^ 64 -> u64_le_bytes i = u64_le_bytes j -> i = j.
Proof.
  intros Hi Hj E. rewrite <- (le_value_u64_le_bytes i), <- (le_value_u64_le_bytes j) by done.
  by rewrite E.
Qed.

(** Keys under two different one-byte tags after the same prefix differ. *)
Lemma tagged_ne (prefix : list Z) (a b : Z) (x y : list Z) :
  a <> b -> (prefix ++ [a]) ++ x <> (prefix ++ [b]) ++ y.
Proof. intros Hab E. rewrite <- !app_assoc in E. apply app_inv_head in E. by injection E. Qed.

Lemma tagged_prefix (prefix : list Z) (a : Z) (x : list Z) : prefix `prefix_of` (prefix ++ [a]) ++ x.
Proof. rewrite <- app_assoc. apply prefix_app_r. done. Qed.

(** Borsh encodes distinct strings as distinct bytes. *)
Lemma ser_string_inj k1 k2 kb : ser_string k1 = Ok kb -> ser_string k2 = Ok kb -> k1 = k2.
Proof.
  unfold ser_string.
  destruct (Z.of_nat (length (bytes_of_string k1)) <? 2 ^ 32); [|done].
  destruct (Z.of_nat (length (bytes_of_string k2)) <? 2 ^ 32); [|done].
  intros <-%Ok_inj E%Ok_inj.
  apply app_inj_1 in E as [_ E]; [|by unfold ser_u32; rewrite !length_le_bytes].
  by rewrite <- (string_of_bytes_of_string k1), <- (string_of_bytes_of_string k2), E.
Qed.

(** The bytes a value serializes to read back as that value. *)
Lemma slice_reads_back {A} ser (de : Parser A) P a bs :
  roundtrips ser de P -> P a = true -> ser a = Ok bs -> try_from_slice de bs = Ok a.
Proof.
  intros Hrt Ha E. unfold try_from_slice.
  rewrite <- (app_nil_r bs), (Hrt a bs [] Ha E). done.
Qed.

Lemma token_reads_back t vb : rust_token t = true -> ser_token t = Ok vb ->
  try_from_slice de_token vb = Ok t.
Proof. apply slice_reads_back, token_roundtrips. Qed.

Lemma ser_string_ok k : Z.of_nat (String.length k) < 2 ^ 32 -> exists kb, ser_string k = Ok kb.
Proof.
  intros Hk. unfold ser_string. rewrite length_bytes_of_string.
  destruct (Z.ltb_spec (Z.of_nat (String.length k)) (2 ^ 32)); [by eexists | lia].
Qed.

(** ** The headers round-trip *)

Lemma bytes_roundtrips : roundtrips ser_bytes de_bytes short_bytes.
Proof.
  intros bs out rest Hs. unfold ser_bytes. unfold short_bytes in Hs. rewrite Hs.
  intros <-%Ok_inj. apply Z.ltb_lt in Hs. unfold de_bytes.
  rewrite <- app_assoc, de_u32_ser_u32 by lia. simpl. by rewrite Nat2Z.id, take_bytes_app.
Qed.

Lemma bytes_total : total ser_bytes short_bytes.
Proof. intros bs Hs. unfold ser_bytes. unfold short_bytes in Hs. rewrite Hs. by eexists. Qed.

Lemma vector_roundtrips : roundtrips ser_vector de_vector rust_vector.
Proof.
  intros [len p] bs rest Hv. unfold rust_vector in Hv. simpl in Hv.
  apply andb_prop in Hv as [[H0 H1]%andb_prop Hp]. apply Z.leb_le in H0. apply Z.ltb_lt in H1.
  unfold ser_vector. cbn [vec_prefix vec_len]. destruct (bytes_total p Hp) as [pb Hpb].
  rewrite Hpb. cbn [result_bind]. intros <-%Ok_inj. unfold de_vector, de_u64. rewrite <- app_assoc.
  rewrite <- (length_u64_le_bytes len) at 1. rewrite take_bytes_app. cbn [result_bind].
  rewrite le_value_u64_le_bytes by lia. by rewrite (bytes_roundtrips p pb rest Hp Hpb).
Qed.

Lemma vector_total : total ser_vector rust_vector.
Proof.
  intros v Hv. unfold rust_vector in Hv. apply andb_prop in Hv as [_ Hp].
  destruct (bytes_total _ Hp) as [pb Hpb]. unfold ser_vector. rewrite Hpb. by eexists.
Qed.

Lemma unordered_map_roundtrips : roundtrips ser_unordered_map de_unordered_map rust_unordered_map.
Proof.
  intros [i k v] bs rest Hum. unfold rust_unordered_map in Hum. simpl in Hum.
  apply andb_prop in Hum as [[Hi Hk]%andb_prop Hv].
  destruct (bytes_total _ Hi) as [ib Hib], (vector_total _ Hk) as [kb Hkb],
    (vector_total _ Hv) as [vb Hvb].
  unfold ser_unordered_map. simpl. rewrite Hib, Hkb, Hvb. intros <-%Ok_inj.
  unfold de_unordered_map. rewrite <- !app_assoc, (bytes_roundtrips _ _ _ Hi Hib). simpl.
  rewrite (vector_roundtrips _ _ _ Hk Hkb). simpl. by rewrite (vector_roundtrips _ _ _ Hv Hvb).
Qed.

Lemma unordered_map_total : total ser_unordered_map rust_unordered_map.
Proof.
  intros [i k v] Hum. unfold rust_unordered_map in Hum. simpl in Hum.
  apply andb_prop in Hum as [[Hi Hk]%andb_prop Hv].
  destruct (bytes_total _ Hi) as [ib Hib], (vector_total _ Hk) as [kb Hkb],
    (vector_total _ Hv) as [vb Hvb].
  unfold ser_unordered_map. simpl. rewrite Hib, Hkb, Hvb. by eexists.
Qed.

Lemma lazy_option_roundtrips : roundtrips ser_lazy_option de_lazy_option rust_lazy_option.
Proof.
  intros [k] bs rest Hk E. unfold de_lazy_option. by rewrite (bytes_roundtrips _ _ _ Hk E).
Qed.

Lemma lazy_option_total : total ser_lazy_option rust_lazy_option.
Proof. intros [k] Hk. apply (bytes_total _ Hk). Qed.

(** A write at a key other than an entry's three keys keeps the entry. *)
Lemma entry_stored_insert_ne (um : UnorderedMap) (s : Store) j k t (key v : list Z) :
  entry_stored um s j k t ->
  (forall kb, ser_string k = Ok kb -> raw_key_to_index_lookup um kb <> key) ->
  index_to_lookup_key (um_keys um) (Z.of_nat j) <> key ->
  index_to_lookup_key (um_values um) (Z.of_nat j) <> key ->
  entry_stored um (<[key := v]> s) j k t.
Proof.
  intros (kb & vb & Hkb & Hvb & Hrt & H1 & H2 & H3) Hi Hk Hv. exists kb, vb.
  rewrite !lookup_insert_ne; [by split_and!|..]; apply not_eq_sym; eauto.
Qed.

(** An entry is stored the same for two headers with the same prefixes. *)
Lemma entry_stored_same_prefixes um um' s j k t :
  um_key_index_prefix um' = um_key_index_prefix um ->
  vec_prefix (um_keys um') = vec_prefix (um_keys um) ->
  vec_prefix (um_values um') = vec_prefix (um_values um) ->
  entry_stored um s j k t -> entry_stored um' s j k t.
Proof. unfold entry_stored, raw_key_to_index_lookup, index_to_lookup_key. by intros -> -> ->. Qed.

(** The three regions of a map are disjoint. *)
Lemma header_index_keys prefix um kb j :
  um_header prefix um -> raw_key_to_index_lookup um kb <> index_to_lookup_key (um_keys um) j.
Proof.
  intros (H1 & H2 & _). unfold raw_key_to_index_lookup, index_to_lookup_key.
  rewrite H1, H2. by apply tagged_ne.
Qed.

Lemma header_index_values prefix um kb j :
  um_header prefix um -> raw_key_to_index_lookup um kb <> index_to_lookup_key (um_values um) j.
Proof.
  intros (H1 & _ & H3). unfold raw_key_to_index_lookup, index_to_lookup_key.
  rewrite H1, H3. by apply tagged_ne.
Qed.

Lemma header_keys_values prefix um i j :
  um_header prefix um -> index_to_lookup_key (um_keys um) i <> index_to_lookup_key (um_values um) j.
Proof.
  intros (_ & H2 & H3). unfold index_to_lookup_key. rewrite H2, H3. by apply tagged_ne.
Qed.

Lemma index_to_lookup_key_inj v i j :
  0 <= i < 2 ^ 64 -> 0 <= j < 2 ^ 64 ->
  index_to_lookup_key v i = index_to_lookup_key v j -> i = j.
Proof. intros Hi Hj E. apply app_inv_head in E. by apply u64_le_bytes_inj. Qed.

Lemma um_inv_size prefix um s m ks : um_inv prefix um s m ks -> size m = length ks.
Proof.
  intros I. rewrite <- (size_dom (D:=gset string)),
    <- (size_list_to_set (C:=gset string) ks) by apply (inv_nodup _ _ _ _ _ I).
  f_equal. apply set_eq. intros k. rewrite elem_of_dom, elem_of_list_to_set.
  symmetry. apply (inv_dom _ _ _ _ _ I).
Qed.

Lemma index_key_ne v i j :
  Z.of_nat i < 2 ^ 64 -> Z.of_nat j < 2 ^ 64 -> i <> j ->
  index_to_lookup_key v (Z.of_nat i) <> index_to_lookup_key v (Z.of_nat j).
Proof. intros ?? Hne E%index_to_lookup_key_inj; lia. Qed.

(** Discharges the disjointness of two keys of different regions. *)
Ltac um_disjoint :=
  first [ by eapply header_index_keys | by eapply header_index_values
        | by eapply header_keys_values
        | apply not_eq_sym; first [ by eapply header_index_keys
              | by eapply header_index_values | by eapply header_keys_values ] ].

(** ** [get] is the lookup *)

Section Repr.
Context (prefix : list Z) (um : UnorderedMap) (s : Store) (m : gmap string Token)
  (ks : list string) (I : um_inv prefix um s m ks).

(** The entry of a key in the index, if any, is the key's position. *)
Lemma index_entry k kb :
  ser_string k = Ok kb ->
  match s !! raw_key_to_index_lookup um kb with
  | Some raw => exists i t, ks !! i = Some k /\ m !! k = Some t /\ entry_stored um s i k t /\
                  raw = serialize_index (Z.of_nat i)
  | None => m !! k = None
  end.
Proof.
  intros Hkb. destruct (s !! raw_key_to_index_lookup um kb) as [raw|] eqn:E.
  - destruct (inv_index _ _ _ _ _ I _ _ E) as (i & k' & Hi & Hk').
    rewrite <- (ser_string_inj _ _ _ Hkb Hk') in Hi.
    destruct (inv_entries _ _ _ _ _ I i k Hi) as (t & Hm & Hst).
    exists i, t. split_and!; [done..|].
    destruct Hst as (kb' & vb & Hkb' & _ & _ & H1 & _). rewrite Hkb in Hkb'.
    injection Hkb' as <-. rewrite E in H1. by injection H1.
  - destruct (m !! k) as [t|] eqn:Hm; [|done]. exfalso.
    assert (Hin : k ∈ ks) by (apply (inv_dom _ _ _ _ _ I); by eexists).
    apply list_elem_of_lookup_1 in Hin as [i Hi].
    destruct (inv_entries _ _ _ _ _ I i k Hi) as (t' & _ & kb' & vb & Hkb' & _ & _ & H1 & _).
    rewrite Hkb in Hkb'. injection Hkb' as <-. by rewrite E in H1.
Qed.

(** ** [insert] is [<[k:=t]>] *)

(** Replacing the value of the [i]-th key. *)
Lemma um_inv_replace i k kb t vb :
  ks !! i = Some k -> ser_string k = Ok kb -> ser_token t = Ok vb -> rust_token t = true ->
  um_inv prefix um (<[index_to_lookup_key (um_values um) (Z.of_nat i) := vb]> s) (<[k:=t]> m) ks.
Proof.
  intros Hi Hkb Hvb Ht. pose proof (inv_header _ _ _ _ _ I) as Hh.
  pose proof (inv_bound _ _ _ _ _ I). pose proof (lookup_lt_Some _ _ _ Hi).
  constructor; try apply I.
  - intros k'. rewrite (inv_dom _ _ _ _ _ I), lookup_insert_is_Some'.
    assert (is_Some (m !! k)) by (apply (inv_dom _ _ _ _ _ I); by eapply list_elem_of_lookup_2).
    naive_solver.
  - intros j k' Hj. pose proof (lookup_lt_Some _ _ _ Hj).
    destruct (decide (k' = k)) as [->|Hne].
    + assert (j = i) as -> by (eapply NoDup_lookup; [apply I|done..]).
      destruct (inv_entries _ _ _ _ _ I i k Hi) as (t0 & _ & kb0 & vb0 & Hkb0 & _ & _ & E1 & E2 & _).
      exists t. rewrite lookup_insert_eq. split; [done|]. exists kb0, vb.
      rewrite lookup_insert_eq, !lookup_insert_ne by um_disjoint. done.
    + assert (j <> i) by (intros ->; congruence).
      destruct (inv_entries _ _ _ _ _ I j k' Hj) as (t' & Hm & Hst).
      exists t'. rewrite lookup_insert_ne by done. split; [done|].
      apply entry_stored_insert_ne; [done|intros; um_disjoint|um_disjoint|].
      apply index_key_ne; lia.
  - intros kb' raw. rewrite lookup_insert_ne by um_disjoint. apply I.
Qed.

(** The map after [insert_raw] pushed a new key: the index entry, the
    key and the value at position [n = length ks], both lengths [n + 1]. *)
Definition pushed (kb vb : list Z) : UnorderedMap * Store :=
  let n := Z.of_nat (length ks) in
  (mkUnorderedMap (um_key_index_prefix um) (mkVector (n + 1) (vec_prefix (um_keys um)))
     (mkVector (n + 1) (vec_prefix (um_values um))),
   <[index_to_lookup_key (um_values um) n := vb]>
     (<[index_to_lookup_key (um_keys um) n := kb]>
        (<[raw_key_to_index_lookup um kb := serialize_index n]> s))).

(** Pushing a key that is not in the map. *)
Lemma um_inv_push k kb t vb :
  m !! k = None -> ser_string k = Ok kb -> ser_token t = Ok vb -> rust_token t = true ->
  Z.of_nat (length ks) + 1 < 2 ^ 64 ->
  um_inv prefix (pushed kb vb).1 (pushed kb vb).2 (<[k:=t]> m) (ks ++ [k]).
Proof.
  intros Hk Hkb Hvb Ht Hb. pose proof (inv_header _ _ _ _ _ I) as Hh. unfold pushed; simpl.
  assert (Hnin : k ∉ ks) by (rewrite (inv_dom _ _ _ _ _ I), Hk; apply is_Some_None).
  constructor; simpl.
  - exact Hh.
  - apply NoDup_app. split_and!; [apply I| set_solver | apply NoDup_singleton].
  - intros k'. rewrite elem_of_app, list_elem_of_singleton, (inv_dom _ _ _ _ _ I),
      lookup_insert_is_Some'. naive_solver.
  - intros j k' [[Hj Hj']|[-> <-]]%lookup_snoc_Some.
    + assert (Hne : k' <> k) by (intros ->; by eapply Hnin, list_elem_of_lookup_2).
      destruct (inv_entries _ _ _ _ _ I j k' Hj') as (t' & Hm & Hst).
      exists t'. rewrite lookup_insert_ne by done. split; [done|].
      apply (entry_stored_same_prefixes um); [done..|].
      repeat apply entry_stored_insert_ne; [exact Hst|..]; try (intros; um_disjoint);
        try (apply index_key_ne; lia).
      intros kb' Hkb' E. apply app_inv_head in E as <-. by apply Hne, (ser_string_inj _ _ _ Hkb' Hkb).
    + exists t. rewrite lookup_insert_eq. split; [done|].
      apply (entry_stored_same_prefixes um); [done..|]. exists kb, vb.
      rewrite lookup_insert_eq, (lookup_insert_ne _ _ (index_to_lookup_key _ _)),
        lookup_insert_eq, !(lookup_insert_ne _ _ (raw_key_to_index_lookup _ _)), lookup_insert_eq
        by um_disjoint. done.
  - rewrite length_app; simpl; lia.
  - rewrite length_app; simpl; lia.
  - rewrite length_app; simpl; lia.
  - intros kb' raw. unfold raw_key_to_index_lookup; simpl.
    fold (raw_key_to_index_lookup um kb) (raw_key_to_index_lookup um kb').
    rewrite !lookup_insert_ne by um_disjoint.
    rewrite lookup_insert_Some. intros [[E _]|[_ E]].
    + apply app_inv_head in E as <-. exists (length ks), k. by rewrite lookup_snoc_Some; auto.
    + destruct (inv_index _ _ _ _ _ I _ _ E) as (i & k' & Hi & Hk').
      exists i, k'. split; [by apply lookup_app_l_Some|done].
Qed.

End Repr.

(** ** Framing: a map writes only under its prefix *)

Lemma header_under (prefix : list Z) um kb i :
  um_header prefix um ->
  prefix `prefix_of` raw_key_to_index_lookup um kb /\
  prefix `prefix_of` index_to_lookup_key (um_keys um) i /\
  prefix `prefix_of` index_to_lookup_key (um_values um) i.
Proof.
  intros (H1 & H2 & H3). unfold raw_key_to_index_lookup, index_to_lookup_key.
  rewrite H1, H2, H3. split_and!; apply tagged_prefix.
Qed.

Lemma frame_insert (prefix : list Z) (s s' : Store) (key v : list Z) :
  frame prefix s s' -> prefix `prefix_of` key -> frame prefix s (<[key := v]> s').
Proof. intros Hf Hp key' Hk. rewrite lookup_insert_ne; [by apply Hf|]. by intros ->. Qed.

Lemma frame_refl (prefix : list Z) (s : Store) : frame prefix s s.
Proof. done. Qed.

#[local] Hint Resolve frame_refl : core.

(** A write outside a region keeps it. *)
Lemma agree_under_insert (p : list Z) (s : Store) (key v : list Z) :
  ~ p `prefix_of` key -> agree_under p s (<[key := v]> s).
Proof. intros Hk key' Hp. rewrite lookup_insert_ne; [done|]. intros ->. by apply Hk. Qed.

(** A write inside the region of one prefix leaves the region of a
    prefix that is not comparable to it. *)
Lemma frame_disjoint (p q : list Z) (s s' : Store) :
  frame p s s' -> ~ p `prefix_of` q -> ~ q `prefix_of` p -> agree_under q s s'.
Proof.
  intros Hf Hpq Hqp key Hq. apply Hf. intros Hp.
  destruct (prefix_weak_total p q key) as [?|?]; auto.
Qed.

(** [insert] writes only under the map's prefix, on every path. *)
Lemma um_insert_writes_under prefix um k t :
  um_header prefix um -> writes_under prefix (um_insert um k t).
Proof.
  intros Hh s0 a s' H.
  pose proof (fun kb => proj1 (header_under prefix um kb 0 Hh)) as Hi.
  pose proof (fun i => proj1 (proj2 (header_under prefix um [] i Hh))) as Hk.
  pose proof (fun i => proj2 (proj2 (header_under prefix um [] i Hh))) as Hv.
  unfold um_insert, serialize_key, serialize_value, um_insert_raw, deserialize_index,
    vec_replace_raw, um_len, vec_push_raw, deserialize_value, storage_read, storage_write,
    st_bind, st_ret, st_panic in H. cbn beta iota in H.
  repeat (case_match; simplify_eq); repeat apply frame_insert; auto.
Qed.

(** A map created at an empty region represents the empty map. *)
Lemma um_new_inv prefix s : region_empty prefix s -> um_inv prefix (um_new prefix) s ∅ [].
Proof.
  intros He. constructor; simpl; try done.
  - by constructor.
  - intros k. rewrite lookup_empty. split; [set_solver | by intros []].
  - intros kb raw. unfold raw_key_to_index_lookup. simpl.
    rewrite He by apply tagged_prefix. done.
Qed.

Lemma um_new_repr prefix s : region_empty prefix s -> um_repr prefix (um_new prefix) s ∅.
Proof. exists []. by apply um_new_inv. Qed.

(** The representation reads only the map's region. *)
Lemma um_inv_agree prefix um s s' m ks :
  um_inv prefix um s m ks -> agree_under prefix s s' -> um_inv prefix um s' m ks.
Proof.
  intros I Ha. pose proof (inv_header _ _ _ _ _ I) as Hh.
  constructor; try apply I.
  - intros i k Hi. destruct (inv_entries _ _ _ _ _ I i k Hi) as (t & Hm & kb & vb & E).
    exists t. split; [done|]. exists kb, vb.
    destruct (header_under prefix um kb (Z.of_nat i) Hh) as (P1 & P2 & P3).
    by rewrite !Ha.
  - intros kb raw. rewrite Ha by apply (header_under prefix um kb 0 Hh). apply I.
Qed.

Lemma um_repr_agree prefix um s s' m :
  um_repr prefix um s m -> agree_under prefix s s' -> um_repr prefix um s' m.
Proof. intros [ks I] Ha. exists ks. by eapply um_inv_agree. Qed.

(** ** The refinement: a map on storage is a [gmap] *)

(** C21. [UnorderedMap::get] on a map representing [m] returns [m !! k]
    and leaves the storage as it is. *)
Theorem um_get_repr prefix um s m k :
  um_repr prefix um s m -> Z.of_nat (String.length k) < 2 ^ 32 ->
  um_get um k s = Ok (m !! k, s).
Proof.
  intros [ks I] Hk. destruct (ser_string_ok k Hk) as [kb Hkb].
  pose proof (index_entry prefix um s m ks I k kb Hkb) as He. pose proof (inv_bound _ _ _ _ _ I).
  unfold um_get, serialize_key. rewrite Hkb.
  unfold um_get_raw, get_index_raw, vec_get_raw, deserialize_index, deserialize_value,
    storage_read, st_bind, st_ret, st_panic. cbn beta iota.
  destruct (s !! raw_key_to_index_lookup um kb) as [raw|]; [|by rewrite He].
  destruct He as (i & t & Hi & Hm & (kb' & vb & _ & Hvb & Hrt & _ & _ & H3) & ->).
  pose proof (lookup_lt_Some _ _ _ Hi) as Hlt.
  unfold serialize_index. rewrite length_u64_le_bytes, le_value_u64_le_bytes by lia.
  cbn [Nat.eqb]. rewrite (inv_values_len _ _ _ _ _ I).
  destruct (Z.leb_spec (Z.of_nat (length ks)) (Z.of_nat i)); [lia|].
  by rewrite H3, (token_reads_back _ _ Hrt Hvb), Hm.
Qed.

(** C19. [UnorderedMap::insert] on a map representing [m] returns
    [m !! k], the map it leaves represents [<[k:=t]> m], and it writes
    only under the map's prefix. *)
Theorem um_insert_repr prefix um s m k t :
  um_repr prefix um s m -> Z.of_nat (String.length k) < 2 ^ 32 -> rust_token t = true ->
  Z.of_nat (size m) + 1 < 2 ^ 64 ->
  exists um' s', um_insert um k t s = Ok ((um', m !! k), s') /\
    um_repr prefix um' s' (<[k:=t]> m) /\ frame prefix s s'.
Proof.
  intros [ks I] Hk Ht Hs.
  enough (exists um' s', um_insert um k t s = Ok ((um', m !! k), s') /\
    um_repr prefix um' s' (<[k:=t]> m)) as (um' & s' & E & Hr).
  { exists um', s'. split_and!; [done..|].
    eapply um_insert_writes_under; [apply (inv_header _ _ _ _ _ I) | exact E]. }
  rewrite (um_inv_size _ _ _ _ _ I) in Hs.
  destruct (ser_string_ok k Hk) as [kb Hkb], (token_total t Ht) as [vb Hvb].
  pose proof (index_entry prefix um s m ks I k kb Hkb) as He.
  pose proof (inv_keys_len _ _ _ _ _ I) as Lk. pose proof (inv_values_len _ _ _ _ _ I) as Lv.
  unfold um_insert, serialize_key, serialize_value. rewrite Hkb, Hvb.
  unfold um_insert_raw, deserialize_index, vec_replace_raw, um_len, vec_push_raw,
    deserialize_value, storage_read, storage_write, st_bind, st_ret, st_panic. cbn beta iota.
  destruct (s !! raw_key_to_index_lookup um kb) as [raw|].
  - destruct He as (i & t0 & Hi & Hm & (kb' & vb0 & _ & Hvb0 & Hrt0 & _ & _ & H3) & ->).
    pose proof (lookup_lt_Some _ _ _ Hi).
    unfold serialize_index. rewrite length_u64_le_bytes, le_value_u64_le_bytes by lia.
    cbn [Nat.eqb]. rewrite Lv. destruct (Z.leb_spec (Z.of_nat (length ks)) (Z.of_nat i)); [lia|].
    rewrite H3, (token_reads_back _ _ Hrt0 Hvb0), Hm.
    eexists _, _. split; [reflexivity|]. eexists. by eapply (um_inv_replace prefix um s m ks I).
  - rewrite Lk, Lv, Z.eqb_refl, Z.mod_small by lia.
    eexists _, _. split; [by rewrite He|]. eexists. by apply (um_inv_push prefix um s m ks I k kb t vb).
Qed.

(** A represented map's header is one Borsh can write and read back. *)
Lemma um_repr_rust prefix um s m :
  um_repr prefix um s m -> Z.of_nat (length prefix) + 1 < 2 ^ 32 -> rust_unordered_map um = true.
Proof.
  intros [ks I] Hp. destruct (inv_header _ _ _ _ _ I) as (H1 & H2 & H3).
  pose proof (inv_bound _ _ _ _ _ I).
  unfold rust_unordered_map, rust_vector, short_bytes.
  rewrite H1, H2, H3, (inv_keys_len _ _ _ _ _ I), (inv_values_len _ _ _ _ _ I).
  rewrite ?length_app. simpl length.
  repeat (apply andb_true_intro; split); first [apply Z.ltb_lt | apply Z.leb_le]; lia.
Qed.

(** ** [LazyOption] is a cell *)

Section Cell.
Context {V : Type} (ser : V -> result (list Z) BorshError) (de : Parser V) (P : V -> bool)
  (Hrt : roundtrips ser de P) (Htot : total ser P).

(** The cell at [lo] holds the Borsh bytes of [v]. *)
Definition lo_repr (lo : LazyOption) (s : Store) (v : option V) : Prop :=
  match v with
  | None => s !! lo_storage_key lo = None
  | Some x => P x = true /\ exists raw, ser x = Ok raw /\ s !! lo_storage_key lo = Some raw
  end.

Lemma lo_get_repr lo s v : lo_repr lo s v -> lo_get de lo s = Ok (v, s).
Proof.
  unfold lo_get, storage_read, st_bind, st_ret. cbn beta iota.
  destruct v as [x|]; simpl; [|by intros ->].
  intros (Hx & raw & E & ->). by rewrite (slice_reads_back _ _ _ _ _ Hrt Hx E).
Qed.

Lemma lo_repr_agree lo s s' v :
  lo_repr lo s v -> agree_under (lo_storage_key lo) s s' -> lo_repr lo s' v.
Proof. intros Hr Ha. destruct v; simpl in *; by rewrite Ha. Qed.

(** Two storages holding the same value in a cell hold the same bytes. *)
Lemma lo_repr_lookup_eq lo s s' v :
  lo_repr lo s v -> lo_repr lo s' v -> s' !! lo_storage_key lo = s !! lo_storage_key lo.
Proof.
  destruct v; simpl; [|by intros -> ->].
  intros (_ & r & E & ->) (_ & r' & E' & ->). congruence.
Qed.

Lemma lo_new_repr key s v :
  P v = true ->
  exists s', lo_new ser key (Some v) s = Ok (mkLazyOption key, s') /\
    lo_repr (mkLazyOption key) s' (Some v) /\ frame key s s'.
Proof.
  intros Hv. destruct (Htot v Hv) as [raw E].
  unfold lo_new, lo_set, storage_write, st_bind, st_ret. rewrite E. cbn beta iota.
  eexists. split; [done|]. split.
  - split; [done|]. exists raw. split; [done|]. apply lookup_insert_eq.
  - by apply frame_insert.
Qed.
End Cell.

(** ** Witnesses *)

Definition demo_key : string := "t1".
Definition demo_key_bytes : list Z :=
  match ser_string demo_key with Ok b => b | Err _ => [] end.
Definition demo_value_bytes : list Z :=
  match ser_token demo_token with Ok b => b | Err _ => [] end.

(** The map at [[0]] after its first [insert], as [insert_raw] leaves it. *)
Definition demo_map : gmap string Token := <[demo_key := demo_token]> ∅.
Definition demo_um : UnorderedMap := (pushed (um_new [0]) ∅ [] demo_key_bytes demo_value_bytes).1.
Definition demo_store : Store := (pushed (um_new [0]) ∅ [] demo_key_bytes demo_value_bytes).2.

Lemma region_empty_empty prefix : region_empty prefix ∅.
Proof. intros key _. apply lookup_empty. Qed.

Lemma demo_repr : um_repr [0] demo_um demo_store demo_map.
Proof.
  exists ([] ++ [demo_key]). unfold demo_um, demo_store, demo_map.
  apply um_inv_push; [apply um_new_inv, region_empty_empty | vm_compute; reflexivity..].
Qed.

Lemma um_insert_repr_witness :
  um_repr [0] demo_um demo_store demo_map /\ Z.of_nat (String.length "t2") < 2 ^ 32 /\
  rust_token demo_token = true /\ Z.of_nat (size demo_map) + 1 < 2 ^ 64 /\
  exists um' s', um_insert demo_um "t2" demo_token demo_store = Ok ((um', demo_map !! "t2"), s') /\
    um_repr [0] um' s' (<[ "t2" := demo_token ]> demo_map) /\ frame [0] demo_store s'.
Proof.
  pose proof demo_repr as H.
  split_and!; [exact H | vm_compute; reflexivity..|].
  apply (um_insert_repr [0] demo_um demo_store demo_map "t2" demo_token H);
    vm_compute; reflexivity.
Defined.

Lemma um_get_repr_witness :
  um_repr [0] demo_um demo_store demo_map /\ Z.of_nat (String.length demo_key) < 2 ^ 32 /\
  um_get demo_um demo_key demo_store = Ok (Some demo_token, demo_store).
Proof.
  pose proof demo_repr as H.
  split_and!; [exact H | vm_compute; reflexivity |].
  apply (um_get_repr [0] demo_um demo_store demo_map demo_key H). vm_compute. reflexivity.
Defined.

End Storage.
