(* ===== verification/Contract.v ===== *)
(** * The contract's methods ([impl Contract], src/src/lib.rs lines 43-83)

    [Module NftContract] holds the state [Contract] (lines 6-12) and the
    four methods.  Everything is stated over any implementation [M] of
    the [UnorderedMap] interface of [Collections]: the definitions only
    use its operations, the theorems only its laws.  A mutating method
    is a computation in the prelude's [ST] monad on [VMState Contract]
    ([self] and the log), taking the call context as an argument; a
    view ([&self]) is a function of the contract value. *)

From stdpp Require Import base gmap strings list.
From Stdlib Require Import ZArith.
From S2P Require Import Prelude Types Env Collections.

Module NftContract.

Section Methods.
Context {M : Type} `{!UnorderedMapOps string Token M}.

(** [struct Contract] (lines 6-12). *)
Record Contract := mkContract {
  owner_id : AccountId;
  tokens_by_id : M;
  metadata : LazyOption NFTContractMetadata;
}.

(** The [spec] string [new] writes (line 48). *)
Definition NFT_SPEC : string := "nft-1.0.0".

(** [Contract::new] (lines 45-58): the metadata cell is written once,
    with [spec = "nft-1.0.0"], and the token map starts empty. *)
Definition new (owner_id : AccountId) (name symbol : string) : Contract :=
  let metadata := mkNFTContractMetadata NFT_SPEC name symbol in
  mkContract owner_id
             (umap_new (into_storage_key TokensById))
             (lazy_new (into_storage_key Metadata) (Some metadata)).

(** The account literal [mint_nft] compares the caller with (line 63). *)
Definition MINTER : AccountId := "gelezako.testnet".

(** The message of the assertion at line 63. *)
Definition MINT_ASSERT_MSG : string := "Only the owner can mint NFTs".

(** The log line of line 71: [format!("Token {} minted for {}", ..)]. *)
Definition mint_log (token_id caller : string) : string :=
  ("Token " ++ token_id ++ " minted for " ++ caller)%string.

(** [self.tokens_by_id.insert(&token_id, &token)] (line 70). *)
Definition insert_token (token_id : string) (token : Token)
  : ST (VMState Contract) Aborted (option Token) :=
  with_self (fun c =>
    let '(m', old) := umap_insert (tokens_by_id c) token_id token in
    (mkContract (owner_id c) m' (metadata c), old)).

(** [Contract::mint_nft] (lines 60-72). *)
Definition mint_nft (ctx : VMContext) (token_id : string) (md : TokenMetadata)
  : ST (VMState Contract) Aborted unit :=
  let caller := predecessor_account_id ctx in
  assert_eq caller MINTER MINT_ASSERT_MSG ;;
  let token := mkToken caller md in
  let* _ := insert_token token_id token in
  log_str (mint_log token_id caller).

(** [Contract::nft_token] (lines 75-77). *)
Definition nft_token (c : Contract) (token_id : string) : option Token :=
  umap_get (tokens_by_id c) token_id.

(** [Contract::nft_metadata] (lines 80-82): [self.metadata.get().unwrap()]. *)
Definition nft_metadata (c : Contract) : result NFTContractMetadata Panic :=
  result_of_option (lazy_get (metadata c)) UnwrapNone.

(** The state [mint_nft] leaves on success, written out. *)
Definition minted (c : Contract) (token_id : string) (token : Token) : Contract :=
  mkContract (owner_id c) (umap_insert (tokens_by_id c) token_id token).1 (metadata c).
End Methods.

Arguments Contract M : clear implicits.

Section Theory.
Context {M : Type} `{!UnorderedMapOps string Token M}
        `{!UnorderedMapLaws string Token M}.

Implicit Types (c : Contract M) (v : VMState (Contract M)).

(** [mint_nft] in closed form: the assertion decides, and on success
    the token is inserted and one line is logged. *)
Lemma mint_nft_run ctx token_id md v :
  mint_nft ctx token_id md v =
    let caller := predecessor_account_id ctx in
    if String.eqb caller MINTER
    then Ok (tt, mkVMState (minted (self v) token_id (mkToken caller md))
                           (logs v ++ [mint_log token_id caller]))
    else Err (AssertEqFailed MINT_ASSERT_MSG caller MINTER, logs v).
Proof.
  unfold mint_nft, assert_eq, st_bind.
  destruct (String.eqb _ _); [|done]. cbn beta iota.
  unfold insert_token, with_self, minted, st_bind. simpl.
  destruct (umap_insert _ _ _). by autorewrite with nft_rw.
Qed.

Lemma mint_nft_Ok_inv ctx token_id md v u v' :
  mint_nft ctx token_id md v = Ok (u, v') ->
  predecessor_account_id ctx = MINTER /\
  self v' = minted (self v) token_id (mkToken MINTER md) /\
  logs v' = logs v ++ [mint_log token_id MINTER].
Proof.
  rewrite mint_nft_run. simpl.
  case_string_eqb Hc; [rewrite Hc|done].
  by intros [= <- <-].
Qed.

(** Lookups in the state [mint_nft] leaves. *)
Lemma nft_token_minted c token_id token token_id' :
  nft_token (minted c token_id token) token_id' =
    if decide (token_id = token_id') then Some token else nft_token c token_id'.
Proof. apply umap_get_insert. Qed.

Lemma nft_token_new owner name symbol token_id :
  nft_token (new owner name symbol : Contract M) token_id = None.
Proof. apply umap_get_new. Qed.

(** C1. When the caller is the hard-coded account "gelezako.testnet",
    [mint_nft] succeeds: afterwards [nft_token] returns the token
    owned by the caller with the given metadata, every other token id
    reads as before, [owner_id] and the collection metadata are
    unchanged, and exactly the line "Token <id> minted for <caller>"
    is appended to the log. *)
Theorem mint_nft_authorized ctx token_id md v :
  predecessor_account_id ctx = MINTER ->
  exists c',
    mint_nft ctx token_id md v =
      Ok (tt, mkVMState c' (logs v ++ [mint_log token_id MINTER])) /\
    nft_token c' token_id = Some (mkToken MINTER md) /\
    (forall token_id', token_id' <> token_id ->
       nft_token c' token_id' = nft_token (self v) token_id') /\
    owner_id c' = owner_id (self v) /\
    metadata c' = metadata (self v).
Proof.
  intros Hcaller. exists (minted (self v) token_id (mkToken MINTER md)).
  rewrite mint_nft_run. simpl. rewrite Hcaller, String.eqb_refl.
  split_and!; [done| | |done|done]; intros; rewrite nft_token_minted.
  - by rewrite decide_True.
  - by rewrite decide_False.
Qed.

(** C2. When the caller is any other account, [mint_nft] panics with
    the failed [assert_eq!] of line 63 (message "Only the owner can
    mint NFTs", left the caller, right "gelezako.testnet") before it
    logs anything: a panic returns no state, so nothing of the call is
    kept, and the log it ends with is the one it started with. *)
Theorem mint_nft_unauthorized ctx token_id md v :
  predecessor_account_id ctx <> MINTER ->
  mint_nft ctx token_id md v =
    Err (AssertEqFailed MINT_ASSERT_MSG (predecessor_account_id ctx) MINTER, logs v).
Proof.
  intros Hcaller. rewrite mint_nft_run. simpl.
  by case_string_eqb Hc.
Qed.

(** C13. Minting the same token id twice keeps only the second record
    (last writer wins): the token map after both calls has the same
    lookups as after the second call alone. *)
Theorem mint_nft_last_write_wins ctx token_id md1 md2 v v1 v2 :
  mint_nft ctx token_id md1 v = Ok (tt, v1) ->
  mint_nft ctx token_id md2 v1 = Ok (tt, v2) ->
  nft_token (self v2) token_id = Some (mkToken MINTER md2) /\
  umap_equiv (tokens_by_id (self v2))
             (tokens_by_id (minted (self v) token_id (mkToken MINTER md2))).
Proof.
  intros (_ & Hv1 & _)%mint_nft_Ok_inv (_ & Hv2 & _)%mint_nft_Ok_inv.
  rewrite Hv2, Hv1. split.
  - rewrite nft_token_minted. by rewrite decide_True.
  - apply umap_insert_insert.
Qed.

(** C23. Mints of two distinct token ids commute: whichever order the
    two calls arrive in, the token map ends with the same lookups, and
    the owner and metadata are the same (only the log order differs). *)
Theorem mint_nft_commute ctx1 ctx2 id1 id2 md1 md2 v v1 v12 v2 v21 :
  id1 <> id2 ->
  mint_nft ctx1 id1 md1 v = Ok (tt, v1) -> mint_nft ctx2 id2 md2 v1 = Ok (tt, v12) ->
  mint_nft ctx2 id2 md2 v = Ok (tt, v2) -> mint_nft ctx1 id1 md1 v2 = Ok (tt, v21) ->
  umap_equiv (tokens_by_id (self v12)) (tokens_by_id (self v21)) /\
  owner_id (self v12) = owner_id (self v21) /\ metadata (self v12) = metadata (self v21).
Proof.
  intros Hne (_ & H1 & _)%mint_nft_Ok_inv (_ & H12 & _)%mint_nft_Ok_inv
    (_ & H2 & _)%mint_nft_Ok_inv (_ & H21 & _)%mint_nft_Ok_inv.
  rewrite H12, H1, H21, H2. split_and!; [|done|done].
  by apply umap_insert_commute.
Qed.
End Theory.

(** ** Witnesses on the [gmap] implementation *)

Abbreviation GContract := (Contract (GUnorderedMap string Token)).

Definition demo_contract : GContract := new "alice" "Demo" "DEMO".
Definition demo_md : TokenMetadata := mkTokenMetadata (Some "A"%string) None None.
Definition minter_ctx : VMContext := mkVMContext MINTER 0.
Definition alice_ctx : VMContext := mkVMContext "alice" 0.

Lemma mint_nft_authorized_witness :
  exists c' : GContract,
    mint_nft minter_ctx "t1" demo_md (mkVMState demo_contract []) =
      Ok (tt, mkVMState c' ([] ++ [mint_log "t1" MINTER])) /\
    nft_token c' "t1" = Some (mkToken MINTER demo_md) /\
    (forall token_id', token_id' <> "t1"%string ->
       nft_token c' token_id' = nft_token demo_contract token_id') /\
    owner_id c' = owner_id demo_contract /\
    metadata c' = metadata demo_contract.
Proof. apply (mint_nft_authorized minter_ctx "t1" demo_md (mkVMState demo_contract [])). reflexivity. Defined.

Lemma mint_nft_unauthorized_witness :
  mint_nft alice_ctx "t1" demo_md (mkVMState demo_contract []) =
    Err (AssertEqFailed MINT_ASSERT_MSG "alice" MINTER, []).
Proof. apply (mint_nft_unauthorized alice_ctx "t1" demo_md (mkVMState demo_contract [])). vm_compute. discriminate. Defined.

Definition demo_md2 : TokenMetadata := mkTokenMetadata (Some "B"%string) None None.

(** The state a successful call leaves (the initial one if it panics). *)
Definition after {C} (r : result (unit * VMState C) Aborted) (v : VMState C) : VMState C :=
  match r with Ok (_, v') => v' | Err _ => v end.

Definition demo_v0 : VMState GContract := mkVMState demo_contract [].
Definition demo_v1 : VMState GContract :=
  after (mint_nft minter_ctx "t1" demo_md demo_v0) demo_v0.
Definition demo_v2 : VMState GContract :=
  after (mint_nft minter_ctx "t1" demo_md2 demo_v1) demo_v1.

Lemma mint_nft_last_write_wins_witness :
  nft_token (self demo_v2) "t1" = Some (mkToken MINTER demo_md2) /\
  umap_equiv (tokens_by_id (self demo_v2))
             (tokens_by_id (minted demo_contract "t1" (mkToken MINTER demo_md2))).
Proof.
  apply (mint_nft_last_write_wins minter_ctx "t1" demo_md demo_md2 demo_v0 demo_v1 demo_v2);
    vm_compute; reflexivity.
Defined.

Definition demo_v1' : VMState GContract :=
  after (mint_nft minter_ctx "t2" demo_md2 demo_v0) demo_v0.
Definition demo_v12 : VMState GContract :=
  after (mint_nft minter_ctx "t2" demo_md2 demo_v1) demo_v1.
Definition demo_v21 : VMState GContract :=
  after (mint_nft minter_ctx "t1" demo_md demo_v1') demo_v1'.

Lemma mint_nft_commute_witness :
  umap_equiv (tokens_by_id (self demo_v12)) (tokens_by_id (self demo_v21)) /\
  owner_id (self demo_v12) = owner_id (self demo_v21) /\
  metadata (self demo_v12) = metadata (self demo_v21).
Proof.
  apply (mint_nft_commute minter_ctx minter_ctx "t1" "t2" demo_md demo_md2
           demo_v0 demo_v1 demo_v12 demo_v1' demo_v21);
    [discriminate | vm_compute; reflexivity ..].
Defined.

End NftContract.
