(* ===== verification/Layout.v ===== *)
(** * The contract on its storage layout

    [Module Layout] runs the contract's methods (src/src/lib.rs lines
    43-83) on the storage near-sdk gives them, as modelled in
    [Storage]: the fields [tokens_by_id] and [metadata] of [struct
    Contract] (lines 8-12) are the headers of an [UnorderedMap] at the
    prefix [borsh(StorageKey::TokensById) = [0]] and of a [LazyOption]
    at [borsh(StorageKey::Metadata) = [1]] (lines 14-18, 55-56), and the
    entries live in the account's storage [Store].  A mutating method is
    a computation on a [World] (the contract value, the storage and the
    log) whose panics are the contract's ([Env.Panic]) or the
    collections' ([Storage.CollectionsError]), each with the log lines
    emitted before it.

    [contract_repr] relates a contract of [NftContract] on the [gmap]
    implementation of the collections to a contract header and a
    storage.  The theorems show that [new], [mint_nft], [nft_token] and
    [nft_metadata] on storage do what [NftContract]'s methods do on
    related states, panics included: every theorem about [NftContract]
    on [gmap] holds of the storage layout. *)

From stdpp Require Import base gmap strings list.
From Stdlib Require Import ZArith Lia.
From S2P Require Import Prelude Types Account Borsh Env Collections Storage Contract.
Import Borsh Storage.

Module Layout.
Local Open Scope Z_scope.

(** The contract of [NftContract] on the [gmap] collections. *)
Abbreviation GContract := (NftContract.Contract (GUnorderedMap string Token)).

(** The panics of a call: the contract's own, those of the collections,
    and those of [env::state_read] / [env::state_write] on the contract
    value ("Cannot deserialize the contract state.", "Cannot serialize
    the contract state."). *)
Inductive HostPanic :=
| ContractPanic (p : Panic)
| CollectionPanic (e : CollectionsError)
| StateDeserialize
| StateSerialize.

(** [struct Contract] (lines 8-12) as Borsh stores it: the owner and
    the two collection headers. *)
Record Contract := mkContract {
  owner_id : AccountId;
  tokens_by_id : UnorderedMap;
  metadata : LazyOption;
}.

(** What a call sees: [self], the storage and the log. *)
Record World := mkWorld {
  w_self : Contract;
  w_storage : Store;
  w_logs : list string;
}.

(** A panic of a method on storage, with the log lines before it. *)
Abbreviation HostAborted := (HostPanic * list string)%type.

(** A computation on [self] and the log ([assert_eq!], [env::log_str]). *)
Definition on_contract {A} (c : ST (VMState Contract) Aborted A) : ST World HostAborted A :=
  fun w =>
    match c (mkVMState (w_self w) (w_logs w)) with
    | Ok (a, v) => Ok (a, mkWorld (self v) (w_storage w) (logs v))
    | Err (p, l) => Err (ContractPanic p, l)
    end.

(** [Contract::new] (lines 45-58): [UnorderedMap::new] writes nothing,
    [LazyOption::new] writes the Borsh bytes of the metadata at [[1]]. *)
Definition new (owner : AccountId) (name symbol : string) : ST Store CollectionsError Contract :=
  let md := mkNFTContractMetadata NftContract.NFT_SPEC name symbol in
  let tokens := um_new (into_storage_key TokensById) in
  let* cell := lo_new ser_nft_contract_metadata (into_storage_key Metadata) (Some md) in
  st_ret (mkContract owner tokens cell).

(** [self.tokens_by_id.insert(&token_id, &token)] (line 70): the map
    header in [self] is replaced by the one [insert] returns. *)
Definition insert_token (token_id : string) (token : Token) : ST World HostAborted (option Token) :=
  fun w =>
    let c := w_self w in
    match um_insert (tokens_by_id c) token_id token (w_storage w) with
    | Ok ((um', old), s') => Ok (old, mkWorld (mkContract (owner_id c) um' (metadata c)) s' (w_logs w))
    | Err e => Err (CollectionPanic e, w_logs w)
    end.

(** [Contract::mint_nft] (lines 60-72). *)
Definition mint_nft (ctx : VMContext) (token_id : string) (md : TokenMetadata)
  : ST World HostAborted unit :=
  let caller := predecessor_account_id ctx in
  on_contract (assert_eq caller NftContract.MINTER NftContract.MINT_ASSERT_MSG) ;;
  let token := mkToken caller md in
  let* _ := insert_token token_id token in
  on_contract (log_str (NftContract.mint_log token_id caller)).

(** [Contract::nft_token] (lines 75-77). *)
Definition nft_token (c : Contract) (token_id : string) : ST Store CollectionsError (option Token) :=
  um_get (tokens_by_id c) token_id.

(** [Contract::nft_metadata] (lines 80-82): [get], then [unwrap]. *)
Definition nft_metadata (c : Contract) : ST Store HostPanic NFTContractMetadata :=
  fun s =>
    match lo_get de_nft_contract_metadata (metadata c) s with
    | Ok (Some m, s') => Ok (m, s')
    | Ok (None, _) => Err (ContractPanic UnwrapNone)
    | Err e => Err (CollectionPanic e)
    end.

(** ** The relation to [NftContract] *)

(** The header [cs] and the storage [s] hold the contract [c]: the same
    owner, the token map at [[0]] holding [c]'s tokens, the metadata
    cell at [[1]] holding [c]'s metadata. *)
Definition contract_repr (c : GContract) (cs : Contract) (s : Store) : Prop :=
  owner_id cs = NftContract.owner_id c /\
  gum_prefix (NftContract.tokens_by_id c) = into_storage_key TokensById /\
  um_repr (into_storage_key TokensById) (tokens_by_id cs) s (gum_map (NftContract.tokens_by_id c)) /\
  lazy_prefix (NftContract.metadata c) = into_storage_key Metadata /\
  metadata cs = mkLazyOption (into_storage_key Metadata) /\
  lo_repr ser_nft_contract_metadata rust_nft_contract_metadata (metadata cs) s
    (lazy_value (NftContract.metadata c)).

Definition world_repr (v : VMState GContract) (w : World) : Prop :=
  contract_repr (self v) (w_self w) (w_storage w) /\ logs v = w_logs w.

(** ** Lemmas *)

(** The two storage keys are not prefixes of one another. *)
Lemma storage_keys_disjoint :
  ~ into_storage_key TokensById `prefix_of` into_storage_key Metadata /\
  ~ into_storage_key Metadata `prefix_of` into_storage_key TokensById.
Proof. split; intros [k E]; discriminate. Qed.

(** The token [mint_nft] stores for the minter is a value Rust can hold. *)
Lemma rust_token_minter md :
  rust_token_metadata md = true -> rust_token (mkToken NftContract.MINTER md) = true.
Proof. intros Hmd. unfold rust_token. simpl. by rewrite Hmd. Qed.

(** The relation reads only the two collections' regions. *)
Lemma contract_repr_agree c cs s s' :
  contract_repr c cs s ->
  agree_under (into_storage_key TokensById) s s' -> agree_under (into_storage_key Metadata) s s' ->
  contract_repr c cs s'.
Proof.
  intros (Ho & Hp & Hum & Hlp & Hlk & Hlo) H0 H1. split_and!; try done.
  - by eapply um_repr_agree.
  - eapply lo_repr_agree; [exact Hlo|]. by rewrite Hlk.
Qed.

(** The header of a related contract is one Borsh can write. *)
Lemma contract_repr_rust c cs s :
  contract_repr c cs s -> rust_unordered_map (tokens_by_id cs) && rust_lazy_option (metadata cs) = true.
Proof.
  intros (_ & _ & Hum & _ & Hlk & _). rewrite (um_repr_rust _ _ _ _ Hum) by (simpl; lia).
  by rewrite Hlk.
Qed.

(** ** The refinement *)

(** [new] on a storage with nothing under the token map's prefix
    writes the metadata cell and leaves a header and a storage that
    hold the contract [NftContract.new] returns: no tokens, and the
    metadata with [spec = "nft-1.0.0"]. *)
Theorem new_refines owner name symbol s :
  region_empty (into_storage_key TokensById) s ->
  rust_nft_contract_metadata (mkNFTContractMetadata NftContract.NFT_SPEC name symbol) = true ->
  exists cs s', new owner name symbol s = Ok (cs, s') /\
    contract_repr (NftContract.new owner name symbol : GContract) cs s'.
Proof.
  intros He Hmd. destruct storage_keys_disjoint as [D1 D2].
  destruct (lo_new_repr _ _ nft_contract_metadata_total (into_storage_key Metadata) s _ Hmd)
    as (s' & E & Hlo & Hf).
  eexists _, s'. unfold new, st_bind. rewrite E. split; [done|].
  unfold contract_repr; simpl. split_and!; try done; [|apply Hlo].
  eapply um_repr_agree; [by apply um_new_repr | by eapply frame_disjoint].
Qed.

(** [mint_nft] on storage does what [NftContract.mint_nft] does on
    a related state: the same panic, with the same log lines, when the
    caller is not the minter;
    otherwise a related state, the entries of the token map and the
    metadata cell being the ones of the new contract, and the same log. *)
Theorem mint_nft_refines ctx token_id md v w :
  world_repr v w -> Z.of_nat (String.length token_id) < 2 ^ 32 -> rust_token_metadata md = true ->
  Z.of_nat (size (gum_map (NftContract.tokens_by_id (self v)))) + 1 < 2 ^ 64 ->
  match NftContract.mint_nft ctx token_id md v with
  | Ok (u, v') => exists w', mint_nft ctx token_id md w = Ok (u, w') /\ world_repr v' w'
  | Err (p, l) => mint_nft ctx token_id md w = Err (ContractPanic p, l)
  end.
Proof.
  intros ((Ho & Hp & Hum & Hlp & Hlk & Hlo) & Hl) Hk Hmd Hs. destruct storage_keys_disjoint as [D1 D2].
  rewrite NftContract.mint_nft_run. cbv zeta.
  unfold mint_nft, on_contract, assert_eq, st_bind.
  case_string_eqb Hc; [|by rewrite Hl]. rewrite Hc.
  destruct (um_insert_repr _ _ _ _ token_id (mkToken NftContract.MINTER md) Hum Hk
    (rust_token_minter md Hmd) Hs) as (um' & s' & E & Hr & Hf).
  unfold insert_token. simpl. rewrite E. eexists. split; [reflexivity|].
  split; [|simpl; by rewrite Hl]. unfold contract_repr, NftContract.minted. simpl.
  split_and!; try done. rewrite Hlk in Hlo |- *.
  eapply lo_repr_agree; [exact Hlo|]. by eapply frame_disjoint.
Qed.

(** [nft_token] on storage returns what [NftContract.nft_token]
    returns and writes nothing. *)
Theorem nft_token_refines c cs s token_id :
  contract_repr c cs s -> Z.of_nat (String.length token_id) < 2 ^ 32 ->
  nft_token cs token_id s = Ok (NftContract.nft_token c token_id, s).
Proof. intros (_ & _ & Hum & _) Hk. exact (um_get_repr _ _ _ _ _ Hum Hk). Qed.

(** [nft_metadata] on storage returns what [NftContract.nft_metadata]
    returns, and panics with [UnwrapNone] where it does. *)
Theorem nft_metadata_refines c cs s :
  contract_repr c cs s ->
  nft_metadata cs s =
    match NftContract.nft_metadata c with Ok m => Ok (m, s) | Err p => Err (ContractPanic p) end.
Proof.
  intros (_ & _ & _ & _ & _ & Hlo). unfold nft_metadata, NftContract.nft_metadata.
  rewrite (lo_get_repr _ _ _ nft_contract_metadata_roundtrips _ _ _ Hlo).
  unfold lazy_get. by destruct (lazy_value _).
Qed.

End Layout.
