(* ===== verification/Runtime.v ===== *)
(** * The entry points as the host runs them, and the deployed account

    [#[near_bindgen]] (lines 6 and 43) turns each method of
    [impl Contract] into an exported function.  Its wrapper, in order:
    - panics "Method <name> doesn't accept deposit" when a deposit is
      attached to a method that is neither [#[payable]] nor a view
      ([new] and [mint_nft] here);
    - for the [#[init]] method [new] (line 45): panics "The contract has
      already been initialized" when the state exists, and otherwise
      writes the value [new] returns;
    - for the other methods: reads the state, and when there is none
      falls back to [Default::default()], which [PanicOnDefault]
      (line 7) makes a panic "The contract is not initialized"; a
      method on [&mut self] writes the state back afterwards.
    A call that panics commits nothing: the host keeps the previous
    state, and keeps in the call's outcome the lines the method logged
    before the panic.  That log is empty here: the only log line of
    the contract (line 71) is the last statement of [mint_nft], after
    every point where the call can panic (C4 shows it).

    [execute] is one call; [run] is a sequence of calls from a given
    state; [reachable] is the set of states some sequence of calls
    leads to from the freshly deployed account (no state). *)

From stdpp Require Import base gmap strings list.
From Stdlib Require Import ZArith.
From S2P Require Import Prelude Types Env Collections Contract.
Import NftContract.

Module Runtime.

Section Execute.
Context {M : Type} `{!UnorderedMapOps string Token M}.

(** The exported functions with their (decoded) arguments. *)
Inductive Call :=
| CallNew (owner_id : AccountId) (name symbol : string)
| CallMintNft (token_id : string) (metadata : TokenMetadata)
| CallNftToken (token_id : string)
| CallNftMetadata.

(** What a function returns to the caller, before JSON encoding. *)
Inductive ReturnValue :=
| RetUnit
| RetToken (token : option Token)
| RetMetadata (metadata : NFTContractMetadata).

(** The result of one call: the committed state, the log, and the
    return value or the panic. *)
Record Outcome := mkOutcome {
  out_state : option (Contract M);
  out_logs : list string;
  out_result : result ReturnValue Panic;
}.

Definition method_name (call : Call) : string :=
  match call with
  | CallNew _ _ _ => "new"
  | CallMintNft _ _ => "mint_nft"
  | CallNftToken _ => "nft_token"
  | CallNftMetadata => "nft_metadata"
  end.

(** The methods that get the deposit check: [#[init]] and [&mut self]
    methods, none of them [#[payable]]; the views on [&self] do not. *)
Definition rejects_deposit (call : Call) : bool :=
  match call with
  | CallNew _ _ _ | CallMintNft _ _ => true
  | CallNftToken _ | CallNftMetadata => false
  end.

(** A panic raised by the wrapper before the method body runs: the
    state stays and nothing was logged. *)
Definition revert (st : option (Contract M)) (e : Panic) : Outcome :=
  mkOutcome st [] (Err e).

(** [env::state_read().unwrap_or_default()] with [PanicOnDefault]. *)
Definition state_read (st : option (Contract M)) : result (Contract M) Panic :=
  result_of_option st NotInitialized.

(** One call of an exported function. *)
Definition execute (ctx : VMContext) (st : option (Contract M)) (call : Call) : Outcome :=
  if rejects_deposit call && negb (Z.eqb (attached_deposit ctx) 0)
  then revert st (DepositNotAccepted (method_name call))
  else
  match call with
  | CallNew owner name symbol =>
      match st with
      | Some _ => revert st AlreadyInitialized
      | None => mkOutcome (Some (new owner name symbol)) [] (Ok RetUnit)
      end
  | CallMintNft token_id md =>
      match state_read st with
      | Err e => revert st e
      | Ok c =>
          match mint_nft ctx token_id md (mkVMState c []) with
          | Ok (_, v) => mkOutcome (Some (self v)) (logs v) (Ok RetUnit)
          | Err (e, l) => mkOutcome st l (Err e)
          end
      end
  | CallNftToken token_id =>
      match state_read st with
      | Err e => revert st e
      | Ok c => mkOutcome st [] (Ok (RetToken (nft_token c token_id)))
      end
  | CallNftMetadata =>
      match state_read st with
      | Err e => revert st e
      | Ok c =>
          match nft_metadata c with
          | Ok m => mkOutcome st [] (Ok (RetMetadata m))
          | Err e => revert st e
          end
      end
  end.

(** A sequence of calls, each in its own context, from state [st]. *)
Fixpoint run (st : option (Contract M)) (calls : list (VMContext * Call)) : option (Contract M) :=
  match calls with
  | [] => st
  | (ctx, call) :: rest => run (out_state (execute ctx st call)) rest
  end.

(** One committed transition of the account. *)
Inductive step : option (Contract M) -> option (Contract M) -> Prop :=
| step_call ctx st call : step st (out_state (execute ctx st call)).

(** The states the account can be in after deployment. *)
Inductive reachable : option (Contract M) -> Prop :=
| reachable_deploy : reachable None
| reachable_step st st' : reachable st -> step st st' -> reachable st'.

(** The invariant of an initialised contract. *)
Definition wf_contract (c : Contract M) : Prop :=
  (exists name symbol,
     lazy_get (metadata c) = Some (mkNFTContractMetadata NFT_SPEC name symbol)) /\
  (forall token_id t, nft_token c token_id = Some t -> Types.owner_id t = MINTER) /\
  umap_prefix (tokens_by_id c) = into_storage_key TokensById /\
  lazy_prefix (metadata c) = into_storage_key Metadata.

Definition inv (st : option (Contract M)) : Prop :=
  match st with None => True | Some c => wf_contract c end.
End Execute.

Arguments Outcome M : clear implicits.

Section Theory.
Context {M : Type} `{!UnorderedMapOps string Token M}
        `{!UnorderedMapLaws string Token M}.

Implicit Types (c : Contract M) (st : option (Contract M)).

(** C11. A call of [new] or [mint_nft] with a nonzero attached deposit
    panics "Method <name> doesn't accept deposit" and keeps the state,
    whoever calls and whatever the state. *)
Theorem deposit_rejected ctx st call :
  rejects_deposit call = true -> attached_deposit ctx <> 0%Z ->
  execute ctx st call = revert st (DepositNotAccepted (method_name call)).
Proof.
  intros Hr Hd. unfold execute. rewrite Hr.
  by destruct (Z.eqb_spec (attached_deposit ctx) 0).
Qed.

(** Past the deposit check, [execute] runs the method's wrapper. *)
Lemma execute_no_deposit ctx st call :
  (rejects_deposit call = false \/ attached_deposit ctx = 0%Z) ->
  execute ctx st call =
    match call with
    | CallNew owner name symbol =>
        match st with
        | Some _ => revert st AlreadyInitialized
        | None => mkOutcome (Some (new owner name symbol)) [] (Ok RetUnit)
        end
    | CallMintNft token_id md =>
        match state_read st with
        | Err e => revert st e
        | Ok c =>
            match mint_nft ctx token_id md (mkVMState c []) with
            | Ok (_, v) => mkOutcome (Some (self v)) (logs v) (Ok RetUnit)
            | Err (e, l) => mkOutcome st l (Err e)
            end
        end
    | CallNftToken token_id =>
        match state_read st with
        | Err e => revert st e
        | Ok c => mkOutcome st [] (Ok (RetToken (nft_token c token_id)))
        end
    | CallNftMetadata =>
        match state_read st with
        | Err e => revert st e
        | Ok c =>
            match nft_metadata c with
            | Ok m => mkOutcome st [] (Ok (RetMetadata m))
            | Err e => revert st e
            end
        end
    end.
Proof.
  intros Hd. unfold execute.
  destruct Hd as [-> | ->]; [done|]. by rewrite andb_false_r.
Qed.

(** [mint_nft] through its wrapper, on an initialised account. *)
Lemma execute_mint_nft_run ctx c token_id md :
  attached_deposit ctx = 0%Z ->
  execute ctx (Some c) (CallMintNft token_id md) =
    if String.eqb (predecessor_account_id ctx) MINTER
    then mkOutcome (Some (minted c token_id (mkToken MINTER md)))
                   [mint_log token_id MINTER] (Ok RetUnit)
    else mkOutcome (Some c) []
           (Err (AssertEqFailed MINT_ASSERT_MSG (predecessor_account_id ctx) MINTER)).
Proof.
  intros Hd. rewrite execute_no_deposit by auto. simpl.
  rewrite mint_nft_run. simpl.
  case_string_eqb Hc; [by rewrite Hc|done].
Qed.

(** C4. A call that panics commits nothing: the state after it is the
    state before it.  Its outcome also carries no log line: the host
    keeps the lines a method logged before panicking, but every panic
    of the code -- the wrapper's checks, the [assert_eq!] of
    [mint_nft] (line 63), the [unwrap] of [nft_metadata] -- comes
    before the only [env::log_str] (line 71). *)
Theorem execute_atomic ctx st call e :
  out_result (execute ctx st call) = Err e ->
  out_state (execute ctx st call) = st /\ out_logs (execute ctx st call) = [].
Proof.
  unfold execute.
  destruct (rejects_deposit call && _); [by intros _|].
  destruct call as [owner name symbol|token_id md|token_id|], st as [c|];
    simpl; try done.
  - rewrite mint_nft_run. simpl. by destruct (String.eqb _ _).
  - destruct (nft_metadata c); simpl; done.
Qed.

(** Every committed transition either keeps the state, initialises a
    fresh account with [new], or is a successful [mint_nft] by the
    hard-coded minter. *)
Lemma execute_transition ctx st call :
  out_state (execute ctx st call) = st \/
  (exists owner name symbol, call = CallNew owner name symbol /\
     st = None /\ out_state (execute ctx st call) = Some (new owner name symbol)) \/
  (exists c token_id md, call = CallMintNft token_id md /\
     st = Some c /\
     out_state (execute ctx st call) = Some (minted c token_id (mkToken MINTER md))).
Proof.
  destruct (rejects_deposit call && negb (Z.eqb (attached_deposit ctx) 0)) eqn:Hd.
  { left. unfold execute. by rewrite Hd. }
  rewrite execute_no_deposit.
  2:{ destruct (rejects_deposit call); [right|left; done].
      by destruct (Z.eqb_spec (attached_deposit ctx) 0). }
  destruct call as [owner name symbol|token_id md|token_id|], st as [c|]; simpl; auto.
  - right; left. by eexists _, _, _.
  - destruct (mint_nft ctx token_id md (mkVMState c [])) as [[u v]|[e l]] eqn:Hm; [|auto].
    apply mint_nft_Ok_inv in Hm as (_ & Hv & _). right; right. simpl. rewrite Hv. by eexists _, _, _.
  - destruct (nft_metadata c); auto.
Qed.

Lemma wf_contract_new owner name symbol :
  wf_contract (new owner name symbol : Contract M).
Proof.
  split_and!; [by eexists _, _ | | apply umap_prefix_new | done].
  intros token_id t. by rewrite nft_token_new.
Qed.

Lemma wf_contract_minted c token_id md :
  wf_contract c -> wf_contract (minted c token_id (mkToken MINTER md)).
Proof.
  intros (Hmeta & Howners & Hpre & Hlazy). split_and!; [done| | |done].
  - intros token_id' t. rewrite nft_token_minted. case_decide; [by intros [= <-]|].
    apply Howners.
  - simpl. by rewrite umap_prefix_insert.
Qed.

#[local] Hint Resolve wf_contract_new wf_contract_minted : nft.

Lemma execute_preserves_inv ctx st call :
  inv st -> inv (out_state (execute ctx st call)).
Proof.
  intros Hinv.
  destruct (execute_transition ctx st call)
    as [-> | [(owner & name & symbol & _ & -> & ->) | (c & token_id & md & _ & -> & ->)]];
    simpl; auto with nft.
Qed.

Lemma step_preserves_inv st st' : step st st' -> inv st -> inv st'.
Proof. intros []. apply execute_preserves_inv. Qed.

(** An initialised account stays initialised, with the same owner and
    the same metadata cell, whatever one call does. *)
Lemma execute_keeps_owner_metadata ctx c call :
  exists c', out_state (execute ctx (Some c) call) = Some c' /\
             owner_id c' = owner_id c /\ metadata c' = metadata c.
Proof.
  destruct (execute_transition ctx (Some c) call)
    as [-> | [(? & ? & ? & ? & ? & _) | (c' & token_id & md & _ & [= <-] & ->)]];
    [by eexists | done | by eexists].
Qed.

(** Induction on reachability with the one-step preservation lemma. *)
(** Where the [owner_id] of a committed state comes from: the state
    before the call, or the argument of [new] on a fresh account. *)
Lemma execute_owner_source ctx st call c' :
  out_state (execute ctx st call) = Some c' ->
  (exists c, st = Some c /\ owner_id c' = owner_id c) \/
  (exists name symbol, st = None /\ call = CallNew (owner_id c') name symbol).
Proof.
  destruct st as [c|]; intros H.
  - left. exists c. destruct (execute_keeps_owner_metadata ctx c call) as (c'' & H' & Ho & _).
    rewrite H in H'. by simplify_eq.
  - right. unfold execute in H. destruct (_ && _); [done|].
    destruct call; simpl in H; simplify_eq; eauto.
Qed.

Lemma reachable_wf st : reachable st -> inv st.
Proof.
  induction 1 as [|st st' _ IH Hstep]; [done|].
  by eapply step_preserves_inv.
Qed.

(** C3. Every reachable state of the account satisfies the invariant:
    once initialised, the metadata cell holds a value with spec
    "nft-1.0.0", every stored token is owned by "gelezako.testnet",
    and the two collections sit at the storage prefixes of
    [StorageKey::TokensById] and [StorageKey::Metadata]. *)
Theorem reachable_inv st : reachable st -> inv st.
Proof. apply reachable_wf. Qed.

(** C6. On every reachable initialised state, [nft_metadata] returns the
    metadata written by [new] (spec "nft-1.0.0") and never reaches the
    [unwrap] panic of line 81. *)
Theorem nft_metadata_never_panics ctx c :
  reachable (Some c) ->
  exists name symbol,
    execute ctx (Some c) CallNftMetadata =
      mkOutcome (Some c) [] (Ok (RetMetadata (mkNFTContractMetadata NFT_SPEC name symbol))).
Proof.
  intros Hr. destruct (reachable_wf _ Hr) as ((name & symbol & Hmeta) & _).
  exists name, symbol. rewrite execute_no_deposit by auto. simpl.
  unfold nft_metadata. by rewrite Hmeta.
Qed.

(** C7. Calling [new] on an initialised account always panics and keeps
    the state: "The contract has already been initialized", or the
    deposit panic when a deposit is attached. *)
Theorem reinit_refused ctx c owner name symbol :
  execute ctx (Some c) (CallNew owner name symbol) =
    revert (Some c) (if Z.eqb (attached_deposit ctx) 0
                     then AlreadyInitialized else DepositNotAccepted "new").
Proof.
  unfold execute. simpl.
  by destruct (Z.eqb_spec (attached_deposit ctx) 0).
Qed.

(** C9. Whatever sequence of calls follows, an initialised account stays
    initialised with the [owner_id] and collection metadata it had. *)
Theorem run_keeps_owner_metadata c calls :
  exists c', run (Some c) calls = Some c' /\
             owner_id c' = owner_id c /\ metadata c' = metadata c.
Proof.
  revert c. induction calls as [|[ctx call] rest IH]; intros c; simpl; [by eexists|].
  destruct (execute_keeps_owner_metadata ctx c call) as (c1 & -> & Ho & Hm).
  destruct (IH c1) as (c2 & Hrun & Ho2 & Hm2). exists c2. by rewrite Ho2, Hm2.
Qed.

(** C10. Through the host, a [mint_nft] call by "gelezako.testnet" with
    no deposit commits the token, returns, logs exactly
    "Token <id> minted for gelezako.testnet", and a following
    [nft_token] call returns the token; by any other caller it panics
    with the assertion of line 63 and keeps the state. *)
Theorem execute_mint_nft ctx ctx' c token_id md :
  attached_deposit ctx = 0%Z ->
  (predecessor_account_id ctx = MINTER ->
     out_result (execute ctx (Some c) (CallMintNft token_id md)) = Ok RetUnit /\
     out_logs (execute ctx (Some c) (CallMintNft token_id md)) = [mint_log token_id MINTER] /\
     execute ctx' (out_state (execute ctx (Some c) (CallMintNft token_id md)))
             (CallNftToken token_id) =
       mkOutcome (out_state (execute ctx (Some c) (CallMintNft token_id md))) []
                 (Ok (RetToken (Some (mkToken MINTER md))))) /\
  (predecessor_account_id ctx <> MINTER ->
     execute ctx (Some c) (CallMintNft token_id md) =
       revert (Some c) (AssertEqFailed MINT_ASSERT_MSG (predecessor_account_id ctx) MINTER)).
Proof.
  intros Hd. rewrite execute_mint_nft_run by done. split; intros Hc.
  - rewrite Hc, String.eqb_refl. simpl. split_and!; [done|done|].
    rewrite execute_no_deposit by auto. simpl. by rewrite nft_token_minted, decide_True.
  - by case_string_eqb Hc'.
Qed.

(** C14. The views [nft_token] and [nft_metadata] never change the state
    and never log, whatever their outcome. *)
Theorem views_read_only ctx st call :
  rejects_deposit call = false ->
  out_state (execute ctx st call) = st /\ out_logs (execute ctx st call) = [].
Proof.
  intros Hv. rewrite execute_no_deposit by auto.
  destruct call as [| |token_id|]; try done; destruct st as [c|]; simpl; try done.
  by destruct (nft_metadata c).
Qed.

(** C15. Before [new] has run, every other call (with no deposit) panics
    "The contract is not initialized" ([PanicOnDefault]) and the account
    stays uninitialised. *)
Theorem uninitialized_panics ctx call :
  attached_deposit ctx = 0%Z ->
  (forall owner name symbol, call <> CallNew owner name symbol) ->
  execute ctx None call = revert None NotInitialized.
Proof.
  intros Hd Hnew. rewrite execute_no_deposit by auto.
  destruct call as [owner name symbol| | |]; try done.
  by destruct (Hnew owner name symbol).
Qed.

End Theory.

(** ** Witnesses and the end-to-end scenario, on the [gmap] implementation *)

Abbreviation GState := (option (Contract (GUnorderedMap string Token))).

Definition alice_ctx : VMContext := mkVMContext "alice" 0.
Definition minter_ctx : VMContext := mkVMContext MINTER 0.
Definition paying_ctx : VMContext := mkVMContext MINTER 1.
Definition title_a : TokenMetadata := mkTokenMetadata (Some "A"%string) None None.

(** The account after "alice" initialises it. *)
Definition demo_init : GState :=
  out_state (execute alice_ctx None (CallNew "alice" "Demo" "DEMO")).

Lemma demo_init_reachable : reachable demo_init.
Proof. eapply reachable_step; [apply reachable_deploy | constructor]. Qed.

Definition demo_contract : Contract (GUnorderedMap string Token) :=
  new "alice" "Demo" "DEMO".

Lemma demo_contract_reachable : reachable (Some demo_contract).
Proof. exact demo_init_reachable. Qed.

Lemma reachable_inv_witness : inv demo_init.
Proof. apply (reachable_inv demo_init). exact demo_init_reachable. Defined.

Lemma execute_atomic_witness :
  out_state (execute alice_ctx demo_init (CallMintNft "t1" title_a)) = demo_init /\
  out_logs (execute alice_ctx demo_init (CallMintNft "t1" title_a)) = [].
Proof.
  apply (execute_atomic alice_ctx demo_init (CallMintNft "t1" title_a)
           (AssertEqFailed MINT_ASSERT_MSG "alice" MINTER)).
  vm_compute. reflexivity.
Defined.

Lemma nft_metadata_never_panics_witness :
  exists name symbol,
    execute alice_ctx (Some demo_contract) CallNftMetadata =
      mkOutcome (Some demo_contract) []
                (Ok (RetMetadata (mkNFTContractMetadata NFT_SPEC name symbol))).
Proof. apply (nft_metadata_never_panics alice_ctx demo_contract). exact demo_contract_reachable. Defined.

Lemma execute_mint_nft_witness :
  (predecessor_account_id minter_ctx = MINTER ->
     out_result (execute minter_ctx (Some demo_contract) (CallMintNft "t1" title_a)) = Ok RetUnit /\
     out_logs (execute minter_ctx (Some demo_contract) (CallMintNft "t1" title_a)) =
       [mint_log "t1" MINTER] /\
     execute alice_ctx (out_state (execute minter_ctx (Some demo_contract) (CallMintNft "t1" title_a)))
             (CallNftToken "t1") =
       mkOutcome (out_state (execute minter_ctx (Some demo_contract) (CallMintNft "t1" title_a))) []
                 (Ok (RetToken (Some (mkToken MINTER title_a))))) /\
  (predecessor_account_id minter_ctx <> MINTER ->
     execute minter_ctx (Some demo_contract) (CallMintNft "t1" title_a) =
       revert (Some demo_contract)
              (AssertEqFailed MINT_ASSERT_MSG (predecessor_account_id minter_ctx) MINTER)).
Proof. apply (execute_mint_nft minter_ctx alice_ctx demo_contract "t1" title_a). reflexivity. Defined.

Lemma deposit_rejected_witness :
  execute paying_ctx (Some demo_contract) (CallMintNft "t1" title_a) =
    revert (Some demo_contract) (DepositNotAccepted "mint_nft").
Proof.
  apply (deposit_rejected paying_ctx (Some demo_contract) (CallMintNft "t1" title_a));
    [reflexivity | simpl; lia].
Defined.

Lemma uninitialized_panics_witness :
  execute minter_ctx None (CallMintNft "t1" title_a) = revert None NotInitialized.
Proof.
  apply (uninitialized_panics minter_ctx (CallMintNft "t1" title_a)); [reflexivity | discriminate].
Defined.

Lemma reinit_refused_witness :
  execute minter_ctx (Some demo_contract) (CallNew "bob" "X" "Y") =
    revert (Some demo_contract) AlreadyInitialized.
Proof. apply (reinit_refused minter_ctx demo_contract "bob" "X" "Y"). Defined.

Lemma run_keeps_owner_metadata_witness :
  exists c', run (Some demo_contract)
                 [(minter_ctx, CallMintNft "t1" title_a); (alice_ctx, CallNew "bob" "X" "Y")] = Some c' /\
             owner_id c' = owner_id demo_contract /\ metadata c' = metadata demo_contract.
Proof. apply (run_keeps_owner_metadata demo_contract). Defined.

Lemma views_read_only_witness :
  out_state (execute paying_ctx (Some demo_contract) (CallNftToken "t1")) = Some demo_contract /\
  out_logs (execute paying_ctx (Some demo_contract) (CallNftToken "t1")) = [].
Proof. apply (views_read_only paying_ctx (Some demo_contract) (CallNftToken "t1")). reflexivity. Defined.

(** The end-to-end scenario of the specification: "alice" initialises the account with
    name "Demo" and symbol "DEMO", "gelezako.testnet" mints "t1" with
    title "A"; then [nft_token "t1"] returns the token owned by
    "gelezako.testnet" with only the title set, [nft_metadata] returns
    spec "nft-1.0.0", name "Demo", symbol "DEMO", and a second [new]
    panics. *)
Theorem end_to_end_scenario :
  let st1 := out_state (execute alice_ctx None (CallNew "alice" "Demo" "DEMO")) in
  let o2 := execute minter_ctx st1 (CallMintNft "t1" title_a) in
  out_result o2 = Ok RetUnit /\
  out_logs o2 = ["Token t1 minted for gelezako.testnet"%string] /\
  out_result (execute alice_ctx (out_state o2) (CallNftToken "t1")) =
    Ok (RetToken (Some (mkToken "gelezako.testnet" (mkTokenMetadata (Some "A"%string) None None)))) /\
  out_result (execute alice_ctx (out_state o2) CallNftMetadata) =
    Ok (RetMetadata (mkNFTContractMetadata "nft-1.0.0" "Demo" "DEMO")) /\
  out_result (execute alice_ctx (out_state o2) (CallNew "bob" "X" "Y")) = Err AlreadyInitialized.
Proof. vm_compute. split_and!; reflexivity. Qed.

End Runtime.
