(* ===== verification/Wrapper.v ===== *)
(** * The exported functions on the account's storage

    [Module Wrapper] runs the code [#[near_bindgen]] (lines 6 and 43)
    generates around each method on the account's key-value storage, as
    near-sdk 4 writes it: the contract value [struct Contract] (lines
    6-12) is stored Borsh-encoded under the key [b"STATE"]
    ([env::state_read], [env::state_write], [env::state_exists]); its
    fields are the owner and the headers of the two collections, whose
    entries live under [[0]] and [[1]] ([Layout]).  A call checks the
    deposit, then
    - [new]: panics when [STATE] exists, otherwise runs [Contract::new]
      and writes [STATE];
    - [mint_nft]: reads [STATE] ([PanicOnDefault] panics when there is
      none), runs the method on the storage, writes [STATE] back;
    - the views: read [STATE] and run the method.
    A panic reverts every write of the call.

    [execute] and [run] are [Runtime.execute] and [Runtime.run] with
    the contract value replaced by the storage.  [account_repr] relates
    a state of [Runtime] on the [gmap] collections to a storage; the
    theorems show that [execute] and [run] on storage simulate
    [Runtime]: the same log, the same result or panic, and related
    states.  Every theorem about [Runtime] is thereby a theorem about
    the storage the deployed contract keeps. *)

From stdpp Require Import base gmap strings list.
From Stdlib Require Import ZArith Lia.
From S2P Require Import Prelude Types Account Borsh Env Collections Storage Contract Layout Runtime.
Import Borsh Storage Layout.

Module Wrapper.
Local Open Scope Z_scope.

(** The runtime's types on the [gmap] collections. *)
Abbreviation GOutcome := (@Runtime.Outcome (GUnorderedMap string Token)).

(** [near_sdk::env::STATE_KEY = b"STATE"]. *)
Definition STATE_KEY : list Z := [83; 84; 65; 84; 69].

(** [derive(BorshSerialize, BorshDeserialize)] of [struct Contract]
    (line 7): the fields in order, [AccountId] validated on decode. *)
Definition ser_contract (cs : Contract) : result (list Z) BorshError :=
  let! o := ser_string (owner_id cs) in
  let! t := ser_unordered_map (tokens_by_id cs) in
  let! m := ser_lazy_option (metadata cs) in Ok (o ++ t ++ m).

Definition de_contract : Parser Contract := fun input =>
  let! (o, r) := de_account_id input in
  let! (t, r') := de_unordered_map r in
  let! (m, r'') := de_lazy_option r' in Ok (mkContract o t m, r'').

Definition rust_contract (cs : Contract) : bool :=
  rust_account_id (owner_id cs) && rust_unordered_map (tokens_by_id cs) &&
  rust_lazy_option (metadata cs).

(** [env::state_exists()]. *)
Definition state_exists (s : Store) : bool := bool_decide (is_Some (s !! STATE_KEY)).

(** [env::state_read::<Contract>().unwrap_or_default()] with
    [PanicOnDefault]. *)
Definition state_read (s : Store) : result Contract HostPanic :=
  match s !! STATE_KEY with
  | None => Err (ContractPanic NotInitialized)
  | Some data =>
      match try_from_slice de_contract data with
      | Ok cs => Ok cs
      | Err _ => Err StateDeserialize
      end
  end.

(** [env::state_write(&contract)]. *)
Definition state_write (cs : Contract) (s : Store) : result Store HostPanic :=
  match ser_contract cs with
  | Ok data => Ok (<[STATE_KEY := data]> s)
  | Err _ => Err StateSerialize
  end.

(** The result of one call on storage: the committed storage, the log,
    and the return value or the panic. *)
Record Outcome := mkOutcome {
  out_storage : Store;
  out_logs : list string;
  out_result : result Runtime.ReturnValue HostPanic;
}.

(** A panic at a point where the call has logged nothing: the storage
    as before the call, no log. *)
Definition revert (s : Store) (e : HostPanic) : Outcome := mkOutcome s [] (Err e).

(** One call of an exported function on the storage. *)
Definition execute (ctx : VMContext) (s : Store) (call : Runtime.Call) : Outcome :=
  if Runtime.rejects_deposit call && negb (Z.eqb (attached_deposit ctx) 0)
  then revert s (ContractPanic (DepositNotAccepted (Runtime.method_name call)))
  else
  match call with
  | Runtime.CallNew owner name symbol =>
      if state_exists s then revert s (ContractPanic AlreadyInitialized) else
      match new owner name symbol s with
      | Err e => revert s (CollectionPanic e)
      | Ok (cs, s1) =>
          match state_write cs s1 with
          | Ok s2 => mkOutcome s2 [] (Ok Runtime.RetUnit)
          | Err e => revert s e
          end
      end
  | Runtime.CallMintNft token_id md =>
      match state_read s with
      | Err e => revert s e
      | Ok cs =>
          match mint_nft ctx token_id md (mkWorld cs s []) with
          | Err (e, l) => mkOutcome s l (Err e)
          | Ok (_, w) =>
              match state_write (w_self w) (w_storage w) with
              | Ok s2 => mkOutcome s2 (w_logs w) (Ok Runtime.RetUnit)
              | Err e => mkOutcome s (w_logs w) (Err e)
              end
          end
      end
  | Runtime.CallNftToken token_id =>
      match state_read s with
      | Err e => revert s e
      | Ok cs =>
          match nft_token cs token_id s with
          | Ok (r, s1) => mkOutcome s1 [] (Ok (Runtime.RetToken r))
          | Err e => revert s (CollectionPanic e)
          end
      end
  | Runtime.CallNftMetadata =>
      match state_read s with
      | Err e => revert s e
      | Ok cs =>
          match nft_metadata cs s with
          | Ok (m, s1) => mkOutcome s1 [] (Ok (Runtime.RetMetadata m))
          | Err e => revert s e
          end
      end
  end.

(** A sequence of calls on the storage. *)
Fixpoint run (s : Store) (calls : list (VMContext * Runtime.Call)) : Store :=
  match calls with
  | [] => s
  | (ctx, call) :: rest => run (out_storage (execute ctx s call)) rest
  end.

(** ** The relation to [Runtime] *)

(** No state: no [STATE] and an empty token region.  A state [c]:
    [STATE] holds the Borsh bytes of a header related to [c]. *)
Definition account_repr (st : option GContract) (s : Store) : Prop :=
  match st with
  | None => s !! STATE_KEY = None /\ region_empty (into_storage_key TokensById) s
  | Some c =>
      exists cs data, s !! STATE_KEY = Some data /\ ser_contract cs = Ok data /\
        rust_contract cs = true /\ contract_repr c cs s
  end.

Definition lift_result (r : result Runtime.ReturnValue Panic) : result Runtime.ReturnValue HostPanic :=
  match r with Ok v => Ok v | Err p => Err (ContractPanic p) end.

(** The outcome on storage matches the runtime's. *)
Definition outcome_repr (o : GOutcome) (so : Outcome) : Prop :=
  account_repr (Runtime.out_state o) (out_storage so) /\
  out_logs so = Runtime.out_logs o /\ out_result so = lift_result (Runtime.out_result o).

(** The arguments a call can carry as Rust values: a valid owner,
    metadata strings of valid UTF-8, a token id Borsh can write. *)
Definition call_ok (call : Runtime.Call) : Prop :=
  match call with
  | Runtime.CallNew owner name symbol =>
      rust_account_id owner = true /\
      rust_nft_contract_metadata (mkNFTContractMetadata NftContract.NFT_SPEC name symbol) = true
  | Runtime.CallMintNft token_id md =>
      Z.of_nat (String.length token_id) < 2 ^ 32 /\ rust_token_metadata md = true
  | Runtime.CallNftToken token_id => Z.of_nat (String.length token_id) < 2 ^ 32
  | Runtime.CallNftMetadata => True
  end.

(** The deposit check lets the call through. *)
Definition guard_passed (ctx : VMContext) (call : Runtime.Call) : Prop :=
  Runtime.rejects_deposit call && negb (Z.eqb (attached_deposit ctx) 0) = false.

(** The number of tokens of a state. *)
Definition tokens_size (st : option GContract) : nat :=
  match st with None => 0 | Some c => size (gum_map (NftContract.tokens_by_id c)) end.

(** ** The contract value round-trips through [STATE] *)

Lemma contract_roundtrips : roundtrips ser_contract de_contract rust_contract.
Proof.
  intros [o t m] bs rest H. unfold rust_contract in H. simpl in H.
  apply andb_prop in H as [[Ho Ht]%andb_prop Hm].
  destruct (account_id_total _ Ho) as [ob Hob], (unordered_map_total _ Ht) as [tb Htb],
    (lazy_option_total _ Hm) as [mb Hmb].
  unfold ser_contract. cbn [owner_id tokens_by_id metadata]. rewrite Hob, Htb, Hmb.
  intros <-%Ok_inj. unfold de_contract. rewrite <- !app_assoc, (account_id_roundtrips _ _ _ Ho Hob).
  cbn [result_bind]. rewrite (unordered_map_roundtrips _ _ _ Ht Htb). cbn [result_bind].
  by rewrite (lazy_option_roundtrips _ _ _ Hm Hmb).
Qed.

Lemma contract_total : total ser_contract rust_contract.
Proof.
  intros [o t m] H. unfold rust_contract in H. simpl in H.
  apply andb_prop in H as [[Ho Ht]%andb_prop Hm].
  destruct (account_id_total _ Ho) as [ob Hob], (unordered_map_total _ Ht) as [tb Htb],
    (lazy_option_total _ Hm) as [mb Hmb].
  unfold ser_contract. cbn [owner_id tokens_by_id metadata]. rewrite Hob, Htb, Hmb. by eexists.
Qed.

Lemma state_read_repr s cs data :
  s !! STATE_KEY = Some data -> ser_contract cs = Ok data -> rust_contract cs = true ->
  state_read s = Ok cs.
Proof.
  intros Hs E Hc. unfold state_read. rewrite Hs.
  by rewrite (slice_reads_back _ _ _ _ _ contract_roundtrips Hc E).
Qed.

Lemma state_read_none s : s !! STATE_KEY = None -> state_read s = Err (ContractPanic NotInitialized).
Proof. intros Hs. unfold state_read. by rewrite Hs. Qed.

(** [STATE] lies outside the regions of both collections. *)
Lemma state_key_outside k : k = TokensById \/ k = Metadata -> ~ into_storage_key k `prefix_of` STATE_KEY.
Proof. intros [-> | ->] [l E]; discriminate. Qed.

(** Writing the header of a related contract relates the account. *)
Lemma state_write_repr c cs s :
  contract_repr c cs s -> rust_account_id (owner_id cs) = true ->
  exists s', state_write cs s = Ok s' /\ account_repr (Some c) s'.
Proof.
  intros Hr Ho.
  assert (Hc : rust_contract cs = true).
  { unfold rust_contract. rewrite Ho, <- andb_assoc. apply (contract_repr_rust _ _ _ Hr). }
  destruct (contract_total cs Hc) as [data E].
  exists (<[STATE_KEY := data]> s). unfold state_write. rewrite E. split; [done|].
  exists cs, data. split_and!; [apply lookup_insert_eq | done | done |].
  apply (contract_repr_agree _ _ s); [done | ..]; apply agree_under_insert, state_key_outside; auto.
Qed.

(** Related initialised accounts with the same metadata hold the same
    bytes in the metadata cell. *)
Lemma account_repr_metadata_cell c c' s s' :
  account_repr (Some c) s -> account_repr (Some c') s' ->
  NftContract.metadata c' = NftContract.metadata c ->
  s' !! into_storage_key Metadata = s !! into_storage_key Metadata.
Proof.
  intros (cs & _ & _ & _ & _ & (_ & _ & _ & _ & Hk & Hlo))
    (cs' & _ & _ & _ & _ & (_ & _ & _ & _ & Hk' & Hlo')) Hm.
  rewrite Hk in Hlo. rewrite Hk', Hm in Hlo'.
  exact (lo_repr_lookup_eq _ _ _ _ _ _ Hlo Hlo').
Qed.

(** ** One call, case by case *)

(** The deposit check and the other panics before any write. *)
Lemma revert_repr st s e :
  account_repr st s -> outcome_repr (Runtime.revert st e) (revert s (ContractPanic e)).
Proof. intros Hr. by split_and!. Qed.

Lemma execute_deposit_sim ctx st s call :
  account_repr st s -> Runtime.rejects_deposit call && negb (Z.eqb (attached_deposit ctx) 0) = true ->
  outcome_repr (Runtime.execute ctx st call) (execute ctx s call).
Proof. intros Hr Hg. unfold Runtime.execute, execute. rewrite Hg. by apply revert_repr. Qed.

Lemma execute_new_sim ctx st s owner name symbol :
  guard_passed ctx (Runtime.CallNew owner name symbol) -> account_repr st s ->
  call_ok (Runtime.CallNew owner name symbol) ->
  outcome_repr (Runtime.execute ctx st (Runtime.CallNew owner name symbol))
    (execute ctx s (Runtime.CallNew owner name symbol)).
Proof.
  intros Hg Hr [Ho Hmd]. unfold Runtime.execute, execute. rewrite Hg. unfold state_exists.
  destruct st as [c|].
  - pose proof Hr as (cs & data & Hs & _). rewrite Hs, bool_decide_true by by eexists.
    by apply revert_repr.
  - pose proof Hr as [Hs He]. rewrite Hs, bool_decide_false by by intros [].
    destruct (new_refines owner name symbol s He Hmd) as (cs & s1 & E & Hc). rewrite E.
    destruct (state_write_repr _ _ _ Hc) as (s2 & Ew & Hr2); [by destruct Hc as [-> _]|].
    rewrite Ew. by split_and!.
Qed.

Lemma execute_mint_sim ctx st s token_id md :
  guard_passed ctx (Runtime.CallMintNft token_id md) -> account_repr st s ->
  call_ok (Runtime.CallMintNft token_id md) -> Z.of_nat (tokens_size st) + 1 < 2 ^ 64 ->
  outcome_repr (Runtime.execute ctx st (Runtime.CallMintNft token_id md))
    (execute ctx s (Runtime.CallMintNft token_id md)).
Proof.
  intros Hg Hr [Hk Hmd] Hsz. unfold Runtime.execute, execute. rewrite Hg.
  destruct st as [c|];
    [|pose proof Hr as [Hs _]; rewrite (state_read_none _ Hs); by apply revert_repr].
  pose proof Hr as (cs & data & Hs & E & Hc & Hrep). rewrite (state_read_repr _ _ _ Hs E Hc).
  cbn [Runtime.state_read result_of_option].
  pose proof (mint_nft_refines ctx token_id md (mkVMState c []) (mkWorld cs s [])
    (conj Hrep eq_refl) Hk Hmd Hsz) as Hm.
  destruct (NftContract.mint_nft ctx token_id md (mkVMState c [])) as [[u v']|[p l]] eqn:Em;
    [|rewrite Hm; by split_and!].
  destruct Hm as (w' & -> & Hw & Hl). apply NftContract.mint_nft_Ok_inv in Em as (_ & Hv' & _).
  destruct (state_write_repr _ _ _ Hw) as (s2 & -> & Hr2).
  - destruct Hw as [-> _], Hrep as [Ho _]. rewrite Hv'. simpl. rewrite <- Ho.
    unfold rust_contract in Hc. by apply andb_prop in Hc as [[? _]%andb_prop _].
  - by split_and!.
Qed.

Lemma execute_nft_token_sim ctx st s token_id :
  guard_passed ctx (Runtime.CallNftToken token_id) -> account_repr st s ->
  call_ok (Runtime.CallNftToken token_id) ->
  outcome_repr (Runtime.execute ctx st (Runtime.CallNftToken token_id))
    (execute ctx s (Runtime.CallNftToken token_id)).
Proof.
  intros Hg Hr Hk. unfold Runtime.execute, execute. rewrite Hg.
  destruct st as [c|] eqn:Est;
    [|pose proof Hr as [Hs _]; rewrite (state_read_none _ Hs); by apply revert_repr].
  pose proof Hr as (cs & data & Hs & E & Hc & Hrep). rewrite (state_read_repr _ _ _ Hs E Hc).
  cbn [Runtime.state_read result_of_option].
  rewrite (nft_token_refines _ _ _ _ Hrep Hk). by split_and!.
Qed.

Lemma execute_nft_metadata_sim ctx st s :
  guard_passed ctx Runtime.CallNftMetadata -> account_repr st s ->
  outcome_repr (Runtime.execute ctx st Runtime.CallNftMetadata)
    (execute ctx s Runtime.CallNftMetadata).
Proof.
  intros Hg Hr. unfold Runtime.execute, execute. rewrite Hg.
  destruct st as [c|] eqn:Est;
    [|pose proof Hr as [Hs _]; rewrite (state_read_none _ Hs); by apply revert_repr].
  pose proof Hr as (cs & data & Hs & E & Hc & Hrep). rewrite (state_read_repr _ _ _ Hs E Hc).
  cbn [Runtime.state_read result_of_option].
  rewrite (nft_metadata_refines _ _ _ Hrep). destruct (NftContract.nft_metadata c); by split_and!.
Qed.

(** A call adds at most one token. *)
Lemma execute_tokens_size ctx st call :
  (tokens_size (Runtime.out_state (Runtime.execute ctx st call)) <= tokens_size st + 1)%nat.
Proof.
  unfold Runtime.execute. destruct (_ && _); simpl; [lia|].
  destruct call, st as [c|]; simpl; try lia.
  - rewrite map_size_empty. lia.
  - destruct (NftContract.mint_nft _ _ _ _) as [[u v]|[e l]] eqn:E; simpl; [|lia].
    apply NftContract.mint_nft_Ok_inv in E as (_ & -> & _). simpl.
    rewrite map_size_insert. case_match; simpl; lia.
  - destruct (NftContract.nft_metadata c); simpl; lia.
Qed.

(** ** The storage simulates the runtime *)

(** One call of an exported function on the account storage -- deposit
    check, [STATE] read or existence check, the method on the
    collections' entries, [STATE] written back, everything reverted on
    a panic -- does what [Runtime.execute] does on the contract value:
    related states, the same log and the same result or panic. *)
Lemma execute_sim ctx st s call :
  account_repr st s -> call_ok call -> Z.of_nat (tokens_size st) + 1 < 2 ^ 64 ->
  outcome_repr (Runtime.execute ctx st call) (execute ctx s call).
Proof.
  intros Hr Hc Hs.
  destruct (Runtime.rejects_deposit call && negb (Z.eqb (attached_deposit ctx) 0)) eqn:Hg.
  - by apply execute_deposit_sim.
  - destruct call; [apply execute_new_sim | apply execute_mint_sim | apply execute_nft_token_sim
      | apply execute_nft_metadata_sim]; done.
Qed.

(** Every sequence of calls, from related states. *)
Lemma run_sim st s calls :
  account_repr st s -> Forall (fun x => call_ok x.2) calls ->
  Z.of_nat (tokens_size st + length calls) < 2 ^ 64 ->
  account_repr (Runtime.run st calls) (run s calls).
Proof.
  revert st s. induction calls as [|[ctx call] rest IH]; intros st s Hr Hc Hb; [done|].
  apply Forall_cons in Hc as [Hc Hrest]. simpl in *.
  pose proof (execute_tokens_size ctx st call).
  apply IH; [apply execute_sim; [done..|lia] | done | lia].
Qed.

(** A related initialised account: [STATE] decodes, and the length its
    token map's header records is the number of tokens. *)
Lemma account_repr_len c s :
  account_repr (Some c) s ->
  exists cs, state_read s = Ok cs /\ vec_len (um_keys (tokens_by_id cs)) = Z.of_nat (tokens_size (Some c)).
Proof.
  intros (cs & data & Hs & E & Hcs & (_ & _ & [ks I] & _)).
  exists cs. split; [by eapply state_read_repr|].
  rewrite (inv_keys_len _ _ _ _ _ I). simpl. by rewrite (um_inv_size _ _ _ _ _ I).
Qed.

(** C34. [env::state_write] of a contract value whose fields are Rust
    values succeeds, changes only the [STATE] key, and [env::state_read]
    then returns that value. *)
Theorem state_write_read cs s :
  rust_contract cs = true ->
  exists s', state_write cs s = Ok s' /\ state_read s' = Ok cs /\
    forall key, key <> STATE_KEY -> s' !! key = s !! key.
Proof.
  intros Hc. destruct (contract_total cs Hc) as [data E].
  exists (<[STATE_KEY := data]> s). unfold state_write. rewrite E. split_and!; [done| |].
  - apply (state_read_repr _ _ data); [apply lookup_insert_eq | done..].
  - intros key Hk. by apply lookup_insert_ne.
Qed.

(** C36. When [STATE] holds bytes that do not decode as the contract,
    every call with no deposit panics and commits nothing: [new] with
    the already-initialised panic, every other method with the panic of
    [env::state_read]. *)
Theorem corrupt_state_panics ctx s call data :
  attached_deposit ctx = 0 -> s !! STATE_KEY = Some data ->
  (forall cs, try_from_slice de_contract data <> Ok cs) ->
  execute ctx s call =
    revert s (match call with
              | Runtime.CallNew _ _ _ => ContractPanic AlreadyInitialized
              | _ => StateDeserialize
              end).
Proof.
  intros Hd Hs Hbad. unfold execute. rewrite Hd. simpl Z.eqb. rewrite andb_false_r.
  assert (Hr : state_read s = Err StateDeserialize).
  { unfold state_read. rewrite Hs. destruct (try_from_slice de_contract data) as [cs|]; [|done].
    by destruct (Hbad cs). }
  destruct call; rewrite ?Hr; [|done..].
  unfold state_exists. rewrite Hs, bool_decide_true by by eexists. done.
Qed.

(** ** Witnesses *)

Lemma account_repr_deployed : account_repr None ∅.
Proof. split; [apply lookup_empty | apply region_empty_empty]. Qed.

Definition demo_header : Contract :=
  mkContract "alice" (um_new (into_storage_key TokensById)) (mkLazyOption (into_storage_key Metadata)).

Lemma state_write_read_witness :
  rust_contract demo_header = true /\
  exists s', state_write demo_header ∅ = Ok s' /\ state_read s' = Ok demo_header /\
    forall key, key <> STATE_KEY -> s' !! key = (∅ : Store) !! key.
Proof.
  assert (Hc : rust_contract demo_header = true) by (vm_compute; reflexivity).
  split; [exact Hc|]. apply (state_write_read demo_header ∅ Hc).
Defined.

Lemma corrupt_state_panics_witness :
  attached_deposit NftContract.minter_ctx = 0 /\
  (<[STATE_KEY := [0]]> ∅ : Store) !! STATE_KEY = Some [0] /\
  (forall cs, try_from_slice de_contract [0] <> Ok cs) /\
  execute NftContract.minter_ctx (<[STATE_KEY := [0]]> ∅) (Runtime.CallNftToken "t1") =
    revert (<[STATE_KEY := [0]]> ∅) StateDeserialize.
Proof.
  assert (Hbad : forall cs, try_from_slice de_contract [0] <> Ok cs) by (intros cs; vm_compute; discriminate).
  assert (Hs : (<[STATE_KEY := [0]]> ∅ : Store) !! STATE_KEY = Some [0]) by apply lookup_insert_eq.
  split; [reflexivity|]. split; [exact Hs|]. split; [exact Hbad|].
  apply (corrupt_state_panics NftContract.minter_ctx _ (Runtime.CallNftToken "t1") [0] eq_refl Hs Hbad).
Defined.

End Wrapper.
