(* ===== verification/Registry.v ===== *)
(** * The abstract registry of the specification, and the refinement

    [Module Registry] states what the specification (spec.md, sections
    3, 4 and 7) promises, independently of near-sdk: a registry is
    uninitialised or holds an owner, a partial function from token ids
    to records and the collection metadata; the four operations
    initialise, mint, get-token and get-collection-metadata; the errors
    AlreadyInitialized, Unauthorized, MetadataUninitialized, and a call
    on an uninitialised registry.  Who may mint is a parameter
    ([MintPolicy]): the account pinned in the code, or the stored owner
    that the specification's design notes (section 9) recommend.

    The refinement theorems relate [Runtime.execute] to [spec_step]
    under the abstraction relation [refines]: with no deposit attached,
    every call of the contract does what the abstract operation does
    with the pinned policy for "gelezako.testnet" -- same result, same
    log, related states -- and so does every sequence of calls from the
    freshly deployed account. *)

From stdpp Require Import base gmap strings list.
From Stdlib Require Import ZArith.
From S2P Require Import Prelude Types Env Collections Contract Runtime.
Import NftContract Runtime.

Module Registry.

(** ** The specification *)

(** The registry once initialised (spec section 3). *)
Record Registry := mkRegistry {
  reg_owner : AccountId;
  reg_tokens : string -> option Token;
  reg_metadata : NFTContractMetadata;
}.

(** The operations of spec section 4.1. *)
Inductive Op :=
| Initialize (owner_id : AccountId) (name symbol : string)
| Mint (token_id : string) (metadata : TokenMetadata)
| GetToken (token_id : string)
| GetCollectionMetadata.

Inductive Answer :=
| AUnit
| AToken (token : option Token)
| AMetadata (metadata : NFTContractMetadata).

(** The error taxonomy of spec section 7, and a call before initialise. *)
Inductive SpecError :=
| ErrAlreadyInitialized
| ErrUnauthorized
| ErrMetadataUninitialized
| ErrUninitialized
(** not in the specification: the host refuses an attached deposit *)
| ErrDepositRefused.

(** Who may mint: a fixed account, or the owner stored by initialise. *)
Inductive MintPolicy :=
| PinnedAccount (account : AccountId)
| StoredOwner.

Definition may_mint (policy : MintPolicy) (reg : Registry) (caller : AccountId) : bool :=
  match policy with
  | PinnedAccount a => bool_decide (caller = a)
  | StoredOwner => bool_decide (caller = reg_owner reg)
  end.

(** The fixed schema tag of spec section 8 (property 7). *)
Definition SPEC_TAG : string := "nft-1.0.0".

(** The audit line of spec section 6. *)
Definition audit_line (token_id caller : string) : string :=
  ("Token " ++ token_id ++ " minted for " ++ caller)%string.

Definition update (f : string -> option Token) (k : string) (t : Token) : string -> option Token :=
  fun k' => if decide (k = k') then Some t else f k'.

(** One operation by [caller]: the new registry, the answer or error,
    and the log lines.  A failed operation changes nothing. *)
Definition spec_step (policy : MintPolicy) (caller : AccountId) (r : option Registry) (op : Op)
  : option Registry * result Answer SpecError * list string :=
  match op, r with
  | Initialize owner name symbol, None =>
      (Some (mkRegistry owner (fun _ => None) (mkNFTContractMetadata SPEC_TAG name symbol)),
       Ok AUnit, [])
  | Initialize _ _ _, Some _ => (r, Err ErrAlreadyInitialized, [])
  | Mint token_id md, Some reg =>
      if may_mint policy reg caller
      then (Some (mkRegistry (reg_owner reg)
                             (update (reg_tokens reg) token_id (mkToken caller md))
                             (reg_metadata reg)),
            Ok AUnit, [audit_line token_id caller])
      else (r, Err ErrUnauthorized, [])
  | GetToken token_id, Some reg => (r, Ok (AToken (reg_tokens reg token_id)), [])
  | GetCollectionMetadata, Some reg => (r, Ok (AMetadata (reg_metadata reg)), [])
  | _, None => (None, Err ErrUninitialized, [])
  end.

Fixpoint spec_run (policy : MintPolicy) (r : option Registry) (ops : list (AccountId * Op))
  : option Registry :=
  match ops with
  | [] => r
  | (caller, op) :: rest => spec_run policy (spec_step policy caller r op).1.1 rest
  end.

(** ** The abstraction *)

Definition to_call (op : Op) : Call :=
  match op with
  | Initialize owner name symbol => CallNew owner name symbol
  | Mint token_id md => CallMintNft token_id md
  | GetToken token_id => CallNftToken token_id
  | GetCollectionMetadata => CallNftMetadata
  end.

Definition to_answer (v : ReturnValue) : Answer :=
  match v with
  | RetUnit => AUnit
  | RetToken t => AToken t
  | RetMetadata m => AMetadata m
  end.

Definition to_error (e : Panic) : SpecError :=
  match e with
  | AssertEqFailed _ _ _ => ErrUnauthorized
  | UnwrapNone => ErrMetadataUninitialized
  | AlreadyInitialized => ErrAlreadyInitialized
  | NotInitialized => ErrUninitialized
  | DepositNotAccepted _ => ErrDepositRefused
  end.

Definition to_result (r : result ReturnValue Panic) : result Answer SpecError :=
  match r with
  | Ok v => Ok (to_answer v)
  | Err e => Err (to_error e)
  end.

Section Refinement.
Context {M : Type} `{!UnorderedMapOps string Token M}.

(** The contract state [st] represents the registry [r]. *)
Definition refines (st : option (Contract M)) (r : option Registry) : Prop :=
  match st, r with
  | None, None => True
  | Some c, Some reg =>
      owner_id c = reg_owner reg /\
      (forall k, nft_token c k = reg_tokens reg k) /\
      lazy_get (metadata c) = Some (reg_metadata reg)
  | _, _ => False
  end.
End Refinement.

(** The calls a sequence of operations makes, with no deposit attached. *)
Definition to_calls (ops : list (AccountId * Op)) : list (VMContext * Call) :=
  map (fun '(caller, op) => (mkVMContext caller 0, to_call op)) ops.

Section RefinementProofs.
Context {M : Type} `{!UnorderedMapOps string Token M}
        `{!UnorderedMapLaws string Token M}.

Lemma refines_new owner name symbol :
  refines (Some (new owner name symbol : Contract M))
          (Some (mkRegistry owner (fun _ => None) (mkNFTContractMetadata SPEC_TAG name symbol))).
Proof. split_and!; [done | intros k; apply nft_token_new | done]. Qed.

Lemma refines_minted c reg token_id md :
  refines (Some c) (Some reg) ->
  refines (Some (minted c token_id (mkToken MINTER md)))
          (Some (mkRegistry (reg_owner reg)
                            (update (reg_tokens reg) token_id (mkToken MINTER md))
                            (reg_metadata reg))).
Proof.
  intros (Ho & Ht & Hm). split_and!; [done| |done].
  intros k. simpl. rewrite nft_token_minted. unfold update. by case_decide.
Qed.

(** The simulation diagram for one call. *)
Lemma execute_refines_step ctx st r op :
  attached_deposit ctx = 0%Z -> refines st r ->
  refines (out_state (execute ctx st (to_call op)))
          (spec_step (PinnedAccount MINTER) (predecessor_account_id ctx) r op).1.1 /\
  to_result (out_result (execute ctx st (to_call op))) =
    (spec_step (PinnedAccount MINTER) (predecessor_account_id ctx) r op).1.2 /\
  out_logs (execute ctx st (to_call op)) =
    (spec_step (PinnedAccount MINTER) (predecessor_account_id ctx) r op).2.
Proof.
  intros Hd Hrel. destruct st as [c|], r as [reg|]; try done;
    [destruct Hrel as (Ho & Ht & Hm)|];
    destruct op as [owner name symbol|token_id md|token_id|]; simpl;
    try rewrite execute_mint_nft_run by done;
    try rewrite execute_no_deposit by auto; simpl; try done.
  - case_string_eqb Hc;
      simpl; rewrite ?bool_decide_true, ?bool_decide_false by done; simpl.
    + rewrite Hc. split; [|split; [done|reflexivity]].
      exact (refines_minted c reg token_id md (conj Ho (conj Ht Hm))).
    + done.
  - by rewrite Ht.
  - unfold nft_metadata. by rewrite Hm.
  - split; [exact (refines_new owner name symbol) | done].
Qed.

(** C5. Refinement: with no deposit attached, one call of the contract
    through the host does what the specification's operation does when
    the minter is pinned to "gelezako.testnet": related states go to
    related states, with the same answer or error and the same log. *)
Theorem execute_refines ctx st r op :
  attached_deposit ctx = 0%Z -> refines st r ->
  let '(r', res, log) := spec_step (PinnedAccount MINTER) (predecessor_account_id ctx) r op in
  refines (out_state (execute ctx st (to_call op))) r' /\
  to_result (out_result (execute ctx st (to_call op))) = res /\
  out_logs (execute ctx st (to_call op)) = log.
Proof.
  intros Hd Hrel.
  destruct (execute_refines_step ctx st r op Hd Hrel) as (H1 & H2 & H3).
  by destruct (spec_step _ _ r op) as [[r' res] log].
Qed.

(** C12. Every sequence of operations (no deposit attached) run on the
    freshly deployed account ends in a state that represents the
    registry the specification's operations produce. *)
Theorem run_refines (ops : list (AccountId * Op)) :
  refines (run (None : option (Contract M)) (to_calls ops))
          (spec_run (PinnedAccount MINTER) None ops).
Proof.
  cut (forall st r, refines st r ->
         refines (run st (to_calls ops)) (spec_run (PinnedAccount MINTER) r ops));
    [intros H; by apply H|].
  induction ops as [|[caller op] rest IH]; intros st r Hrel; simpl; [done|].
  apply IH. by apply (execute_refines_step (mkVMContext caller 0)).
Qed.
End RefinementProofs.

(** ** Witnesses, on the [gmap] implementation *)

Definition demo_registry : Registry :=
  mkRegistry "alice" (fun _ => None) (mkNFTContractMetadata SPEC_TAG "Demo" "DEMO").

Lemma demo_refines : refines (Some demo_contract) (Some demo_registry).
Proof. split_and!; [reflexivity | intros k; reflexivity | reflexivity]. Qed.

Lemma execute_refines_witness :
  let '(r', res, log) :=
    spec_step (PinnedAccount MINTER) (predecessor_account_id minter_ctx)
              (Some demo_registry) (Mint "t1" title_a) in
  refines (out_state (execute minter_ctx (Some demo_contract) (to_call (Mint "t1" title_a)))) r' /\
  to_result (out_result (execute minter_ctx (Some demo_contract) (to_call (Mint "t1" title_a)))) = res /\
  out_logs (execute minter_ctx (Some demo_contract) (to_call (Mint "t1" title_a))) = log.
Proof.
  apply (execute_refines minter_ctx (Some demo_contract) (Some demo_registry) (Mint "t1" title_a));
    [reflexivity | exact demo_refines].
Defined.

Lemma run_refines_witness :
  refines (run (None : GState) (to_calls [("alice"%string, Initialize "alice" "Demo" "DEMO");
                                          (MINTER, Mint "t1" title_a)]))
          (spec_run (PinnedAccount MINTER) None
                    [("alice"%string, Initialize "alice" "Demo" "DEMO"); (MINTER, Mint "t1" title_a)]).
Proof. apply (run_refines [("alice"%string, Initialize "alice" "Demo" "DEMO"); (MINTER, Mint "t1" title_a)]). Defined.

End Registry.
