(* ===== verification/Abi.v ===== *)
(** * The exported functions on bytes: JSON arguments in, JSON result out

    The function [#[near_bindgen]] (line 43) exports for each method
    reads the call's input bytes and writes its return value:
    - [new] and [mint_nft] first refuse an attached deposit;
    - a method with arguments then parses the input with
      [serde_json::from_slice] into its derived [Input] struct, and
      panics "Failed to deserialize input from JSON." when that fails;
      [nft_metadata] has no arguments and reads no input;
    - the call then runs as [Runtime.execute] runs it;
    - a method with a return value passes [serde_json::to_vec] of it to
      [env::value_return]; [new] and [mint_nft] return nothing.

    [execute_input] is that function, on the method's name and the
    input bytes.  The theorems: the bytes a client writes for a call
    give exactly the outcome of the call ([execute_input_encoded]);
    input that does not parse commits nothing; [new] refuses an
    owner that is not a valid account name before anything is stored;
    and an operation of [Registry.spec_step] sent as bytes refines it
    ([execute_input_refines]). *)

From stdpp Require Import base strings list.
From Stdlib Require Import ZArith Lia.
From S2P Require Import Prelude Types Account Borsh JsonText Json Env Collections Contract Runtime Registry.
Import NftContract Runtime Registry JsonText Json.

Module Abi.

(** The exported functions, by name. *)
Inductive Method :=
| MethodNew
| MethodMintNft
| MethodNftToken
| MethodNftMetadata.

(** How a call through the ABI panics: in a method or its wrapper, or
    "Failed to deserialize input from JSON." with serde_json's error. *)
Inductive AbiPanic :=
| ContractPanic (p : Panic)
| InputDeserialize (e : JsonError).

Section Abi.
Context {M : Type} `{!UnorderedMapOps string Token M}.

(** What the host sees: the state committed, the log, and the bytes
    passed to [value_return] (none for a method returning [()]) or the
    panic. *)
Record AbiOutcome := mkAbiOutcome {
  abi_state : option (Contract M);
  abi_logs : list string;
  abi_return : result (option (list Z)) AbiPanic;
}.

Definition method_str (m : Method) : string :=
  match m with
  | MethodNew => "new"
  | MethodMintNft => "mint_nft"
  | MethodNftToken => "nft_token"
  | MethodNftMetadata => "nft_metadata"
  end.

Definition method_rejects_deposit (m : Method) : bool :=
  match m with
  | MethodNew | MethodMintNft => true
  | MethodNftToken | MethodNftMetadata => false
  end.

(** The generated argument parsing. *)
Definition decode_call (m : Method) (input : list Z) : result Call JsonError :=
  match m with
  | MethodNew =>
      let! (owner, n, sy) := from_slice deserialize_new_input input in Ok (CallNew owner n sy)
  | MethodMintNft =>
      let! (token_id, md) := from_slice deserialize_mint_nft_input input in
      Ok (CallMintNft token_id md)
  | MethodNftToken =>
      let! token_id := from_slice deserialize_nft_token_input input in Ok (CallNftToken token_id)
  | MethodNftMetadata => Ok CallNftMetadata
  end.

(** [serde_json::to_vec] of the return value, for [value_return]. *)
Definition encode_return (r : ReturnValue) : option (list Z) :=
  match r with
  | RetUnit => None
  | RetToken t => Some (ser_option ser_token t)
  | RetMetadata md => Some (ser_nft_contract_metadata md)
  end.

Definition lift_outcome (o : Outcome M) : AbiOutcome :=
  mkAbiOutcome (out_state o) (out_logs o)
    match out_result o with
    | Ok r => Ok (encode_return r)
    | Err p => Err (ContractPanic p)
    end.

(** One call of an exported function on its input bytes. *)
Definition execute_input (ctx : VMContext) (st : option (Contract M)) (m : Method)
  (input : list Z) : AbiOutcome :=
  if method_rejects_deposit m && negb (Z.eqb (attached_deposit ctx) 0)
  then mkAbiOutcome st [] (Err (ContractPanic (DepositNotAccepted (method_str m))))
  else
  match decode_call m input with
  | Err e => mkAbiOutcome st [] (Err (InputDeserialize e))
  | Ok call => lift_outcome (execute ctx st call)
  end.

(** The method and input bytes a client sends for a call. *)
Definition encode_call (call : Call) : Method * list Z :=
  match call with
  | CallNew owner n sy => (MethodNew, ser_new_input owner n sy)
  | CallMintNft token_id md => (MethodMintNft, ser_mint_nft_input token_id md)
  | CallNftToken token_id => (MethodNftToken, ser_nft_token_input token_id)
  | CallNftMetadata => (MethodNftMetadata, [])
  end.

(** The arguments serde_json reads back: valid UTF-8, a valid owner. *)
Definition json_call (call : Call) : bool :=
  match call with
  | CallNew owner n sy => json_account_id owner && json_string n && json_string sy
  | CallMintNft token_id md => json_string token_id && json_token_metadata md
  | CallNftToken token_id => json_string token_id
  | CallNftMetadata => true
  end.

(** The JSON a client receives for an answer of the specification. *)
Definition answer_json (a : Answer) : option (list Z) :=
  match a with
  | AUnit => None
  | AToken t => Some (ser_option ser_token t)
  | AMetadata md => Some (ser_nft_contract_metadata md)
  end.

(** What a client of the registry observes of a call on bytes: the
    returned JSON, or the specification's error for a panic; a call
    whose input does not parse has no counterpart in the specification. *)
Definition observe (r : result (option (list Z)) AbiPanic)
  : option (result (option (list Z)) SpecError) :=
  match r with
  | Ok b => Some (Ok b)
  | Err (ContractPanic p) => Some (Err (to_error p))
  | Err (InputDeserialize _) => None
  end.

Definition spec_observe (res : result Answer SpecError) : result (option (list Z)) SpecError :=
  match res with
  | Ok a => Ok (answer_json a)
  | Err e => Err e
  end.

End Abi.

Section AbiTheory.
Context {M : Type} `{!UnorderedMapOps string Token M}.

Lemma decode_encode_call call :
  json_call call = true -> decode_call (encode_call call).1 (encode_call call).2 = Ok call.
Proof.
  destruct call as [owner n sy|token_id md|token_id|]; simpl; intros H; [| | |done].
  - rewrite (from_slice_printed _ _ (owner, n, sy)); [done|].
    intros. by apply new_input_printed.
  - rewrite (from_slice_printed _ _ (token_id, md)); [done|].
    intros. by apply mint_nft_input_printed.
  - rewrite (from_slice_printed _ _ token_id); [done|].
    intros. by apply nft_token_input_printed.
Qed.

Lemma encode_call_method call :
  method_rejects_deposit (encode_call call).1 = rejects_deposit call /\
  method_str (encode_call call).1 = method_name call.
Proof. by destruct call. Qed.

(** C31. A call sent as the JSON a client writes for it -- the method's
    name and its arguments as an object -- has exactly the outcome of
    the call: same state, same log, and the JSON of its return value
    or the same panic.  Parsing the input changes nothing. *)
Theorem execute_input_encoded ctx (st : option (Contract M)) call :
  json_call call = true ->
  execute_input ctx st (encode_call call).1 (encode_call call).2 = lift_outcome (execute ctx st call).
Proof.
  intros Hc. destruct (encode_call_method call) as [Hd Hn]. unfold execute_input.
  rewrite Hd, Hn. destruct (rejects_deposit call && negb (attached_deposit ctx =? 0)%Z) eqn:E.
  - unfold execute. by rewrite E.
  - by rewrite decode_encode_call.
Qed.

(** With no deposit attached, a call whose input is not the JSON
    of the method's arguments panics with serde_json's error, keeps the
    state and logs nothing. *)
Theorem execute_input_bad_input ctx (st : option (Contract M)) m input e :
  attached_deposit ctx = 0%Z -> decode_call m input = Err e ->
  execute_input ctx st m input = mkAbiOutcome st [] (Err (InputDeserialize e)).
Proof. intros Hd He. unfold execute_input. rewrite Hd, He. by destruct m. Qed.

(** C33. [new] with an [owner_id] that is not a valid account name
    (for example one with an upper-case letter) is refused while its
    arguments are parsed: nothing is initialised, whatever the state. *)
Theorem new_invalid_owner_refused ctx (st : option (Contract M)) owner n sy :
  attached_deposit ctx = 0%Z -> json_string owner = true ->
  Account.valid_account_id owner = false ->
  execute_input ctx st MethodNew (ser_new_input owner n sy) =
  mkAbiOutcome st [] (Err (InputDeserialize InvalidAccountId)).
Proof.
  intros Hd Ho Hv. apply execute_input_bad_input; [done|]. simpl.
  by rewrite new_input_invalid_owner.
Qed.

Lemma encode_return_answer v : encode_return v = answer_json (to_answer v).
Proof. by destruct v. Qed.

End AbiTheory.

Section AbiRefinement.
Context {M : Type} `{!UnorderedMapOps string Token M} `{!UnorderedMapLaws string Token M}.

(** C37. The exported functions on bytes implement the specification's
    registry: with no deposit attached, an operation sent as the JSON a
    client writes takes related states to related states, logs what
    the specification logs, and returns the JSON of the specification's
    answer, or fails with the specification's error. *)
Theorem execute_input_refines ctx (st : option (Contract M)) r op :
  attached_deposit ctx = 0%Z -> refines st r -> json_call (to_call op) = true ->
  let o := execute_input ctx st (encode_call (to_call op)).1 (encode_call (to_call op)).2 in
  let '(r', res, log) := spec_step (PinnedAccount MINTER) (predecessor_account_id ctx) r op in
  refines (abi_state o) r' /\ observe (abi_return o) = Some (spec_observe res) /\
  abi_logs o = log.
Proof.
  intros Hd Hrel Hj. cbv zeta. unfold execute_input.
  rewrite Hd, andb_false_r, decode_encode_call by done.
  destruct (execute_refines_step ctx st r op Hd Hrel) as (H1 & H2 & H3).
  destruct (spec_step _ _ r op) as [[r' res] log]. simpl in *.
  unfold lift_outcome. simpl. split_and!; [done| |done].
  rewrite <- H2. destruct (out_result _) as [v|p]; simpl; [|done].
  by rewrite encode_return_answer.
Qed.

End AbiRefinement.

(** C35. Parsing the arguments of any method never runs out of the
    fuel [from_slice] gives: the model's parser is total, and every
    [Err] it returns is one of serde_json's. *)
Theorem decode_call_no_out_of_fuel m input : decode_call m input <> Err OutOfFuel.
Proof.
  destruct m; simpl; [| | |done].
  - pose proof (from_slice_no_out_of_fuel _ input new_input_progress).
    destruct (from_slice deserialize_new_input input) as [[[]]|]; simpl; congruence.
  - pose proof (from_slice_no_out_of_fuel _ input mint_nft_input_progress).
    destruct (from_slice deserialize_mint_nft_input input) as [[]|]; simpl; congruence.
  - pose proof (from_slice_no_out_of_fuel _ input nft_token_input_progress).
    destruct (from_slice deserialize_nft_token_input input); simpl; congruence.
Qed.

(** ** Witnesses and the scenario through JSON, on the [gmap] implementation *)

Lemma execute_input_encoded_witness :
  execute_input minter_ctx demo_init (encode_call (CallMintNft "t1" title_a)).1
                (encode_call (CallMintNft "t1" title_a)).2 =
  lift_outcome (execute minter_ctx demo_init (CallMintNft "t1" title_a)).
Proof. apply execute_input_encoded. vm_compute. reflexivity. Defined.

Lemma execute_input_bad_input_witness :
  execute_input minter_ctx demo_init MethodMintNft [] =
  mkAbiOutcome demo_init [] (Err (InputDeserialize EofWhileParsingValue)).
Proof. apply execute_input_bad_input; vm_compute; reflexivity. Defined.

Lemma new_invalid_owner_refused_witness :
  execute_input alice_ctx (None : GState) MethodNew (ser_new_input "Alice" "Demo" "DEMO") =
  mkAbiOutcome None [] (Err (InputDeserialize InvalidAccountId)).
Proof. apply new_invalid_owner_refused; vm_compute; reflexivity. Defined.

Lemma execute_input_refines_witness :
  let o := execute_input minter_ctx (Some demo_contract)
             (encode_call (to_call (Mint "t1" title_a))).1
             (encode_call (to_call (Mint "t1" title_a))).2 in
  let '(r', res, log) := spec_step (PinnedAccount MINTER) (predecessor_account_id minter_ctx)
                           (Some demo_registry) (Mint "t1" title_a) in
  refines (abi_state o) r' /\ observe (abi_return o) = Some (spec_observe res) /\
  abi_logs o = log.
Proof.
  apply (execute_input_refines minter_ctx (Some demo_contract) (Some demo_registry));
    [reflexivity | exact demo_refines | vm_compute; reflexivity].
Defined.

(** The end-to-end scenario through the bytes the host passes:
    "alice" initialises the account; "gelezako.testnet" mints "t1"
    (no return value, one log line); [nft_token] returns the JSON of the
    token and [nft_metadata] the JSON of the collection metadata; and
    "Alice" (not a valid account name) cannot initialise an account. *)
Theorem end_to_end_json_scenario :
  let st1 := abi_state (execute_input alice_ctx (None : GState) MethodNew
                                      (ser_new_input "alice" "Demo" "DEMO")) in
  let o2 := execute_input minter_ctx st1 MethodMintNft (ser_mint_nft_input "t1" title_a) in
  abi_return o2 = Ok None /\
  abi_logs o2 = ["Token t1 minted for gelezako.testnet"%string] /\
  abi_return (execute_input alice_ctx (abi_state o2) MethodNftToken (ser_nft_token_input "t1")) =
    Ok (Some (ser_token (mkToken "gelezako.testnet" title_a))) /\
  abi_return (execute_input alice_ctx (abi_state o2) MethodNftMetadata []) =
    Ok (Some (ser_nft_contract_metadata (mkNFTContractMetadata "nft-1.0.0" "Demo" "DEMO"))) /\
  abi_return (execute_input alice_ctx (None : GState) MethodNew
                            (ser_new_input "Alice" "Demo" "DEMO")) =
    Err (InputDeserialize InvalidAccountId).
Proof. vm_compute. split_and!; reflexivity. Qed.

End Abi.
