(* ===== verification/Deployment.v ===== *)
(** * The deployed account: one exported call after another

    The host runs the account's exported functions one call at a time
    ([Abi.execute_input], on a context, a method and the input bytes),
    starting from the freshly deployed account, which holds no state.
    [run_inputs] runs a list of such calls; [reachable_bytes] is the set
    of account states some list of calls produces.  The host passes at
    most [MAX_ARGUMENTS_LENGTH] bytes of input to a call, the
    [max_arguments_length] limit of the NEAR runtime (4 MiB).

    The theorems: every such state is reachable in [Runtime] too, so the
    invariants proved there hold of it; every value it stores has its
    Rust type ([typed]) -- [owner_id] and every token's [owner_id] are
    valid [AccountId]s, every [String] (the token ids included) is valid
    UTF-8 of fewer than [2^31] bytes -- although the model's [string]
    does not carry these facts; so every stored value reads back from
    its Borsh bytes, as [state_write] and the collections write them;
    and the minter can always mint: from every state some calls, sent as
    the JSON a client writes, lead to a state whose [nft_token] returns
    the token. *)

From stdpp Require Import base strings list.
From Stdlib Require Import ZArith Lia.
From S2P Require Import Prelude Types Account Borsh JsonText Json Env Collections Contract Runtime Abi.
Import NftContract Runtime JsonText Json Abi.

Module Deployment.

(** The NEAR runtime's [max_arguments_length]: the most input bytes a
    function call carries. *)
Definition MAX_ARGUMENTS_LENGTH : Z := 4194304.

(** A value that storage writes as its Borsh bytes reads back as itself. *)
Definition reads_back {A} (ser : A -> result (list Z) Borsh.BorshError) (de : Borsh.Parser A)
  (a : A) : Prop :=
  exists bs, ser a = Ok bs /\ Borsh.try_from_slice de bs = Ok a.

Section Deployment.
Context {M : Type} `{!UnorderedMapOps string Token M}.

(** One call as the host delivers it: context, exported function, input. *)
Definition Tx : Type := VMContext * Method * list Z.

(** The host running the calls in order, each on the state the previous
    one committed. *)
Definition run_inputs (st : option (Contract M)) (txs : list Tx) : option (Contract M) :=
  fold_left (fun st '(ctx, m, input) => abi_state (execute_input ctx st m input)) txs st.

(** The states the account can be in after deployment, through the
    exported functions. *)
Inductive reachable_bytes : option (Contract M) -> Prop :=
| reachable_bytes_deploy : reachable_bytes None
| reachable_bytes_step ctx st m input :
    (Z.of_nat (length input) <= MAX_ARGUMENTS_LENGTH)%Z ->
    reachable_bytes st -> reachable_bytes (abi_state (execute_input ctx st m input)).

(** The Rust types of the stored values: [owner_id : AccountId], the
    metadata's three [String]s, and for every stored token its id, a
    [String], and the [Token] itself. *)
Definition typed (st : option (Contract M)) : Prop :=
  match st with
  | None => True
  | Some c =>
      Borsh.rust_account_id (owner_id c) = true /\
      Borsh.option_all Borsh.rust_nft_contract_metadata (lazy_get (metadata c)) = true /\
      forall token_id t, nft_token c token_id = Some t ->
        Borsh.rust_string token_id = true /\ Borsh.rust_token t = true
  end.

End Deployment.

Section DeploymentTheory.
Context {M : Type} `{!UnorderedMapOps string Token M} `{!UnorderedMapLaws string Token M}.

(** A call on bytes commits the state it started from (a deposit
    refused, input that does not parse) or what the decoded call commits. *)
Lemma execute_input_state ctx (st : option (Contract M)) m input :
  abi_state (execute_input ctx st m input) = st \/
  exists call, decode_call m input = Ok call /\
    abi_state (execute_input ctx st m input) = out_state (execute ctx st call).
Proof.
  unfold execute_input. destruct (_ && _); [by left|].
  destruct (decode_call m input) as [call|e]; [right; by exists call|by left].
Qed.

Lemma reachable_bytes_runtime (st : option (Contract M)) :
  reachable_bytes st -> reachable st.
Proof.
  induction 1 as [|ctx st m input _ _ IH]; [constructor|].
  destruct (execute_input_state ctx st m input) as [-> | (call & _ & ->)]; [done|].
  eapply reachable_step; [exact IH | constructor].
Qed.

Lemma from_slice_ok {A} (de : nat -> Parser A) input a :
  from_slice de input = Ok a -> exists r, de (fuel_for input) input = Ok (a, r).
Proof.
  unfold from_slice. destruct (de _ input) as [[a' r]|e]; cbn [result_bind]; [|done].
  destruct (parse_whitespace r); intros; simplify_eq; eauto.
Qed.

(** The arguments of a decoded [new] and [mint_nft] have their Rust types. *)
Lemma decode_call_new_rust m input o n sy :
  (Z.of_nat (length input) < 2 ^ 31)%Z -> decode_call m input = Ok (CallNew o n sy) ->
  Borsh.rust_account_id o = true /\ Borsh.rust_string n = true /\ Borsh.rust_string sy = true.
Proof.
  intros Hl. destruct m; simpl; [|by destruct (from_slice _ _) as [[]|]..|done].
  destruct (from_slice deserialize_new_input input) as [[[o' n'] sy']|e] eqn:E;
    cbn [result_bind]; intros; simplify_eq.
  destruct (from_slice_ok _ _ _ E) as [r Hr]. eapply new_input_rust; [|exact Hl|exact Hr].
  unfold fuel_for. lia.
Qed.

Lemma decode_call_mint_rust m input token_id md :
  (Z.of_nat (length input) < 2 ^ 31)%Z -> decode_call m input = Ok (CallMintNft token_id md) ->
  Borsh.rust_string token_id = true /\ Borsh.rust_token_metadata md = true.
Proof.
  intros Hl. destruct m; simpl; [by destruct (from_slice _ _) as [[[]]|]| |
    by destruct (from_slice _ _) as [|]|done].
  destruct (from_slice deserialize_mint_nft_input input) as [[i md']|e] eqn:E;
    cbn [result_bind]; intros; simplify_eq.
  destruct (from_slice_ok _ _ _ E) as [r Hr]. eapply mint_nft_input_rust; [|exact Hl|exact Hr].
  unfold fuel_for. lia.
Qed.

Lemma decode_call_token_rust m input token_id :
  (Z.of_nat (length input) < 2 ^ 31)%Z -> decode_call m input = Ok (CallNftToken token_id) ->
  Borsh.rust_string token_id = true.
Proof.
  intros Hl. destruct m; simpl; [by destruct (from_slice _ _) as [[[]]|]..| |done].
  destruct (from_slice deserialize_nft_token_input input) as [i|e] eqn:E;
    cbn [result_bind]; intros; simplify_eq.
  destruct (from_slice_ok _ _ _ E) as [r Hr]. eapply nft_token_input_rust; [|exact Hl|exact Hr].
  unfold fuel_for. lia.
Qed.

Lemma minter_rust : Borsh.rust_account_id MINTER = true.
Proof. reflexivity. Qed.

Lemma typed_new owner name symbol :
  Borsh.rust_account_id owner = true -> Borsh.rust_string name = true ->
  Borsh.rust_string symbol = true -> typed (Some (new owner name symbol : Contract M)).
Proof.
  intros Ho Hn Hs. split_and!; [done| |].
  - simpl. unfold Borsh.rust_nft_contract_metadata. simpl. by rewrite Hn, Hs.
  - intros token_id t. by rewrite nft_token_new.
Qed.

Lemma typed_minted (c : Contract M) token_id md :
  typed (Some c) -> Borsh.rust_string token_id = true -> Borsh.rust_token_metadata md = true ->
  typed (Some (minted c token_id (mkToken MINTER md))).
Proof.
  intros (Ho & Hm & Ht) Hi Hmd. split_and!; [done|done|].
  intros token_id' t. rewrite nft_token_minted.
  case_decide as E; [intros [= <-]; subst token_id'|by apply Ht].
  split; [done|]. unfold Borsh.rust_token. cbn [Types.owner_id Types.metadata]. by rewrite minter_rust, Hmd.
Qed.

Lemma reachable_bytes_typed_inv (st : option (Contract M)) : reachable_bytes st -> typed st.
Proof.
  induction 1 as [|ctx st m input Hlen _ IH]; [done|].
  assert (Hl : (Z.of_nat (length input) < 2 ^ 31)%Z)
    by (unfold MAX_ARGUMENTS_LENGTH in Hlen; lia).
  destruct (execute_input_state ctx st m input) as [-> | (call & Hd & ->)]; [done|].
  destruct (execute_transition ctx st call)
    as [-> | [(o & n & sy & -> & -> & ->) | (c & token_id & md & -> & -> & ->)]]; [done| |].
  - destruct (decode_call_new_rust _ _ _ _ _ Hl Hd) as (? & ? & ?). by apply typed_new.
  - destruct (decode_call_mint_rust _ _ _ _ Hl Hd). by apply typed_minted.
Qed.

(** C8. Type invariant: every state the exported functions can produce
    holds values of the Rust types of the contract's fields -- [owner_id]
    and the owner of every token are valid account names ([AccountId]),
    and the collection's name and symbol, every token id and every
    metadata string are valid UTF-8 within [isize::MAX] bytes
    ([String]).  The model's [string] carries none of this: it holds
    because [new] only receives an owner that passed [AccountId]'s
    validation and serde_json checks the UTF-8 of every string it reads,
    and because only "gelezako.testnet" can mint. *)
Theorem reachable_bytes_typed (st : option (Contract M)) :
  reachable_bytes st -> typed st.
Proof. apply reachable_bytes_typed_inv. Qed.

(** C16. What storage holds reads back: in every state the exported
    functions can produce, the [owner_id] that [state_write] stores in
    the contract's Borsh bytes, the metadata the [LazyOption] cell
    stores, and every key and value the [UnorderedMap] stores are
    written by their Borsh encoders without error and decoded by
    [try_from_slice] as the same values -- so the next call's
    [state_read], [nft_metadata] and [nft_token] see exactly what the
    previous calls stored. *)
Theorem reachable_state_reads_back (c : Contract M) :
  reachable_bytes (Some c) ->
  reads_back Borsh.ser_string Borsh.de_account_id (owner_id c) /\
  (forall md, lazy_get (metadata c) = Some md ->
     reads_back Borsh.ser_nft_contract_metadata Borsh.de_nft_contract_metadata md) /\
  (forall token_id t, nft_token c token_id = Some t ->
     reads_back Borsh.ser_string Borsh.de_string token_id /\
     reads_back Borsh.ser_token Borsh.de_token t).
Proof.
  intros Hr. destruct (reachable_bytes_typed_inv _ Hr) as (Ho & Hm & Ht). split_and!.
  - eapply Borsh.try_from_slice_roundtrips;
      [apply Borsh.account_id_roundtrips | apply Borsh.account_id_total | done].
  - intros md E. rewrite E in Hm.
    eapply Borsh.try_from_slice_roundtrips;
      [apply Borsh.nft_contract_metadata_roundtrips | apply Borsh.nft_contract_metadata_total | done].
  - intros token_id t E. destruct (Ht _ _ E) as [Hi Htk]. split.
    + eapply Borsh.try_from_slice_roundtrips;
        [apply Borsh.string_roundtrips | apply Borsh.string_total | done].
    + eapply Borsh.try_from_slice_roundtrips;
        [apply Borsh.token_roundtrips | apply Borsh.token_total | done].
Qed.

Lemma run_inputs_app (st : option (Contract M)) txs txs' :
  run_inputs st (txs ++ txs') = run_inputs (run_inputs st txs) txs'.
Proof. apply fold_left_app. Qed.

(** The encoded [mint_nft] of the minter, with no deposit, on an
    initialised account commits the minted token. *)
Lemma mint_tx_state (c : Contract M) token_id md :
  json_call (CallMintNft token_id md) = true ->
  abi_state (execute_input (mkVMContext MINTER 0) (Some c) MethodMintNft
               (ser_mint_nft_input token_id md)) =
    Some (minted c token_id (mkToken MINTER md)).
Proof.
  intros Hj. unfold execute_input. cbn [method_rejects_deposit attached_deposit].
  pose proof (decode_encode_call (CallMintNft token_id md) Hj) as Hd.
  cbn [encode_call fst snd] in Hd. rewrite Hd. cbn [result_bind].
  rewrite execute_mint_nft_run by done. by rewrite String.eqb_refl.
Qed.

(** The encoded [new], with no deposit, on the fresh account commits
    the contract [new] builds. *)
Lemma new_tx_state ctx owner name symbol :
  attached_deposit ctx = 0%Z -> json_call (CallNew owner name symbol) = true ->
  abi_state (execute_input ctx None MethodNew (ser_new_input owner name symbol)) =
    Some (new owner name symbol).
Proof.
  intros H0 Hj. unfold execute_input. cbn [method_rejects_deposit]. rewrite H0.
  pose proof (decode_encode_call (CallNew owner name symbol) Hj) as Hd.
  cbn [encode_call fst snd] in Hd. rewrite Hd. cbn [result_bind andb negb Z.eqb].
  by rewrite execute_no_deposit by (right; done).
Qed.

(** C24. Liveness of minting: from every state of the account, calls
    sent as the JSON a client writes lead to a state whose [nft_token]
    returns the token as the minter minted it -- [mint_nft] by
    "gelezako.testnet" with no deposit, preceded by [new] when the
    account is not initialised yet.  No state locks the minter out. *)
Theorem minter_can_always_mint (st : option (Contract M)) token_id md :
  json_call (CallMintNft token_id md) = true ->
  exists txs c', run_inputs st txs = Some c' /\
    nft_token c' token_id = Some (mkToken MINTER md).
Proof.
  intros Hj.
  set (mint := (mkVMContext MINTER 0, MethodMintNft, ser_mint_nft_input token_id md)).
  destruct st as [c|].
  - exists [mint]. eexists. split; [apply (mint_tx_state c _ _ Hj)|].
    rewrite nft_token_minted. by rewrite decide_True.
  - exists [(mkVMContext MINTER 0, MethodNew, ser_new_input MINTER "" ""); mint].
    eexists. split.
    + cbn [run_inputs fold_left]. rewrite new_tx_state by reflexivity.
      apply (mint_tx_state _ _ _ Hj).
    + rewrite nft_token_minted. by rewrite decide_True.
Qed.

End DeploymentTheory.

(** ** Witnesses *)

Lemma demo_contract_reachable_bytes : reachable_bytes (Some demo_contract).
Proof.
  replace (Some demo_contract)
    with (abi_state (execute_input alice_ctx None MethodNew (ser_new_input "alice" "Demo" "DEMO")))
    by (vm_compute; reflexivity).
  constructor; [apply Z.leb_le; vm_compute; reflexivity | constructor].
Qed.

Lemma reachable_state_reads_back_witness :
  reads_back Borsh.ser_string Borsh.de_account_id (owner_id demo_contract) /\
  (forall md, lazy_get (metadata demo_contract) = Some md ->
     reads_back Borsh.ser_nft_contract_metadata Borsh.de_nft_contract_metadata md) /\
  (forall token_id t, nft_token demo_contract token_id = Some t ->
     reads_back Borsh.ser_string Borsh.de_string token_id /\
     reads_back Borsh.ser_token Borsh.de_token t).
Proof. apply reachable_state_reads_back. exact demo_contract_reachable_bytes. Defined.

Lemma minter_can_always_mint_witness :
  json_call (CallMintNft "t1" title_a) = true /\
  exists txs c', run_inputs (None : option GContract) txs = Some c' /\
    nft_token c' "t1" = Some (mkToken MINTER title_a).
Proof.
  split; [vm_compute; reflexivity|].
  apply minter_can_always_mint. vm_compute. reflexivity.
Defined.

Lemma reachable_bytes_typed_witness :
  typed (abi_state (execute_input minter_ctx
           (abi_state (execute_input alice_ctx (None : option GContract) MethodNew
                         (encode_call (CallNew "alice.near" "Demo" "DMO")).2))
           MethodMintNft (encode_call (CallMintNft "t1" title_a)).2)).
Proof.
  apply reachable_bytes_typed.
  apply reachable_bytes_step; [apply Z.leb_le; vm_compute; reflexivity|].
  apply reachable_bytes_step; [apply Z.leb_le; vm_compute; reflexivity|].
  apply reachable_bytes_deploy.
Defined.

End Deployment.
