(* ===== verification/Host.v ===== *)
(** * The deployed account on its storage, driven by input bytes

    [Module Host] puts the two halves of an exported function together
    as the host runs it: the generated argument parsing of [Abi]
    ([decode_call], serde_json on the input bytes) and the wrapper on
    the account storage of [Wrapper] ([STATE], the collections'
    entries, revert on panic).  [execute_input] is one call on a method
    name and input bytes, [run_inputs] a sequence of them.

    The theorems relate this to [Abi.execute_input] and
    [Deployment.run_inputs] on the contract value: every call on bytes
    within NEAR's argument limit has the same log and the same returned
    bytes or panic on storage, and from the freshly deployed account
    every sequence of such calls leaves storage that represents the
    contract value.  No assumption on the arguments is needed: the JSON
    readers only produce arguments that are Rust values, which is what
    the storage encodings require. *)

From stdpp Require Import base gmap strings list.
From Stdlib Require Import ZArith Lia.
From S2P Require Import Prelude Types Account Borsh JsonText Json Env Collections Storage Contract Layout Runtime Wrapper Abi Deployment.
Import Borsh Storage Layout Wrapper.

Module Host.
Local Open Scope Z_scope.

Abbreviation GAbiOutcome := (@Abi.AbiOutcome (GUnorderedMap string Token)).

(** How a call on bytes panics: in the wrapper or the method, or
    "Failed to deserialize input from JSON." with serde_json's error. *)
Inductive AbiPanic :=
| CallPanic (p : HostPanic)
| InputDeserialize (e : JsonText.JsonError).

(** What the host sees: the storage committed, the log, and the bytes
    passed to [value_return] or the panic. *)
Record AbiOutcome := mkAbiOutcome {
  abi_storage : Store;
  abi_logs : list string;
  abi_return : result (option (list Z)) AbiPanic;
}.

Definition lift_outcome (o : Outcome) : AbiOutcome :=
  mkAbiOutcome (out_storage o) (out_logs o)
    match out_result o with
    | Ok r => Ok (Abi.encode_return r)
    | Err p => Err (CallPanic p)
    end.

(** One exported function on its input bytes, on the account storage. *)
Definition execute_input (ctx : VMContext) (s : Store) (m : Abi.Method) (input : list Z)
  : AbiOutcome :=
  if Abi.method_rejects_deposit m && negb (Z.eqb (attached_deposit ctx) 0)
  then mkAbiOutcome s [] (Err (CallPanic (ContractPanic (DepositNotAccepted (Abi.method_str m)))))
  else
  match Abi.decode_call m input with
  | Err e => mkAbiOutcome s [] (Err (InputDeserialize e))
  | Ok call => lift_outcome (execute ctx s call)
  end.

(** The host running the calls in order on the committed storage. *)
Definition run_inputs (s : Store) (txs : list Deployment.Tx) : Store :=
  fold_left (fun s '(ctx, m, input) => abi_storage (execute_input ctx s m input)) txs s.

(** The panics of [Abi] as panics on storage. *)
Definition lift_abi_panic (p : Abi.AbiPanic) : AbiPanic :=
  match p with
  | Abi.ContractPanic p => CallPanic (ContractPanic p)
  | Abi.InputDeserialize e => InputDeserialize e
  end.

(** The outcome on storage matches the one on the contract value. *)
Definition abi_outcome_repr (o : GAbiOutcome) (so : AbiOutcome) : Prop :=
  account_repr (Abi.abi_state o) (abi_storage so) /\ abi_logs so = Abi.abi_logs o /\
  abi_return so = match Abi.abi_return o with Ok r => Ok r | Err p => Err (lift_abi_panic p) end.

(** ** Lemmas *)

Lemma rust_string_length str : rust_string str = true -> Z.of_nat (String.length str) < 2 ^ 32.
Proof. unfold rust_string. intros [_ H%Z.ltb_lt]%andb_prop. lia. Qed.

(** The arguments the JSON readers produce are Rust values. *)
Lemma decode_call_ok m input call :
  Z.of_nat (length input) < 2 ^ 31 -> Abi.decode_call m input = Ok call -> call_ok call.
Proof.
  intros Hl E. destruct call as [o n sy|i md|i|]; simpl.
  - destruct (Deployment.decode_call_new_rust m input o n sy Hl E)
      as (Ho & Hn & Hs).
    split; [done|]. unfold rust_nft_contract_metadata. simpl. by rewrite Hn, Hs.
  - destruct (Deployment.decode_call_mint_rust m input i md Hl E)
      as [Hi Hmd].
    split; [by apply rust_string_length | done].
  - apply rust_string_length.
    exact (Deployment.decode_call_token_rust m input i Hl E).
  - done.
Qed.

Lemma max_arguments_length_small n :
  n <= Deployment.MAX_ARGUMENTS_LENGTH -> n < 2 ^ 31.
Proof. unfold Deployment.MAX_ARGUMENTS_LENGTH. lia. Qed.

(** A call on bytes adds at most one token. *)
Lemma execute_input_tokens_size ctx st m input :
  (tokens_size (Abi.abi_state (Abi.execute_input ctx st m input)) <= tokens_size st + 1)%nat.
Proof.
  destruct (Deployment.execute_input_state (M := GUnorderedMap string Token) ctx st m input)
    as [-> | (call & _ & ->)]; [lia | apply execute_tokens_size].
Qed.

(** ** The storage simulates the contract value, from the bytes on *)

(** C22. One exported function called with input bytes within NEAR's
    argument limit, run on the account storage -- deposit check, JSON
    arguments, [STATE], the collections, revert on panic -- has exactly
    the outcome [Abi.execute_input] has on the contract value: the same
    log, the same returned bytes or panic, and related states. *)
Theorem execute_input_storage_refines ctx st s m input :
  account_repr st s -> Z.of_nat (length input) <= Deployment.MAX_ARGUMENTS_LENGTH ->
  Z.of_nat (tokens_size st) + 1 < 2 ^ 64 ->
  abi_outcome_repr (Abi.execute_input ctx st m input) (execute_input ctx s m input).
Proof.
  intros Hr Hl Hs. unfold Abi.execute_input, execute_input.
  destruct (Abi.method_rejects_deposit m && _); [by split_and!|].
  destruct (Abi.decode_call m input) as [call|e] eqn:Ed; [|by split_and!].
  apply max_arguments_length_small in Hl.
  destruct (execute_sim ctx st s call Hr (decode_call_ok m input call Hl Ed) Hs) as (H1 & H2 & H3).
  unfold Abi.lift_outcome, lift_outcome. split_and!; [done | done |]. simpl.
  rewrite H3. by destruct (Runtime.out_result _).
Qed.

Lemma run_inputs_sim st s txs :
  account_repr st s ->
  Forall (fun tx : Deployment.Tx => Z.of_nat (length tx.2) <= Deployment.MAX_ARGUMENTS_LENGTH) txs ->
  Z.of_nat (tokens_size st + length txs) < 2 ^ 64 ->
  account_repr (Deployment.run_inputs st txs) (run_inputs s txs).
Proof.
  revert st s. induction txs as [|[[ctx m] input] rest IH]; intros st s Hr Hl Hb; [done|].
  apply Forall_cons in Hl as [Hl Hrest]. simpl in Hl, Hb.
  pose proof (execute_input_tokens_size ctx st m input).
  apply IH; [|done|lia]. unfold Abi.execute_input, execute_input.
  destruct (Abi.method_rejects_deposit m && _); [done|].
  destruct (Abi.decode_call m input) as [call|e] eqn:Ed; [|done].
  apply max_arguments_length_small in Hl.
  apply (execute_sim ctx st s call Hr (decode_call_ok m input call Hl Ed)). lia.
Qed.

(** An initialised account keeps its metadata through calls on bytes. *)
Lemma run_inputs_keeps_metadata (c : GContract) txs :
  exists c', Deployment.run_inputs (Some c) txs = Some c' /\ NftContract.metadata c' = NftContract.metadata c.
Proof.
  revert c. induction txs as [|[[ctx m] input] rest IH]; intros c; [by eexists|].
  unfold Deployment.run_inputs. simpl. fold (Deployment.run_inputs (M := GUnorderedMap string Token)).
  destruct (Deployment.execute_input_state ctx (Some c) m input) as [-> | (call & _ & ->)]; [apply IH|].
  destruct (Runtime.execute_keeps_owner_metadata ctx c call) as (c1 & -> & _ & Hm).
  destruct (IH c1) as (c2 & Hr & Hm2). exists c2. by rewrite Hm2, Hm.
Qed.

(** C18. Once the account is initialised, no sequence of exported calls
    on input bytes within NEAR's argument limit changes the bytes of the
    collection metadata cell in storage: the spec's immutable
    CollectionMetadata, on the storage the contract keeps. *)
Theorem metadata_cell_immutable (c : GContract) s txs :
  account_repr (Some c) s ->
  Forall (fun tx : Deployment.Tx => Z.of_nat (length tx.2) <= Deployment.MAX_ARGUMENTS_LENGTH) txs ->
  Z.of_nat (tokens_size (Some c) + length txs) < 2 ^ 64 ->
  run_inputs s txs !! into_storage_key Metadata = s !! into_storage_key Metadata.
Proof.
  intros Hr Hl Hb. pose proof (run_inputs_sim _ _ _ Hr Hl Hb) as Hr'.
  destruct (run_inputs_keeps_metadata c txs) as (c' & Hc' & Hm). rewrite Hc' in Hr'.
  exact (account_repr_metadata_cell _ _ _ _ Hr Hr' Hm).
Qed.

(** C32. Every sequence of exported calls on input bytes within NEAR's
    argument limit, run from the freshly deployed account (empty
    storage), leaves a storage that represents the contract value
    [Deployment.run_inputs] computes; once initialised, [STATE] decodes
    and the length its token map's header records is the number of
    tokens.  The bound on the number of calls keeps that u64 length
    from wrapping. *)
Theorem deployed_storage_refines txs :
  Forall (fun tx : Deployment.Tx => Z.of_nat (length tx.2) <= Deployment.MAX_ARGUMENTS_LENGTH) txs ->
  Z.of_nat (length txs) < 2 ^ 64 ->
  account_repr (Deployment.run_inputs None txs) (run_inputs ∅ txs) /\
  forall c, Deployment.run_inputs None txs = Some c ->
    exists cs, state_read (run_inputs ∅ txs) = Ok cs /\
      vec_len (um_keys (tokens_by_id cs)) = Z.of_nat (tokens_size (Some c)).
Proof.
  intros Hl Hb.
  assert (H : account_repr (Deployment.run_inputs None txs) (run_inputs ∅ txs)).
  { apply run_inputs_sim; [split; [apply lookup_empty | apply region_empty_empty] | done | simpl; lia]. }
  split; [done|]. intros c Ec. rewrite Ec in H. by apply account_repr_len.
Qed.

(** ** Witnesses *)

Definition demo_new_input : list Z := Json.ser_new_input "alice" "Demo" "DEMO".

(** Initialise, mint twice (once refused), read a token, as bytes. *)
Definition demo_txs : list Deployment.Tx :=
  [(NftContract.alice_ctx, Abi.MethodNew, demo_new_input);
   (NftContract.minter_ctx, Abi.MethodMintNft, Json.ser_mint_nft_input "t1" NftContract.demo_md);
   (NftContract.alice_ctx, Abi.MethodMintNft, Json.ser_mint_nft_input "t2" NftContract.demo_md);
   (NftContract.alice_ctx, Abi.MethodNftToken, Json.ser_nft_token_input "t1")].

Lemma execute_input_storage_refines_witness :
  account_repr None ∅ /\ Z.of_nat (length demo_new_input) <= Deployment.MAX_ARGUMENTS_LENGTH /\
  Z.of_nat (tokens_size None) + 1 < 2 ^ 64 /\
  abi_outcome_repr (Abi.execute_input NftContract.alice_ctx None Abi.MethodNew demo_new_input)
    (execute_input NftContract.alice_ctx ∅ Abi.MethodNew demo_new_input).
Proof.
  assert (Hr : account_repr None ∅) by (split; [apply lookup_empty | apply region_empty_empty]).
  assert (Hl : Z.of_nat (length demo_new_input) <= Deployment.MAX_ARGUMENTS_LENGTH)
    by (apply Z.leb_le; vm_compute; reflexivity).
  split; [exact Hr|]. split; [exact Hl|]. split; [vm_compute; reflexivity|].
  apply (execute_input_storage_refines _ _ _ _ _ Hr Hl). vm_compute. reflexivity.
Defined.

Lemma deployed_storage_refines_witness :
  Forall (fun tx : Deployment.Tx => Z.of_nat (length tx.2) <= Deployment.MAX_ARGUMENTS_LENGTH) demo_txs /\
  Z.of_nat (length demo_txs) < 2 ^ 64 /\
  (account_repr (Deployment.run_inputs None demo_txs) (run_inputs ∅ demo_txs) /\
   forall c, Deployment.run_inputs None demo_txs = Some c ->
     exists cs, state_read (run_inputs ∅ demo_txs) = Ok cs /\
       vec_len (um_keys (tokens_by_id cs)) = Z.of_nat (tokens_size (Some c))).
Proof.
  assert (Hl : Forall (fun tx : Deployment.Tx =>
    Z.of_nat (length tx.2) <= Deployment.MAX_ARGUMENTS_LENGTH) demo_txs)
    by (repeat constructor; apply Z.leb_le; vm_compute; reflexivity).
  split; [exact Hl|]. split; [vm_compute; reflexivity|].
  apply (deployed_storage_refines demo_txs Hl). vm_compute. reflexivity.
Defined.

Definition demo_c0 : GContract := NftContract.new "alice" "Demo" "DEMO".
Definition demo_s0 : Store := run_inputs ∅ [(NftContract.alice_ctx, Abi.MethodNew, demo_new_input)].

Lemma demo_s0_repr : account_repr (Some demo_c0) demo_s0.
Proof.
  assert (H := run_inputs_sim None ∅ [(NftContract.alice_ctx, Abi.MethodNew, demo_new_input)]).
  replace (Some demo_c0) with
    (Deployment.run_inputs None [(NftContract.alice_ctx, Abi.MethodNew, demo_new_input)])
    by (vm_compute; reflexivity).
  apply H; [split; [apply lookup_empty | apply region_empty_empty] | | vm_compute; reflexivity].
  repeat constructor. apply Z.leb_le. vm_compute. reflexivity.
Qed.

Lemma metadata_cell_immutable_witness :
  account_repr (Some demo_c0) demo_s0 /\
  Forall (fun tx : Deployment.Tx => Z.of_nat (length tx.2) <= Deployment.MAX_ARGUMENTS_LENGTH) demo_txs /\
  Z.of_nat (tokens_size (Some demo_c0) + length demo_txs) < 2 ^ 64 /\
  run_inputs demo_s0 demo_txs !! into_storage_key Metadata = demo_s0 !! into_storage_key Metadata.
Proof.
  pose proof demo_s0_repr as Hr.
  assert (Hl : Forall (fun tx : Deployment.Tx =>
    Z.of_nat (length tx.2) <= Deployment.MAX_ARGUMENTS_LENGTH) demo_txs)
    by (repeat constructor; apply Z.leb_le; vm_compute; reflexivity).
  split; [exact Hr|]. split; [exact Hl|]. split; [vm_compute; reflexivity|].
  apply (metadata_cell_immutable _ _ _ Hr Hl). vm_compute. reflexivity.
Defined.

End Host.
